(** * Accomplishment extraction and daily-note merge

    A shallow embedding of [parse-accomplishments.py],
    [update-obsidian-daily.py] and [update-project-claudemd.py].

    Text is a sequence of code points.  The development covers texts whose
    code points are below 256, so a character is an [ascii]; on that range
    Python's [\s], [str.strip()], [\d] and [.] are the predicates
    [is_space], [is_digit] and [not_newline] below, and string comparison
    is comparison of code points.  A file is the text that [f.read()]
    returns for it and [f.write()] stores.

    The definitions come first: the string primitives ([PyStr]), the
    regular expressions ([Re]), the two scripts ([Parse], [Daily], [Run])
    and the notions the statements are written with ([Denote]); then the
    walk over the project directories and the display ([Collect]), the
    update of a log file ([Claudemd]), the records as JSON ([Json]) and
    further notions ([Terms], [JsonTerms]).  The facts and the theorems
    follow. *)

From Stdlib Require Import Ascii String.
From Stdlib Require Import List Bool Arith Lia Sorted Permutation.
From Stdlib Require Import ZArith ZifyNat.
Import ListNotations.

Set Implicit Arguments.

(** ** Python string primitives *)
Module PyStr.

Definition str := list ascii.

(** A literal of the source, as a sequence of characters. *)
Definition lit (s : string) : str := list_ascii_of_string s.

Definition code (c : ascii) : nat := nat_of_ascii c.

Definition newline : ascii := ascii_of_nat 10.

(** [str.isspace] on one character (and the regex class [\s] in a str
    pattern): TAB..CR, FS..US, space, NEL and NBSP. *)
Definition is_space (c : ascii) : bool :=
  let n := code c in
  ((9 <=? n) && (n <=? 13)) || ((28 <=? n) && (n <=? 32))
  || (n =? 133) || (n =? 160).

(** The regex class [\d]. *)
Definition is_digit (c : ascii) : bool :=
  let n := code c in (48 <=? n) && (n <=? 57).

(** The regex [.] without DOTALL. *)
Definition not_newline (c : ascii) : bool := negb (code c =? 10).

(** The regex [.] with DOTALL. *)
Definition any_char (c : ascii) : bool := true.

Definition is_char (a c : ascii) : bool := Ascii.eqb a c.

Fixpoint drop_while (p : ascii -> bool) (s : str) : str :=
  match s with
  | c :: s' => if p c then drop_while p s' else s
  | [] => []
  end.

Definition lstrip (s : str) : str := drop_while is_space s.
Definition rstrip (s : str) : str := rev (drop_while is_space (rev s)).

(** [s.strip()] *)
Definition strip (s : str) : str := rstrip (lstrip s).

(** [s.startswith(p)] *)
Fixpoint startswith (p s : str) : bool :=
  match p, s with
  | [], _ => true
  | a :: p', c :: s' => Ascii.eqb a c && startswith p' s'
  | _ :: _, [] => false
  end.

(** [s.endswith(p)] *)
Definition endswith (p s : str) : bool := startswith (rev p) (rev s).

(** [s.split('\n')], with the piece being read in [cur]. *)
Fixpoint split_acc (cur : str) (s : str) : list str :=
  match s with
  | [] => [rev cur]
  | c :: s' =>
      if Ascii.eqb c newline then rev cur :: split_acc [] s'
      else split_acc (c :: cur) s'
  end.

Definition split_lines (s : str) : list str := split_acc [] s.

(** [sep.join(parts)] *)
Fixpoint join (sep : str) (parts : list str) : str :=
  match parts with
  | [] => []
  | [p] => p
  | p :: ps => p ++ sep ++ join sep ps
  end.

Definition str_eqb (a b : str) : bool :=
  if list_eq_dec ascii_dec a b then true else false.

(** [a < b] on strings: lexicographic on code points. *)
Fixpoint str_ltb (a b : str) : bool :=
  match a, b with
  | [], [] => false
  | [], _ :: _ => true
  | _ :: _, [] => false
  | x :: a', y :: b' =>
      if code x <? code y then true
      else if code y <? code x then false
      else str_ltb a' b'
  end.

End PyStr.

(** ** The fragment of Python's [re] the scripts use

    A backtracking matcher in continuation-passing style: alternatives are
    tried in the order the [re] module tries them (greedy before shorter,
    lazy before longer, left alternative first) and the first complete
    match wins.  Repetition is over character classes, which is all the
    patterns of the scripts need, and no pattern has a group inside its
    lookahead. *)
Module Re.
Import PyStr.

Inductive regex : Type :=
| Str (s : str)                 (* literal text *)
| Cls (p : ascii -> bool)       (* one character of a class *)
| Seq (r1 r2 : regex)           (* r1 r2 *)
| Alt (r1 r2 : regex)           (* r1|r2 *)
| Opt (r : regex)               (* r?   (greedy) *)
| Star (p : ascii -> bool)      (* p*   (greedy), p a character class *)
| StarLazy (p : ascii -> bool)  (* p*?  (lazy) *)
| Group (n : nat) (r : regex)   (* capturing group number n *)
| Look (r : regex)              (* (?=r) *)
| Bos                           (* ^  without MULTILINE *)
| Eol                           (* $  without MULTILINE *)
| Eos.                          (* \Z *)

(** Matcher state: offset in the subject, text still to read, captures. *)
Record mstate : Type := MState {
  pos : nat;
  rest : str;
  caps : list (nat * str)
}.

Definition kont := mstate -> option mstate.

Fixpoint strip_prefix (p s : str) : option str :=
  match p, s with
  | [], _ => Some s
  | a :: p', c :: s' => if Ascii.eqb a c then strip_prefix p' s' else None
  | _ :: _, [] => None
  end.

Definition or_else {A} (x : option A) (y : option A) : option A :=
  match x with
  | Some v => Some v
  | None => y
  end.

(** [p*]: take a character and go on if possible, else stop here; on
    failure of what follows give the character back. *)
Fixpoint star_greedy (p : ascii -> bool) (cs : list (nat * str))
    (n : nat) (s : str) (k : kont) : option mstate :=
  match s with
  | c :: s' =>
      if p c
      then or_else (star_greedy p cs (S n) s' k) (k (MState n s cs))
      else k (MState n s cs)
  | [] => k (MState n s cs)
  end.

(** [p*?]: stop here if what follows matches, else take one character. *)
Fixpoint star_lazy (p : ascii -> bool) (cs : list (nat * str))
    (n : nat) (s : str) (k : kont) : option mstate :=
  match s with
  | c :: s' =>
      or_else (k (MState n s cs))
              (if p c then star_lazy p cs (S n) s' k else None)
  | [] => k (MState n s cs)
  end.

Definition set_group (n : nat) (st st' : mstate) : mstate :=
  MState (pos st') (rest st')
         ((n, firstn (pos st' - pos st) (rest st)) :: caps st').

Fixpoint rmatch (r : regex) (st : mstate) (k : kont) : option mstate :=
  match r with
  | Str s =>
      match strip_prefix s (rest st) with
      | Some s' => k (MState (pos st + length s) s' (caps st))
      | None => None
      end
  | Cls p =>
      match rest st with
      | c :: s' => if p c then k (MState (S (pos st)) s' (caps st)) else None
      | [] => None
      end
  | Seq r1 r2 => rmatch r1 st (fun st' => rmatch r2 st' k)
  | Alt r1 r2 => or_else (rmatch r1 st k) (rmatch r2 st k)
  | Opt r1 => or_else (rmatch r1 st k) (k st)
  | Star p => star_greedy p (caps st) (pos st) (rest st) k
  | StarLazy p => star_lazy p (caps st) (pos st) (rest st) k
  | Group n r1 => rmatch r1 st (fun st' => k (set_group n st st'))
  | Look r1 =>
      match rmatch r1 st Some with
      | Some _ => k st
      | None => None
      end
  | Bos => if pos st =? 0 then k st else None
  | Eol =>
      match rest st with
      | [] => k st
      | [c] => if Ascii.eqb c newline then k st else None
      | _ => None
      end
  | Eos =>
      match rest st with
      | [] => k st
      | _ => None
      end
  end.

(** A match object: where the match starts and the final matcher state. *)
Record match_obj : Type := MatchObj {
  m_start : nat;
  m_final : mstate
}.

Definition m_end (m : match_obj) : nat := pos (m_final m).

Fixpoint assoc (n : nat) (cs : list (nat * str)) : option str :=
  match cs with
  | [] => None
  | (i, s) :: cs' => if i =? n then Some s else assoc n cs'
  end.

(** [m.group(n)] for a group that took part in the match. *)
Definition group (n : nat) (m : match_obj) : str :=
  match assoc n (caps (m_final m)) with
  | Some s => s
  | None => []
  end.

(** [re.match(r, s)] *)
Definition re_match (r : regex) (s : str) : option match_obj :=
  option_map (MatchObj 0) (rmatch r (MState 0 s []) Some).

(** [re.search(r, s)]: the first offset, from [n] on, where [r] matches. *)
Fixpoint search_from (r : regex) (n : nat) (s : str) : option match_obj :=
  match rmatch r (MState n s []) Some with
  | Some st => Some (MatchObj n st)
  | None =>
      match s with
      | [] => None
      | _ :: s' => search_from r (S n) s'
      end
  end.

Definition re_search (r : regex) (s : str) : option match_obj :=
  search_from r 0 s.

(** [r{n}] *)
Fixpoint times (n : nat) (r : regex) : regex :=
  match n with
  | 0 => Str []
  | 1 => r
  | S n' => Seq r (times n' r)
  end.

(** [r1 r2 ... rn] *)
Fixpoint seqs (rs : list regex) : regex :=
  match rs with
  | [] => Str []
  | [r] => r
  | r :: rs' => Seq r (seqs rs')
  end.

End Re.

(** ** parse-accomplishments.py *)
Module Parse.
Import PyStr Re.

(** A [datetime.date]. *)
Record date : Type := Date {
  year : nat;
  month : nat;
  day : nat
}.

Definition date_eqb (a b : date) : bool :=
  (year a =? year b) && (month a =? month b) && (day a =? day b).

Definition is_leap (y : nat) : bool :=
  (y mod 4 =? 0) && (negb (y mod 100 =? 0) || (y mod 400 =? 0)).

Definition days_in_month (y m : nat) : nat :=
  match m with
  | 2 => if is_leap y then 29 else 28
  | 4 | 6 | 9 | 11 => 30
  | _ => 31
  end.

Definition digit_val (c : ascii) : nat := code c - 48.

(** [datetime.strptime(s, '%Y-%m-%d').date()] on the ten-character tokens
    [dddd-dd-dd] that group 1 of the date patterns captures; [None] is
    ValueError: month outside 01..12, day outside the month, year 0000. *)
Definition strptime_ymd (s : str) : option date :=
  match s with
  | [y1; y2; y3; y4; h1; m1; m2; h2; d1; d2] =>
      if forallb is_digit [y1; y2; y3; y4; m1; m2; d1; d2]
         && is_char "-" h1 && is_char "-" h2
      then
        let y := 1000 * digit_val y1 + 100 * digit_val y2
                 + 10 * digit_val y3 + digit_val y4 in
        let m := 10 * digit_val m1 + digit_val m2 in
        let d := 10 * digit_val d1 + digit_val d2 in
        if (1 <=? y) && (1 <=? m) && (m <=? 12)
           && (1 <=? d) && (d <=? days_in_month y m)
        then Some (Date y m d)
        else None
      else None
  | _ => None
  end.

(** One entry of the result list: the dict with keys [project], [date],
    [content] and [details].  The key [date], which holds the token as it
    stands in the file, is the field [date_str]; [content] is what the
    description of the records calls the summary. *)
Record accomplishment : Type := Acc {
  project : str;
  date_str : str;
  content : str;
  details : list str
}.

(** [\d{4}-\d{2}-\d{2}] *)
Definition date_token : regex :=
  seqs [times 4 (Cls is_digit); Str (lit "-");
        times 2 (Cls is_digit); Str (lit "-");
        times 2 (Cls is_digit)].

(** [.+] *)
Definition some_text : regex := Seq (Cls not_newline) (Star not_newline).

(** [^-?\s*(\d{4}-\d{2}-\d{2}):?\s*(.+)$] *)
Definition plain_date_pattern : regex :=
  seqs [Bos; Opt (Str (lit "-")); Star is_space;
        Group 1 date_token;
        Opt (Str (lit ":")); Star is_space; Group 2 some_text; Eol].

(** [^-?\s*\*\*(\d{4}-\d{2}-\d{2})\*\*:?\s*(.+)$] *)
Definition emph_date_pattern : regex :=
  seqs [Bos; Opt (Str (lit "-")); Star is_space;
        Str (lit "**"); Group 1 date_token; Str (lit "**");
        Opt (Str (lit ":")); Star is_space; Group 2 some_text; Eol].

Definition date_patterns : list regex :=
  [plain_date_pattern; emph_date_pattern].

(** [## Recent Accomplishments\s*\n(.*?)(?=\n##|\Z)] with DOTALL *)
Definition recent_section_pattern : regex :=
  seqs [Str (lit "## Recent Accomplishments"); Star is_space;
        Str [newline]; Group 1 (StarLazy any_char);
        Look (Alt (Str (newline :: lit "##")) Eos)].

(** The [for pattern in date_patterns] loop up to its [break]: the match
    of the first pattern that matches. *)
Fixpoint first_match (ps : list regex) (line : str) : option match_obj :=
  match ps with
  | [] => None
  | p :: ps' =>
      match re_match p line with
      | Some m => Some m
      | None => first_match ps' line
      end
  end.

(** The loop variables.  [current_entry] is the dict last appended to
    [accomplishments], held by reference: here its index in the list. *)
Record loop_state : Type := Loop {
  accomplishments : list accomplishment;
  current_entry : option nat
}.

Fixpoint alter_nth (f : accomplishment -> accomplishment) (i : nat)
    (l : list accomplishment) : list accomplishment :=
  match l, i with
  | [], _ => []
  | a :: l', 0 => f a :: l'
  | a :: l', S i' => a :: alter_nth f i' l'
  end.

Definition add_detail (d : str) (a : accomplishment) : accomplishment :=
  Acc (project a) (date_str a) (content a) (details a ++ [d]).

(** The body of [for line in lines]. *)
Definition process_line (project_name : str) (target_date : date)
    (st : loop_state) (raw : str) : loop_state :=
  let line := strip raw in
  if match line with [] => true | _ => false end || startswith (lit "*") line
  then st
  else
    match first_match date_patterns line with
    | Some m =>
        let entry_date_str := group 1 m in
        let entry_content := strip (group 2 m) in
        match strptime_ymd entry_date_str with
        | Some entry_date =>
            if date_eqb entry_date target_date
            then Loop (accomplishments st
                       ++ [Acc project_name entry_date_str entry_content []])
                      (Some (length (accomplishments st)))
            else Loop (accomplishments st) None
        | None => st
        end
    | None =>
        match current_entry st with
        | Some i =>
            if startswith (lit "-") line
            then
              let detail := strip (tl line) in
              match detail with
              | [] => st
              | _ => Loop (alter_nth (add_detail detail) i (accomplishments st))
                          (Some i)
              end
            else st
        | None => st
        end
    end.

Definition process_lines (project_name : str) (target_date : date)
    (st : loop_state) (lines : list str) : loop_state :=
  fold_left (process_line project_name target_date) lines st.

(** [parse_accomplishments] once the file has been read: [content] is its
    text, [project_name] the name of its parent directory. *)
Definition parse_text (project_name : str) (content : str)
    (target_date : date) : list accomplishment :=
  match re_search recent_section_pattern content with
  | None => []
  | Some m =>
      let section_content := group 1 m in
      let lines := split_lines section_content in
      accomplishments
        (process_lines project_name target_date (Loop [] None) lines)
  end.

(** [parse_accomplishments(file_path, target_date)]: [file] is [None] when
    opening or reading the file raises, which the [except] clause turns
    into the empty result. *)
Definition parse_accomplishments (project_name : str) (file : option str)
    (target_date : date) : list accomplishment :=
  match file with
  | Some content => parse_text project_name content target_date
  | None => []
  end.

End Parse.

(** ** update-obsidian-daily.py: rendering and merging text *)
Module Daily.
Import PyStr Re Parse.

(** The dict [projects], in insertion order: [projects[project].append(acc)],
    with a new key added at the end. *)
Fixpoint add_to_project (acc : accomplishment)
    (projects : list (str * list accomplishment))
    : list (str * list accomplishment) :=
  match projects with
  | [] => [(project acc, [acc])]
  | (p, accs) :: projects' =>
      if str_eqb p (project acc)
      then (p, accs ++ [acc]) :: projects'
      else (p, accs) :: add_to_project acc projects'
  end.

Definition group_by_project (accomplishments : list accomplishment)
    : list (str * list accomplishment) :=
  fold_left (fun projects acc => add_to_project acc projects)
            accomplishments [].

(** [sorted(projects.items())]: the keys of a dict are distinct, so the
    pairs are ordered by key alone. *)
Fixpoint insert_item (it : str * list accomplishment)
    (l : list (str * list accomplishment))
    : list (str * list accomplishment) :=
  match l with
  | [] => [it]
  | it' :: l' =>
      if str_ltb (fst it') (fst it)
      then it' :: insert_item it l'
      else it :: l
  end.

Definition sorted_items (items : list (str * list accomplishment))
    : list (str * list accomplishment) :=
  fold_right insert_item [] items.

(** The lines one accomplishment contributes. *)
Definition acc_lines (acc : accomplishment) : list str :=
  (lit "- " ++ content acc)
  :: map (fun detail => lit "  - " ++ detail) (details acc).

(** The lines one project contributes, closing empty line included. *)
Definition project_lines (it : str * list accomplishment) : list str :=
  (lit "### [[" ++ fst it ++ lit "]]")
  :: flat_map acc_lines (snd it) ++ [[]].

Definition no_accomplishments : str :=
  lit "No development accomplishments logged today.".

(** [format_accomplishments_for_obsidian(accomplishments)] *)
Definition format_accomplishments_for_obsidian
    (accomplishments : list accomplishment) : str :=
  match accomplishments with
  | [] => no_accomplishments
  | _ =>
      let lines :=
        flat_map project_lines
                 (sorted_items (group_by_project accomplishments)) in
      strip (join [newline] lines)
  end.

Definition section_header : str := lit "## Development Work".

(** [full_section = f"{section_header}\n\n{section_content}"] *)
Definition full_section (section_content : str) : str :=
  section_header ++ [newline; newline] ++ section_content.

(** [## Development Work\s*\n(.*?)(?=\n##|\Z)] with DOTALL *)
Definition section_pattern : regex :=
  seqs [Str (lit "## Development Work"); Star is_space;
        Str [newline]; Group 1 (StarLazy any_char);
        Look (Alt (Str (newline :: lit "##")) Eos)].

(** The [if daily_note_path.exists()] branch of [update_daily_note], from
    the text read to the text written. *)
Definition update_existing (content : str) (section_content : str) : str :=
  match re_search section_pattern content with
  | Some m =>
      firstn (m_start m) content ++ full_section section_content
      ++ skipn (m_end m) content
  | None =>
      let content :=
        if endswith [newline] content then content
        else content ++ [newline] in
      content ++ [newline] ++ full_section section_content
  end.

End Daily.
(** ** update-obsidian-daily.py: files, configuration and [main]

    The effects of the script are threaded through a [world]: the file
    tree, the module global [OBSIDIAN_VAULT_PATH], the process environment
    and what has been printed.  A computation returns a value or raises. *)
Module Run.
Import PyStr Re Parse Daily.

Definition path := str.

(** What a path names.  [File] holds the text [f.read()] returns. *)
Inductive entry : Type :=
| Dir
| File (text : str).

(** What [print] has been called with. *)
Inductive output : Type :=
| Processing (d : date)
| ShowVault (p : path)
| VaultNotFound (p : path)
| PleaseConfigure
| Gathering
| Found (n : nat)
| NoneFound
| Updating
| UpdatedNote (p : path)
| CreatedNote (p : path)
| Complete.

Record world : Type := World {
  fs : path -> option entry;
  OBSIDIAN_VAULT_PATH : str;
  environ : list (str * str);
  stdout : list output
}.

Inductive exn : Type :=
| ValueError
| JSONDecodeError
| OSError.

Inductive result (A : Type) : Type :=
| Ok (a : A)
| Raise (e : exn).
Arguments Ok {A} a.
Arguments Raise {A} e.

Definition M (A : Type) : Type := world -> result A * world.

Definition ret {A} (a : A) : M A := fun w => (Ok a, w).
Definition raise {A} (e : exn) : M A := fun w => (Raise e, w).
Definition bind {A B} (m : M A) (f : A -> M B) : M B :=
  fun w =>
    match m w with
    | (Ok a, w') => f a w'
    | (Raise e, w') => (Raise e, w')
    end.

Notation "x <- m ;; k" := (bind m (fun x => k))
  (at level 61, m at next level, right associativity).
Notation "m ;;; k" := (bind m (fun _ => k))
  (at level 61, right associativity).

Definition print (o : output) : M unit :=
  fun w => (Ok tt, World (fs w) (OBSIDIAN_VAULT_PATH w) (environ w)
                         (stdout w ++ [o])).

Definition set_fs (p : path) (e : entry) : M unit :=
  fun w => (Ok tt, World (fun q => if str_eqb q p then Some e else fs w q)
                         (OBSIDIAN_VAULT_PATH w) (environ w) (stdout w)).

(** [p.exists()] *)
Definition path_exists (p : path) : M bool :=
  fun w => (Ok (match fs w p with Some _ => true | None => false end), w).

(** [open(p, 'r').read()] *)
Definition read_file (p : path) : M str :=
  fun w =>
    match fs w p with
    | Some (File text) => (Ok text, w)
    | _ => (Raise OSError, w)
    end.

(** [open(p, 'w').write(text)]: the directory of [p] has to exist. *)
Definition write_file (dir p : path) (text : str) : M unit :=
  fun w =>
    match fs w dir, fs w p with
    | Some Dir, Some Dir => (Raise OSError, w)
    | Some Dir, _ => set_fs p (File text) w
    | _, _ => (Raise OSError, w)
    end.

(** [mkdir] of each path in turn: a directory that exists is kept, a
    file in the place of one is an error. *)
Fixpoint mkdirs (ds : list path) : M unit :=
  match ds with
  | [] => ret tt
  | d :: ds' =>
      fun w =>
        match fs w d with
        | Some Dir => mkdirs ds' w
        | Some (File _) => (Raise OSError, w)
        | None => (set_fs d Dir ;;; mkdirs ds') w
        end
  end.

Definition month_names : list str :=
  map lit ["January"; "February"; "March"; "April"; "May"; "June";
           "July"; "August"; "September"; "October"; "November";
           "December"]%string.

Definition digit_char (n : nat) : ascii := ascii_of_nat (48 + n mod 10).

Fixpoint decimal_fuel (fuel n : nat) (acc : str) : str :=
  match fuel with
  | 0 => acc
  | S fuel' =>
      if n <? 10 then digit_char n :: acc
      else decimal_fuel fuel' (n / 10) (digit_char n :: acc)
  end.

(** [str(n)] and the format [{n}] *)
Definition decimal (n : nat) : str := decimal_fuel (S n) n [].

(** The format [{n:02d}] *)
Definition pad2 (n : nat) : str :=
  if n <? 10 then lit "0" ++ decimal n else decimal n.

(** The directory part of [DAILY_NOTE_FORMAT]:
    [Daily Notes/{year}/{month:02d}-{month_name}]. *)
Definition daily_note_dir (d : date) : str :=
  lit "Daily Notes/" ++ decimal (year d) ++ lit "/" ++ pad2 (month d)
  ++ lit "-" ++ nth (month d - 1) month_names [].

(** The file part, with the suffix [get_daily_note_path] adds:
    [{year}-{month:02d}-{day:02d}.md]. *)
Definition daily_note_file (d : date) : str :=
  decimal (year d) ++ lit "-" ++ pad2 (month d) ++ lit "-" ++ pad2 (day d)
  ++ lit ".md".

(** [s.split('/')], with the piece being read in [cur]. *)
Fixpoint split_sep (cur : str) (s : str) : list str :=
  match s with
  | [] => [rev cur]
  | c :: s' =>
      if is_char "/" c then rev cur :: split_sep [] s'
      else split_sep (c :: cur) s'
  end.

(** A path as [pathlib] holds it on POSIX: the root, which is empty, [/]
    or [//], and the names after it. *)
Record pure_path : Type := PurePath {
  path_root : str;
  path_names : list str
}.

(** [splitroot]: the root of a text and the text after its leading
    slashes.  Two leading slashes are a root of their own, one slash or
    three and more are the root [/]. *)
Definition splitroot (part : str) : str * str :=
  match part with
  | c :: _ =>
      if is_char "/" c
      then
        let stripped_part := drop_while (is_char "/") part in
        if length part - length stripped_part =? 2
        then (lit "//", stripped_part)
        else (lit "/", stripped_part)
      else ([], part)
  | [] => ([], part)
  end.

(** A name that stays in a path: not empty and not [.]. *)
Definition is_name (x : str) : bool :=
  negb (str_eqb x []) && negb (str_eqb x (lit ".")).

(** [Path(s)] *)
Definition Path (s : str) : pure_path :=
  let (root, rel) := splitroot s in
  PurePath root (filter is_name (split_sep [] rel)).

(** [p / s] *)
Definition joinpath (p : pure_path) (s : str) : pure_path :=
  let q := Path s in
  match path_root q with
  | [] => PurePath (path_root p) (path_names p ++ path_names q)
  | _ => q
  end.

(** [p.parent] *)
Definition parent (p : pure_path) : pure_path :=
  PurePath (path_root p) (removelast (path_names p)).

(** [str(p)] *)
Definition path_str (p : pure_path) : path :=
  match path_root p ++ join (lit "/") (path_names p) with
  | [] => lit "."
  | s => s
  end.

(** The path and the paths above it that end in a name, outermost
    first. *)
Definition ancestors (p : pure_path) : list path :=
  map (fun k => path_str (PurePath (path_root p) (firstn k (path_names p))))
      (seq 1 (length (path_names p))).

(** [p.mkdir(parents=True, exist_ok=True)] *)
Definition mkdir_p (p : pure_path) : M unit := mkdirs (ancestors p).

(** [str(Path(a) / b)] *)
Definition path_join (a b : path) : path := path_str (joinpath (Path a) b).

(** [get_daily_note_path(target_date)] for the vault root [get_config()]
    returns: the path of the format with [.md] at its end, below
    [Path(vault)]. *)
Definition get_daily_note_path (vault : str) (d : date) : pure_path :=
  joinpath (Path vault) (daily_note_dir d ++ lit "/" ++ daily_note_file d).

(** Days from 0001-01-01 (a Monday) to the date. *)
Definition days_before_year (y : nat) : nat :=
  let p := y - 1 in p * 365 + p / 4 - p / 100 + p / 400.

Fixpoint days_before_month (y m : nat) : nat :=
  match m with
  | 0 => 0
  | S m' => days_before_month y m' + (if m' =? 0 then 0 else days_in_month y m')
  end.

Definition weekday_names : list str :=
  map lit ["Monday"; "Tuesday"; "Wednesday"; "Thursday"; "Friday";
           "Saturday"; "Sunday"]%string.

(** [d.strftime('%A')] *)
Definition weekday (d : date) : str :=
  nth ((days_before_year (year d) + days_before_month (year d) (month d)
        + day d - 1) mod 7) weekday_names [].

(** [d.strftime('%Y-%m-%d')] *)
Definition strftime_ymd (d : date) : str :=
  decimal (year d) ++ lit "-" ++ pad2 (month d) ++ lit "-" ++ pad2 (day d).

Definition nl2 : str := [newline; newline].
Definition nl3 : str := [newline; newline; newline].

(** The text of a new daily note. *)
Definition template (d : date) (section_content : str) : str :=
  lit "# " ++ strftime_ymd d ++ lit " - " ++ weekday d ++ nl2
  ++ lit "## Daily Review" ++ nl2
  ++ lit "### What went well today?" ++ nl3
  ++ lit "### What could be improved?" ++ nl3
  ++ lit "### Tomorrow's priorities" ++ nl3
  ++ full_section section_content ++ nl2
  ++ lit "## Meeting Notes" ++ nl3
  ++ lit "## Other Notes" ++ nl2.

Section Script.

(** Where the script lives: [Path(__file__).parent]. *)
Variable script_dir : path.

(** [json.load] of the configuration file followed by
    [config.get('obsidian_vault_path')]: [None] when the text is not JSON,
    [Some None] when the key is absent. *)
Variable json_vault_path : str -> option (option str).

(** [datetime.strptime(s, '%Y-%m-%d').date()] on a command-line argument;
    [None] is ValueError. *)
Variable strptime_arg : str -> option date.

(** [date.today()] *)
Variable today : date.

(** The subprocess that runs parse-accomplishments.py and hands its
    records back through a temporary JSON file. *)
Variable run_accomplishment_parser : date -> M (list accomplishment).

Definition config_file : path := path_join script_dir (lit "config.json").

(** [get_config()] *)
Definition get_config : M str :=
  e <- path_exists config_file ;;
  if e
  then
    text <- read_file config_file ;;
    match json_vault_path text with
    | Some (Some v) => ret v
    | Some None => fun w => (Ok (OBSIDIAN_VAULT_PATH w), w)
    | None => raise JSONDecodeError
    end
  else fun w => (Ok (OBSIDIAN_VAULT_PATH w), w).

(** What [get_config()] returns, from the file tree and the global. *)
Definition config_result (files : path -> option entry) (global : str)
    : result str :=
  match files config_file with
  | Some (File text) =>
      match json_vault_path text with
      | Some (Some v) => Ok v
      | Some None => Ok global
      | None => Raise JSONDecodeError
      end
  | Some Dir => Raise OSError
  | None => Ok global
  end.

(** [update_daily_note(accomplishments, target_date)] *)
Definition update_daily_note (accomplishments : list accomplishment)
    (target_date : date) : M unit :=
  vault <- get_config ;;
  let daily_note_path := path_str (get_daily_note_path vault target_date) in
  let note_dir := path_str (parent (get_daily_note_path vault target_date)) in
  mkdir_p (parent (get_daily_note_path vault target_date)) ;;;
  let section_content := format_accomplishments_for_obsidian accomplishments in
  e <- path_exists daily_note_path ;;
  if e
  then
    content <- read_file daily_note_path ;;
    write_file note_dir daily_note_path
               (update_existing content section_content) ;;;
    print (UpdatedNote daily_note_path)
  else
    write_file note_dir daily_note_path
               (template target_date section_content) ;;;
    print (CreatedNote daily_note_path).

(** The parsed command line: [--date] and [--vault]. *)
Record args : Type := Args {
  arg_date : option str;
  arg_vault : option str
}.

Definition truthy (o : option str) : option str :=
  match o with
  | Some ((_ :: _) as s) => Some s
  | _ => None
  end.

(** The [if args.vault:] block of [main]: the argument replaces the module
    global and the environment variable. *)
Definition override_vault (a : args) : M unit :=
  match truthy (arg_vault a) with
  | Some v =>
      fun w => (Ok tt, World (fs w) v
                             ((lit "OBSIDIAN_VAULT_PATH", v) :: environ w)
                             (stdout w))
  | None => ret tt
  end.

(** [main()], returning the value the script passes to [sys.exit]. *)
Definition main (a : args) : M nat :=
  override_vault a ;;;
  target_date <-
    match truthy (arg_date a) with
    | Some s =>
        match strptime_arg s with
        | Some d => ret d
        | None => raise ValueError
        end
    | None => ret today
    end ;;
  print (Processing target_date) ;;;
  shown <- get_config ;;
  print (ShowVault shown) ;;;
  vault_path <- get_config ;;
  e <- path_exists vault_path ;;
  if negb e
  then
    print (VaultNotFound vault_path) ;;;
    print PleaseConfigure ;;;
    ret 1
  else
    print Gathering ;;;
    accomplishments <- run_accomplishment_parser target_date ;;
    match accomplishments with
    | [] => print NoneFound
    | _ => print (Found (length accomplishments))
    end ;;;
    print Updating ;;;
    update_daily_note accomplishments target_date ;;;
    print Complete ;;;
    ret 0.

(** The exit status of the process: [sys.exit(main())], and status 1 when
    an exception reaches the top level. *)
Definition exit_status (r : result nat) : nat :=
  match r with
  | Ok n => n
  | Raise _ => 1
  end.

(** The vault root the run is configured with: what [get_config()]
    returns once the [--vault] argument has been stored. *)
Definition configured_vault (a : args) (w : world) : option path :=
  match (override_vault a ;;; get_config) w with
  | (Ok v, _) => Some v
  | (Raise _, _) => None
  end.

End Script.

End Run.

(** ** What the matcher computes, stated without continuations *)
Module Denote.
Import PyStr Re.

(** [steps r st st']: [r] can take the matcher from [st] to [st']. *)
Fixpoint steps (r : regex) (st st' : mstate) : Prop :=
  match r with
  | Str s =>
      rest st = s ++ rest st' /\ pos st' = pos st + length s
      /\ caps st' = caps st
  | Cls p =>
      exists c, p c = true /\ rest st = c :: rest st'
                /\ pos st' = S (pos st) /\ caps st' = caps st
  | Seq r1 r2 => exists mid, steps r1 st mid /\ steps r2 mid st'
  | Alt r1 r2 => steps r1 st st' \/ steps r2 st st'
  | Opt r1 => steps r1 st st' \/ st' = st
  | Star p | StarLazy p =>
      exists w, forallb p w = true /\ rest st = w ++ rest st'
                /\ pos st' = pos st + length w /\ caps st' = caps st
  | Group n r1 => exists mid, steps r1 st mid /\ st' = set_group n st mid
  | Look r1 => st' = st /\ exists x, steps r1 st x
  | Bos => st' = st /\ pos st = 0
  | Eol => st' = st /\ (rest st = [] \/ rest st = [newline])
  | Eos => st' = st /\ rest st = []
  end.

(** Length of the longest prefix of [s] inside the class [p]. *)
Fixpoint run (p : ascii -> bool) (s : str) : nat :=
  match s with
  | c :: s' => if p c then S (run p s') else 0
  | [] => 0
  end.

(** What is left of [s] after [\s*\n]: the text after the last newline of
    the leading run of whitespace. *)
Fixpoint ws_newline (s : str) : option str :=
  match s with
  | c :: s' =>
      if is_space c
      then match ws_newline s' with
           | Some r => Some r
           | None => if Ascii.eqb c newline then Some s' else None
           end
      else None
  | [] => None
  end.

(** The text in front of [(?=\n##|\Z)] taken by [.*?]. *)
Fixpoint until_boundary (s : str) : str :=
  match s with
  | [] => []
  | c :: s' =>
      if startswith (newline :: lit "##") s then []
      else c :: until_boundary s'
  end.

(** The text [\n##] in front of which a section ends. *)
Definition boundary : str := newline :: lit "##".

(** [(?=\n##|\Z)] *)
Definition look_boundary : regex := Look (Alt (Str boundary) Eos).

(** A body fails at a character when it cannot start there. *)
Definition fails_at (body : regex) (c : ascii) : Prop :=
  forall n s cs, rmatch body (MState n (c :: s) cs) Some = None.

(** [heading\s*\n(.*?)(?=\n##|\Z)] *)
Definition section_regex (heading : str) : regex :=
  seqs [Str heading; Star is_space; Str [newline];
        Group 1 (StarLazy any_char);
        Look (Alt (Str (newline :: lit "##")) Eos)].

(** The match of [section_regex] that starts at the head of [s]: group 1
    and the length of the whole match. *)
Definition section_at (heading s : str) : option (str * nat) :=
  match strip_prefix heading s with
  | Some s1 =>
      match ws_newline s1 with
      | Some r =>
          let g := until_boundary r in
          Some (g, length s - length r + length g)
      | None => None
      end
  | None => None
  end.

(** The first match of [section_regex] in [s], whose head is at offset [n]
    of the subject. *)
Fixpoint find_section (heading : str) (n : nat) (s : str)
    : option match_obj :=
  match section_at heading s with
  | Some (g, len) => Some (MatchObj n (MState (n + len) (skipn len s) [(1, g)]))
  | None =>
      match s with
      | [] => None
      | _ :: s' => find_section heading (S n) s'
      end
  end.

(** [:?\s*(.+)$] *)
Definition tail_regex : regex :=
  seqs [Opt (Str (lit ":")); Star is_space; Group 2 Parse.some_text; Eol].

(** Group 2 of [tail_regex] on a text without newline that does not end
    in whitespace. *)
Definition summary_of_tail (t : str) : option str :=
  match t with
  | [] => None
  | c :: t' =>
      if is_char ":" c
      then match t' with
           | [] => Some t
           | _ => Some (lstrip t')
           end
      else Some (lstrip t)
  end.

(** A date token [dddd-dd-dd] with the given digits. *)
Definition token (y1 y2 y3 y4 m1 m2 d1 d2 : ascii) : str :=
  [y1; y2; y3; y4; "-"%char; m1; m2; "-"%char; d1; d2].

(** The two date patterns without their common tail. *)
Definition plain_body (tail : regex) : regex :=
  Seq (Group 1 Parse.date_token) tail.

Definition emph_body (tail : regex) : regex :=
  Seq (Str (lit "**"))
      (Seq (Group 1 Parse.date_token) (Seq (Str (lit "**")) tail)).

(** [^-?\s*] in front of [body]. *)
Definition with_prefix (body : regex) : regex :=
  Seq Bos (Seq (Opt (Str (lit "-"))) (Seq (Star is_space) body)).

Definition no_newline (s : str) : Prop := forallb not_newline s = true.

(** [s] is empty or its last character is not whitespace. *)
Definition rstripped (s : str) : Prop :=
  match rev s with
  | [] => True
  | c :: _ => is_space c = false
  end.

(** [current_entry], when set, refers to the last record of the list. *)
Definition wf_state (st : Parse.loop_state) : Prop :=
  match Parse.current_entry st with
  | Some i => S i = length (Parse.accomplishments st)
  | None => True
  end.

(** A line that is blank or begins, after its indentation, with a
    character other than a dash and a digit. *)
Definition quiet (raw : str) : bool :=
  match strip raw with
  | [] => true
  | c :: _ => negb (is_char "-" c) && negb (is_digit c)
  end.

(** The summary of a record is not empty once trimmed. *)
Definition has_summary (a : Parse.accomplishment) : Prop :=
  strip (Parse.content a) <> [].

(** Whether a section line reaches the date patterns and matches one of
    them, and if so the calendar date its token names, if any. *)
Definition marker_date (raw : str) : option (option Parse.date) :=
  let line := strip raw in
  if match line with [] => true | _ => false end
     || startswith (lit "*") line
  then None
  else option_map (fun m => Parse.strptime_ymd (group 1 m))
                  (Parse.first_match Parse.date_patterns line).

(** The records present when [marker] is read come out of the rest of the
    section as they were: no later line adds a detail to them. *)
Definition closes_previous (project_name : str) (target_date : Parse.date)
    (before : list str) (marker : str) (after : list str) : Prop :=
  let st1 :=
    Parse.process_lines project_name target_date (Parse.Loop [] None) before in
  let final :=
    Parse.process_lines project_name target_date (Parse.Loop [] None)
                        (before ++ marker :: after) in
  firstn (length (Parse.accomplishments st1)) (Parse.accomplishments final)
  = Parse.accomplishments st1.

(** The first [k] records are out of reach of [current_entry]. *)
Definition frozen (k : nat) (st : Parse.loop_state) : Prop :=
  k <= length (Parse.accomplishments st)
  /\ forall i, Parse.current_entry st = Some i -> k <= i.

(** What a date line does to the loop state, given the token and the
    summary its pattern captured. *)
Definition date_step (project_name : str) (target_date : Parse.date)
    (st : Parse.loop_state) (tok g : str) : Parse.loop_state :=
  match Parse.strptime_ymd tok with
  | Some d =>
      if Parse.date_eqb d target_date
      then Parse.Loop (Parse.accomplishments st
                       ++ [Parse.Acc project_name tok (strip g) []])
                      (Some (length (Parse.accomplishments st)))
      else Parse.Loop (Parse.accomplishments st) None
  | None => st
  end.

(** What a detail line does to the loop state. *)
Definition detail_step (st : Parse.loop_state) (d : str) : Parse.loop_state :=
  match Parse.current_entry st with
  | Some i =>
      Parse.Loop (Parse.alter_nth (Parse.add_detail d) i
                                  (Parse.accomplishments st)) (Some i)
  | None => st
  end.

(** The newline character as a one-character string literal. *)
Definition nl : string := String newline EmptyString.

(** Group 1 of the first match of [section_regex] in [s]. *)
Fixpoint section_body (heading s : str) : option str :=
  match section_at heading s with
  | Some (g, _) => Some g
  | None =>
      match s with
      | [] => None
      | _ :: s' => section_body heading s'
      end
  end.

(** Some suffix of [s] starts with the boundary [\n##]. *)
Fixpoint has_boundary (s : str) : bool :=
  match s with
  | [] => false
  | _ :: s' => startswith (newline :: lit "##") s || has_boundary s'
  end.

(** [s] is empty or ends with a newline: a line can start after it. *)
Definition line_start (s : str) : Prop :=
  s = [] \/ exists s0, s = s0 ++ [newline].

(** [s] is empty or starts with a newline: a line can end before it. *)
Definition line_end (s : str) : Prop :=
  s = [] \/ exists s0, s = newline :: s0.

(** The two results are the same, or the same around the two lines. *)
Definition same_but_line (l1 l2 : str) (o1 o2 : option str) : Prop :=
  o1 = o2
  \/ exists q u, line_start q /\ line_end u
                 /\ o1 = Some (q ++ l1 ++ u) /\ o2 = Some (q ++ l2 ++ u).

(** The lines of a text, a final newline ending the last line rather than
    starting an empty one ([str.splitlines] for the separator [\n]). *)
Definition drop_final_empty (ls : list str) : list str :=
  match last ls (lit "x") with
  | [] => removelast ls
  | _ => ls
  end.

Definition text_lines (s : str) : list str :=
  drop_final_empty (split_lines s).

(** *** The rendering, in the words of its description *)

Definition heading_line (p : str) : str := lit "### [[" ++ p ++ lit "]]".

Definition summary_line (a : Parse.accomplishment) : str :=
  lit "- " ++ Parse.content a.

Definition detail_line (d : str) : str := lit "  - " ++ d.

(** The records of project [p], in their order. *)
Definition records_of (accs : list Parse.accomplishment) (p : str)
    : list Parse.accomplishment :=
  filter (fun a => str_eqb (Parse.project a) p) accs.

(** The group of project [p]: its heading line, then for each of its
    records the summary line and one nested line per detail. *)
Definition project_block (accs : list Parse.accomplishment) (p : str)
    : list str :=
  heading_line p
  :: flat_map (fun a => summary_line a :: map detail_line (Parse.details a))
              (records_of accs p).

(** Groups of lines with one blank line between consecutive groups. *)
Fixpoint blank_separated (blocks : list (list str)) : list str :=
  match blocks with
  | [] => []
  | [b] => b
  | b :: bs => b ++ [] :: blank_separated bs
  end.

(** The rendering of the records for the projects [ps]. *)
Definition render_groups (accs : list Parse.accomplishment) (ps : list str)
    : str :=
  join [newline] (blank_separated (map (project_block accs) ps)).

Definition str_lt (a b : str) : Prop := str_ltb a b = true.

(** A text as extraction leaves it: not empty, no whitespace at its
    end. *)
Definition trimmed (s : str) : Prop := s <> [] /\ rstripped s.

Definition trimmed_record (a : Parse.accomplishment) : Prop :=
  trimmed (Parse.content a) /\ Forall trimmed (Parse.details a).

(** The dict [projects] after the records [seen]: distinct keys, each with
    the records of that project, and a key for every record. *)
Definition grouped (seen : list Parse.accomplishment)
    (projects : list (str * list Parse.accomplishment)) : Prop :=
  NoDup (map fst projects)
  /\ (forall p l, In (p, l) projects -> l = records_of seen p /\ l <> [])
  /\ (forall a, In a seen -> In (Parse.project a) (map fst projects)).

(** The order of [sorted]: by project name. *)
Definition by_key (x y : str * list Parse.accomplishment) : Prop :=
  str_lt (fst x) (fst y).

(** A list of lines whose last line is not empty and does not end in
    whitespace. *)
Definition ends_trimmed (ls : list str) : Prop :=
  exists ls' l, ls = ls' ++ [l] /\ trimmed l.

(** The section search finds no match that starts inside [pre], in the
    text [pre ++ rest]. *)
Definition no_match_before (heading pre rest : str) : bool :=
  forallb (fun i => match section_at heading (skipn i (pre ++ rest)) with
                    | Some _ => false
                    | None => true
                    end)
          (seq 0 (length pre)).

(** The line is a date line for the target date: it opens a record. *)
Definition opens_record (target_date : Parse.date) (raw : str) : bool :=
  match marker_date raw with
  | Some (Some d) => Parse.date_eqb d target_date
  | _ => false
  end.

(** The line is a date line with a calendar date: it closes what was
    open. *)
Definition closes_record (raw : str) : bool :=
  match marker_date raw with
  | Some (Some _) => true
  | _ => false
  end.

(** The line is a detail line: it reaches the date patterns, matches none,
    starts with a dash and has text after it. *)
Definition detail_shaped (raw : str) : bool :=
  let line := strip raw in
  match line with
  | [] => false
  | _ =>
      negb (startswith (lit "*") line)
      && match Parse.first_match Parse.date_patterns line with
         | Some _ => false
         | None =>
             startswith (lit "-") line
             && match strip (tl line) with [] => false | _ => true end
         end
  end.

(** No detail line comes before the first date line with a calendar
    date. *)
Fixpoint no_detail_until_closed (lines : list str) : bool :=
  match lines with
  | [] => true
  | l :: lines' =>
      closes_record l
      || (negb (detail_shaped l) && no_detail_until_closed lines')
  end.

(** What is looked at in a match object: start, end and group 1. *)
Definition span_group1 (o : option match_obj) : option (nat * nat * str) :=
  option_map (fun m => (m_start m, m_end m, group 1 m)) o.

(** The date token and the summary a line gives, when a pattern matches. *)
Definition date_groups (line : str) : option (str * str) :=
  option_map (fun m => (group 1 m, group 2 m))
             (Parse.first_match Parse.date_patterns line).

(** A character given by its code point. *)
Definition chr (n : nat) : str := [ascii_of_nat n].

End Denote.

(** ** parse-accomplishments.py: the files, the run and the display *)
Module Collect.
Import PyStr Re Parse Daily.

(** A directory as [os.walk] lists it: the entries that are not
    directories and the entries that are.  A file entry holds the text
    [f.read()] returns, or [None] when opening or reading it raises.  A
    directory entry holds the directory, or [None] when the walk does not
    go into it (a symbolic link to a directory, or a directory whose
    listing fails). *)
#[local] Unset Elimination Schemes.
Inductive tree : Type :=
| Node (filenames : list (str * option str))
       (dirnames : list (str * option tree)).
#[local] Set Elimination Schemes.

(** The filter of [dirnames[:] = [d for d in dirnames if ...]]. *)
Definition kept (d : str) : bool :=
  negb (startswith (lit ".") d)
  && negb (str_eqb d (lit "automation-scripts")).

(** ['CLAUDE.md' in filenames] *)
Definition listed (name : str) (filenames : list (str * option str)) : bool :=
  existsb (fun f => str_eqb (fst f) name) filenames.

(** The loop over [os.walk(root_dir)]: [dirpath] is the list of directory
    names that leads from [root_dir] to the directory visited, so that
    [dirpath != root_dir] is [dirpath <> []].  A directory is visited
    before the directories below it, and those in the order of the pruned
    [dirnames]. *)
Fixpoint walk_from (dirpath : list str) (t : tree) : list (list str) :=
  match t with
  | Node filenames dirnames =>
      (if listed (lit "CLAUDE.md") filenames
          && match dirpath with [] => false | _ => true end
       then [dirpath ++ [lit "CLAUDE.md"]]
       else [])
      ++ flat_map
           (fun d : str * option tree =>
              let (name, sub) := d in
              if kept name
              then match sub with
                   | Some t' => walk_from (dirpath ++ [name]) t'
                   | None => []
                   end
              else [])
           dirnames
  end.

(** [find_claude_md_files(root_dir)]: the paths found, each as the names
    below [root_dir].  [None] is a root that cannot be listed. *)
Definition find_claude_md_files (root_dir : option tree) : list (list str) :=
  match root_dir with
  | Some t => walk_from [] t
  | None => []
  end.

(** The text of the file a listing holds under [name]. *)
Fixpoint file_text (name : str) (filenames : list (str * option str))
    : option str :=
  match filenames with
  | [] => None
  | (n, text) :: rest => if str_eqb n name then text else file_text name rest
  end.

(** [open(file_path, 'r').read()] for a path below the root; [None] when
    it raises. *)
Fixpoint read_below (t : tree) (file_path : list str) : option str :=
  match t with
  | Node filenames dirnames =>
      match file_path with
      | [] => None
      | [name] => file_text name filenames
      | d :: rest =>
          (fix enter (ds : list (str * option tree)) : option str :=
             match ds with
             | [] => None
             | (n, sub) :: ds' =>
                 if str_eqb n d
                 then match sub with
                      | Some t' => read_below t' rest
                      | None => None
                      end
                 else enter ds'
             end) dirnames
      end
  end.

(** [file_path.parent.name] *)
Definition parent_name (file_path : list str) : str :=
  last (removelast file_path) [].

(** The loop of [main] over the files found: what [main] returns and
    hands to [save_to_json]. *)
Definition all_accomplishments (root_dir : option tree) (target_date : date)
    : list accomplishment :=
  flat_map
    (fun file_path =>
       parse_accomplishments
         (parent_name file_path)
         (match root_dir with
          | Some t => read_below t file_path
          | None => None
          end)
         target_date)
    (find_claude_md_files root_dir).

(** The lines one project contributes to the display. *)
Definition display_lines (it : str * list accomplishment) : list str :=
  (newline :: lit "## " ++ fst it) :: flat_map acc_lines (snd it).

Definition nothing_found : str := lit "No accomplishments found for today.".

(** [format_accomplishments(all_accomplishments)]: the [defaultdict] is
    filled and sorted as the dict of the daily note is. *)
Definition format_accomplishments
    (all_accomplishments : list accomplishment) : str :=
  match all_accomplishments with
  | [] => nothing_found
  | _ =>
      join [newline]
           (flat_map display_lines
                     (sorted_items (group_by_project all_accomplishments)))
  end.

End Collect.

(** ** update-project-claudemd.py: the text of an updated log file *)
Module Claudemd.
Import PyStr Parse.

(** [p in s] on strings. *)
Fixpoint contains (p s : str) : bool :=
  startswith p s
  || match s with
     | [] => false
     | _ :: s' => contains p s'
     end.

Definition quote : str := [ascii_of_nat 34].

(** [ACCOMPLISHMENT_SECTION.format(date=today)] *)
Definition ACCOMPLISHMENT_SECTION (today : str) : str :=
  lit "## Recent Accomplishments" ++ [newline; newline]
  ++ lit "*Log major tasks, features, and fixes with timestamps for daily log automation*"
  ++ [newline; newline]
  ++ lit "- " ++ today
  ++ lit ": Added accomplishment logging framework to CLAUDE.md"
  ++ [newline].

Definition GUIDELINES_SECTION : str :=
  lit "## Accomplishment Logging Guidelines" ++ [newline; newline]
  ++ lit "When working on this project, Claude Code should update the "
  ++ quote ++ lit "Recent Accomplishments" ++ quote ++ lit " section with:"
  ++ [newline]
  ++ lit "- Date in YYYY-MM-DD format" ++ [newline]
  ++ lit "- Brief description of what was accomplished" ++ [newline]
  ++ lit "- File references when relevant (e.g., " ++ quote
  ++ lit "Fixed bug in parser.py:45" ++ quote ++ lit ")" ++ [newline]
  ++ lit "- Commit hashes for significant changes" ++ [newline]
  ++ lit "- Deployment or release information" ++ [newline].

(** [has_accomplishment_section(content)] *)
Definition has_accomplishment_section (content : str) : bool :=
  contains (lit "## Recent Accomplishments") content.

(** The [for i, line in enumerate(lines)] loop: the index of the first
    line after the fourth that starts with [## ], if there is one. *)
Fixpoint first_heading (i : nat) (lines : list str) : option nat :=
  match lines with
  | [] => None
  | line :: lines' =>
      if startswith (lit "## ") line && (3 <? i) then Some i
      else first_heading (S i) lines'
  end.

Definition insert_index (lines : list str) : nat :=
  match first_heading 0 lines with
  | Some i => i
  | None => length lines
  end.

(** [update_claude_md(file_path)], from the text read to the text written;
    [None] when the file has the section already and is left as it is.
    [today] is [datetime.now().strftime('%Y-%m-%d')]. *)
Definition update_text (today : str) (content : str) : option str :=
  if has_accomplishment_section content then None
  else
    let lines := split_lines content in
    let insert_index := insert_index lines in
    let new_content :=
      firstn insert_index lines
      ++ [[]] ++ [ACCOMPLISHMENT_SECTION today]
      ++ skipn insert_index lines in
    let new_content :=
      if negb (contains (lit "## Accomplishment Logging Guidelines") content)
      then new_content ++ [[]] ++ [GUIDELINES_SECTION]
      else new_content in
    Some (join [newline] new_content).

End Claudemd.

(** ** Further notions the statements are written with *)
Module Terms.
Import PyStr Re Parse Daily Collect Denote.

(** A record without its details. *)
Definition headline (a : accomplishment) : accomplishment :=
  Acc (project a) (date_str a) (content a) [].

(** The record a section line opens when it is a date line for the target
    date: its token and its trimmed summary. *)
Definition opened_by (project_name : str) (target_date : date) (raw : str)
    : list accomplishment :=
  if opens_record target_date raw
  then match first_match date_patterns (strip raw) with
       | Some m => [Acc project_name (group 1 m) (strip (group 2 m)) []]
       | None => []
       end
  else [].

(** The lines of project [p] in the display: an empty line and the name
    in one entry, then the lines of its records. *)
Definition display_block (accs : list accomplishment) (p : str) : list str :=
  (newline :: lit "## " ++ p)
  :: flat_map (fun a => summary_line a :: map detail_line (details a))
              (records_of accs p).

(** A text that fills one line as it stands: not empty, no newline, no
    whitespace at either end. *)
Definition one_line (s : str) : Prop :=
  s <> [] /\ no_newline s /\ strip s = s.

Definition one_line_record (a : accomplishment) : Prop :=
  one_line (content a) /\ Forall one_line (details a).

(** Whether there is a result. *)
Definition found {A} (o : option A) : bool :=
  match o with Some _ => true | None => false end.

(** What [sep.join] puts after the parts that come in front of [l]. *)
Definition joined_after (sep : str) (l : list str) : str :=
  match l with
  | [] => []
  | _ => sep ++ join sep l
  end.

(** What [update_claude_md] puts at the end of the file: the guidelines,
    after an empty line, if the file had none. *)
Definition guidelines_text (content : str) : str :=
  if negb (Claudemd.contains (lit "## Accomplishment Logging Guidelines")
                             content)
  then [newline; newline] ++ Claudemd.GUIDELINES_SECTION
  else [].

(** The line under the heading of the section written, and the summary
    of its entry. *)
Definition note_line : str :=
  lit "*Log major tasks, features, and fixes with timestamps for daily log automation*".

Definition entry_text : str :=
  lit "Added accomplishment logging framework to CLAUDE.md".

(** No end of [h] is a start of [h]: two occurrences of [h] in a text do
    not overlap. *)
Definition unbordered (h : str) : bool :=
  forallb (fun k => negb (startswith (skipn k h) h)) (seq 1 (length h - 1)).

(** The number a sequence of digits writes. *)
Definition num (s : str) : nat :=
  fold_left (fun a c => 10 * a + digit_val c) s 0.

(** A calendar date with a year of four digits. *)
Definition calendar_date (d : date) : Prop :=
  1000 <= year d < 10 * 1000
  /\ 1 <= month d <= 12
  /\ 1 <= day d <= days_in_month (year d) (month d).

(** The text of [get_daily_note_path(target_date)] for the vault root
    that [get_config()] returns, and of its [parent]. *)
Definition daily_note_path (vault : str) (d : date) : str :=
  Run.path_str (Run.get_daily_note_path vault d).

Definition daily_note_folder (vault : str) (d : date) : str :=
  Run.path_str (Run.parent (Run.get_daily_note_path vault d)).

(** A text without a slash: one piece of [split('/')]. *)
Definition no_slash (s : str) : bool :=
  forallb (fun c => negb (is_char "/" c)) s.

(** Names with a slash after each. *)
Definition slashed (names : list str) : str :=
  match names with
  | [] => []
  | _ => join (lit "/") names ++ lit "/"
  end.

(** What [str(Path(vault) / rel)] holds in front of a relative path
    [rel]: the root and the names of the vault, each name with a slash
    after it. *)
Definition anchor (vault : str) : str :=
  Run.path_root (Run.Path vault) ++ slashed (Run.path_names (Run.Path vault)).

(** The directories [update_daily_note] makes sure of: the parent of the
    path of the note and the paths above it, outermost first. *)
Definition note_folders (vault : str) (d : date) : list str :=
  Run.ancestors (Run.parent (Run.get_daily_note_path vault d)).

(** The names that the format of the daily note puts after the vault
    root: three directories and the file. *)
Definition note_names (d : date) : list str :=
  [lit "Daily Notes"; Run.decimal (year d);
   Run.pad2 (month d) ++ lit "-" ++ nth (month d - 1) Run.month_names [];
   Run.daily_note_file d].

(** The directory [t'] is reached from [t] through the directories named
    in turn, each of which the walk can go into. *)
Inductive reaches : tree -> list str -> tree -> Prop :=
| reaches_here t : reaches t [] t
| reaches_down filenames dirnames d t' path t'' :
    In (d, Some t') dirnames ->
    reaches t' path t'' ->
    reaches (Node filenames dirnames) (d :: path) t''.

(** The files of a directory, as listed. *)
Definition files_of (t : tree) : list (str * option str) :=
  match t with Node filenames _ => filenames end.

End Terms.

(** ** The records on their way from one script to the other

    [save_to_json] writes the records with [json.dump(..., indent=2)] and
    [parse_accomplishments_from_json] reads them with [json.load].  The
    fragment of the [json] module below is what the two calls use: the
    encoder on strings, lists and dicts, and the decoder on any text.  A
    number is kept as the text that writes it, and an object as the pairs
    read, in their order; the dict Python makes of them holds, for a key
    given twice, the later value. *)
Module Json.
Import PyStr Parse.

#[local] Unset Elimination Schemes.
Inductive value : Type :=
| Null
| Bool (b : bool)
| Number (text : str)
| String (s : str)
| Array (items : list value)
| Object (pairs : list (str * value)).
#[local] Set Elimination Schemes.

Definition quote : ascii := ascii_of_nat 34.
Definition backslash : ascii := ascii_of_nat 92.

Definition hex_digit (n : nat) : ascii :=
  nth n (lit "0123456789abcdef") "0"%char.

(** One character inside a string, with [ensure_ascii]: the short escapes,
    the printable ASCII characters as they are, and [\u00xx] for the
    rest. *)
Definition escape (c : ascii) : str :=
  let n := code c in
  if n =? 34 then [backslash; quote]
  else if n =? 92 then [backslash; backslash]
  else if n =? 10 then [backslash; "n"%char]
  else if n =? 13 then [backslash; "r"%char]
  else if n =? 9 then [backslash; "t"%char]
  else if n =? 8 then [backslash; "b"%char]
  else if n =? 12 then [backslash; "f"%char]
  else if (32 <=? n) && (n <=? 126) then [c]
  else [backslash; "u"%char; "0"%char; "0"%char;
        hex_digit (n / 16); hex_digit (n mod 16)].

Definition encode_string (s : str) : str :=
  quote :: flat_map escape s ++ [quote].

(** A newline and the indentation of a nesting level, for [indent=2]. *)
Definition newline_indent (level : nat) : str :=
  newline :: repeat " "%char (2 * level).

(** [json.dumps(v, indent=2)] at a nesting level. *)
Fixpoint encode (level : nat) (v : value) : str :=
  match v with
  | Null => lit "null"
  | Bool true => lit "true"
  | Bool false => lit "false"
  | Number text => text
  | String s => encode_string s
  | Array [] => lit "[]"
  | Array items =>
      lit "[" ++ newline_indent (S level)
      ++ join (lit "," ++ newline_indent (S level))
              (map (encode (S level)) items)
      ++ newline_indent level ++ lit "]"
  | Object [] => lit "{}"
  | Object pairs =>
      lit "{" ++ newline_indent (S level)
      ++ join (lit "," ++ newline_indent (S level))
              (map (fun kv : str * value =>
                      let (k, v') := kv in
                      encode_string k ++ lit ": " ++ encode (S level) v')
                   pairs)
      ++ newline_indent level ++ lit "}"
  end.

Definition dumps (v : value) : str := encode 0 v.

(** What a decoding step gives: a result and the text after it, a
    JSONDecodeError, a text this development does not follow further (it
    names a code point above 255, or an integer of more than 4300 digits),
    or no result for lack of fuel. *)
Inductive outcome (A : Type) : Type :=
| Done (a : A) (rest : str)
| Malformed
| Beyond
| OutOfFuel.
Arguments Done {A} a rest.
Arguments Malformed {A}.
Arguments Beyond {A}.
Arguments OutOfFuel {A}.

(** The whitespace of JSON: space, tab, newline, carriage return. *)
Definition is_ws (c : ascii) : bool :=
  let n := code c in (n =? 32) || (n =? 9) || (n =? 10) || (n =? 13).

Definition skip_ws (s : str) : str := drop_while is_ws s.

Definition hex_val (c : ascii) : option nat :=
  let n := code c in
  if (48 <=? n) && (n <=? 57) then Some (n - 48)
  else if (97 <=? n) && (n <=? 102) then Some (n - 87)
  else if (65 <=? n) && (n <=? 70) then Some (n - 55)
  else None.

(** Where the scan of a string stands: in plain text, after a backslash,
    or inside [\uXXXX] with some digits still to come. *)
Inductive string_state : Type :=
| Plain
| Escaped
| Unicode (digits_left : nat) (so_far : nat).

(** The character a short escape stands for. *)
Definition short_escape (c : ascii) : option ascii :=
  let n := code c in
  if n =? 34 then Some quote
  else if n =? 92 then Some backslash
  else if n =? 47 then Some "/"%char
  else if n =? 98 then Some (ascii_of_nat 8)
  else if n =? 102 then Some (ascii_of_nat 12)
  else if n =? 110 then Some newline
  else if n =? 114 then Some (ascii_of_nat 13)
  else if n =? 116 then Some (ascii_of_nat 9)
  else None.

(** [scanstring] in strict mode, from after the opening quote; [out] holds
    the characters read, last first. *)
Fixpoint scanstring (st : string_state) (out : str) (s : str)
    : outcome str :=
  match s with
  | [] => Malformed
  | c :: s' =>
      match st with
      | Plain =>
          if Ascii.eqb c quote then Done (rev out) s'
          else if Ascii.eqb c backslash then scanstring Escaped out s'
          else if code c <? 32 then Malformed
          else scanstring Plain (c :: out) s'
      | Escaped =>
          if Ascii.eqb c "u" then scanstring (Unicode 4 0) out s'
          else match short_escape c with
               | Some x => scanstring Plain (x :: out) s'
               | None => Malformed
               end
      | Unicode digits_left so_far =>
          match hex_val c with
          | None => Malformed
          | Some h =>
              let n := 16 * so_far + h in
              match digits_left with
              | 0 | 1 =>
                  if n <? 256
                  then scanstring Plain (ascii_of_nat n :: out) s'
                  else Beyond
              | S k => scanstring (Unicode k n) out s'
              end
          end
      end
  end.

(** The leading characters of a class, and the rest. *)
Fixpoint span (p : ascii -> bool) (s : str) : str * str :=
  match s with
  | c :: s' =>
      if p c then let (a, b) := span p s' in (c :: a, b) else ([], s)
  | [] => ([], [])
  end.

(** The match of [NUMBER_RE] at the start of a text: an optional minus
    sign, then a zero or a digit from 1 to 9 with any digits after it, then
    if they are there a point with digits and an exponent with digits; the
    text matched and the text after it. *)
Definition lex_number (s : str) : option (str * str) :=
  let (sign, s1) :=
    match s with
    | c :: s' => if Ascii.eqb c "-" then ([c], s') else ([], s)
    | [] => ([], s)
    end in
  match s1 with
  | d :: s2 =>
      if is_digit d
      then
        let (int_rest, s3) :=
          if Ascii.eqb d "0" then ([], s2) else span is_digit s2 in
        let (frac, s4) :=
          match s3 with
          | c :: s' =>
              if Ascii.eqb c "."
              then match span is_digit s' with
                   | ([], _) => ([], s3)
                   | (ds, r) => (c :: ds, r)
                   end
              else ([], s3)
          | [] => ([], s3)
          end in
        let (expo, s5) :=
          match s4 with
          | c :: s' =>
              if Ascii.eqb c "e" || Ascii.eqb c "E"
              then
                let (sg, s'') :=
                  match s' with
                  | x :: r =>
                      if Ascii.eqb x "+" || Ascii.eqb x "-"
                      then ([x], r) else ([], s')
                  | [] => ([], s')
                  end in
                match span is_digit s'' with
                | ([], _) => ([], s4)
                | (ds, r) => (c :: sg ++ ds, r)
                end
              else ([], s4)
          | [] => ([], s4)
          end in
        Some (sign ++ d :: int_rest ++ frac ++ expo, s5)
      else None
  | [] => None
  end.

(** An integer of more digits than [int] takes. *)
Definition too_long (text : str) : bool :=
  forallb (fun c => is_digit c || Ascii.eqb c "-") text
  && (4300 <? length (filter is_digit text)).

(** The words [scan_once] knows, each with its value. *)
Definition words : list (str * value) :=
  [(lit "null", Null); (lit "true", Bool true); (lit "false", Bool false);
   (lit "NaN", Number (lit "NaN"));
   (lit "Infinity", Number (lit "Infinity"));
   (lit "-Infinity", Number (lit "-Infinity"))].

Fixpoint scan_word (ws : list (str * value)) (s : str) : outcome value :=
  match ws with
  | [] => Malformed
  | (w, v) :: ws' =>
      match Re.strip_prefix w s with
      | Some rest => Done v rest
      | None => scan_word ws' s
      end
  end.

(** [scan_once], [JSONArray] after its first value is due and
    [JSONObject] after the opening quote of a key, with the values or
    pairs read so far, last first. *)
Fixpoint scan_once (fuel : nat) (s : str) : outcome value :=
  match fuel with
  | 0 => OutOfFuel
  | S fuel' =>
      match s with
      | [] => Malformed
      | c :: s' =>
          if Ascii.eqb c quote
          then match scanstring Plain [] s' with
               | Done x rest => Done (String x) rest
               | Malformed => Malformed
               | Beyond => Beyond
               | OutOfFuel => OutOfFuel
               end
          else if Ascii.eqb c "{"
          then match skip_ws s' with
               | x :: rest =>
                   if Ascii.eqb x "}" then Done (Object []) rest
                   else if Ascii.eqb x quote then object_pairs fuel' rest []
                   else Malformed
               | [] => Malformed
               end
          else if Ascii.eqb c "["
          then match skip_ws s' with
               | x :: rest =>
                   if Ascii.eqb x "]" then Done (Array []) rest
                   else array_items fuel' (x :: rest) []
               | [] => Malformed
               end
          else match lex_number s with
               | Some (text, rest) =>
                   if too_long text then Beyond else Done (Number text) rest
               | None => scan_word words s
               end
      end
  end

with array_items (fuel : nat) (s : str) (seen : list value)
    : outcome value :=
  match fuel with
  | 0 => OutOfFuel
  | S fuel' =>
      match scan_once fuel' s with
      | Done v rest =>
          match skip_ws rest with
          | x :: rest' =>
              if Ascii.eqb x "]" then Done (Array (rev (v :: seen))) rest'
              else if Ascii.eqb x ","
              then array_items fuel' (skip_ws rest') (v :: seen)
              else Malformed
          | [] => Malformed
          end
      | Malformed => Malformed
      | Beyond => Beyond
      | OutOfFuel => OutOfFuel
      end
  end

with object_pairs (fuel : nat) (s : str) (seen : list (str * value))
    : outcome value :=
  match fuel with
  | 0 => OutOfFuel
  | S fuel' =>
      match scanstring Plain [] s with
      | Done key rest =>
          match skip_ws rest with
          | x :: rest1 =>
              if Ascii.eqb x ":"
              then
                match scan_once fuel' (skip_ws rest1) with
                | Done v rest2 =>
                    match skip_ws rest2 with
                    | y :: rest3 =>
                        if Ascii.eqb y "}"
                        then Done (Object (rev ((key, v) :: seen))) rest3
                        else if Ascii.eqb y ","
                        then match skip_ws rest3 with
                             | z :: rest4 =>
                                 if Ascii.eqb z quote
                                 then object_pairs fuel' rest4
                                                   ((key, v) :: seen)
                                 else Malformed
                             | [] => Malformed
                             end
                        else Malformed
                    | [] => Malformed
                    end
                | Malformed => Malformed
                | Beyond => Beyond
                | OutOfFuel => OutOfFuel
                end
              else Malformed
          | [] => Malformed
          end
      | Malformed => Malformed
      | Beyond => Beyond
      | OutOfFuel => OutOfFuel
      end
  end.

(** [json.loads(s)]: a value with whitespace around it and nothing
    else. *)
Definition loads (s : str) : outcome value :=
  match scan_once (2 * length s + 2) (skip_ws s) with
  | Done v rest =>
      match skip_ws rest with
      | [] => Done v []
      | _ => Malformed
      end
  | Malformed => Malformed
  | Beyond => Beyond
  | OutOfFuel => OutOfFuel
  end.

(** The dict of a record, as [parse_accomplishments] builds it. *)
Definition to_json (a : accomplishment) : value :=
  Object [(lit "project", String (project a));
          (lit "date", String (date_str a));
          (lit "content", String (content a));
          (lit "details", Array (map String (details a)))].

(** [save_to_json(accomplishments, output_file)]: the text written. *)
Definition save_to_json (accomplishments : list accomplishment) : str :=
  dumps (Array (map to_json accomplishments)).

(** [parse_accomplishments_from_json(json_file)], from the text of the
    file: [json.load(f)]. *)
Definition parse_accomplishments_from_json (text : str) : outcome value :=
  loads text.

End Json.

(** ** Notions the statements on the saved records are written with *)
Module JsonTerms.
Import PyStr Parse Json.

(** The text of a value is read back as the value, with fuel [n] or more,
    and starts with a character that is no whitespace and does not close
    a list. *)
Definition reads (level : nat) (v : value) (n : nat) : Prop :=
  (forall fuel rest,
      n <= fuel -> scan_once fuel (encode level v ++ rest) = Done v rest)
  /\ exists c t,
      encode level v = c :: t
      /\ is_ws c = false /\ Ascii.eqb c "]" = false.

(** The fuel for the values of a list or of an object, given the fuel for
    each. *)
Definition fuel_of (cost : value -> nat) (items : list value) : nat :=
  list_sum (map (fun v => S (cost v)) items).

(** The text of a pair inside an object. *)
Definition pair_text (level : nat) (kv : str * value) : str :=
  let (k, v') := kv in
  encode_string k ++ lit ": " ++ encode (S level) v'.

(** Fuel for a field of a record, and for a record. *)
Definition field_cost (v : value) : nat :=
  match v with
  | Array items => S (2 * length items)
  | _ => 1
  end.

Definition record_cost (v : value) : nat :=
  match v with
  | Object pairs => S (fuel_of field_cost (map snd pairs))
  | _ => 1
  end.

(** A double quote, for the texts of the examples. *)
Definition dq : string := String.String (ascii_of_nat 34) EmptyString.

(** A character of a text file in ASCII: a newline or a printable
    character. *)
Definition plain_ascii (c : ascii) : bool :=
  (code c =? 10) || ((32 <=? code c) && (code c <=? 126)).

End JsonTerms.

(** ** The embedding on sample inputs

    Values of the definitions above on inputs for which the behaviour of
    the Python functions and of the [re] module is known. *)
Module ModelChecks.
Import PyStr Re Parse Daily Denote.

Example split_keeps_empty_pieces :
  split_lines (lit ("a" ++ nl ++ nl ++ "b" ++ nl)) = [lit "a"; []; lit "b"; []]
  /\ split_lines [] = [[]].
Proof. split; reflexivity. Qed.

Example strip_unicode_spaces :
  strip (lit " " ++ chr 31 ++ lit " a b " ++ chr 133 ++ [newline]) = lit "a b".
Proof. reflexivity. Qed.

Example date_line_tab_and_nbsp :
  date_groups (lit "-" ++ chr 9 ++ lit " 2025-01-15 " ++ chr 160 ++ lit "did X")
  = Some (lit "2025-01-15", lit "did X").
Proof. vm_compute. reflexivity. Qed.

Example date_line_without_dash :
  date_groups (lit "2025-01-15:x y") = Some (lit "2025-01-15", lit "x y").
Proof. vm_compute. reflexivity. Qed.

Example date_line_double_colon :
  date_groups (lit "- 2025-01-15:: x") = Some (lit "2025-01-15", lit ": x").
Proof. vm_compute. reflexivity. Qed.

Example date_line_colon_only :
  date_groups (lit "- 2025-01-15:") = Some (lit "2025-01-15", lit ":").
Proof. vm_compute. reflexivity. Qed.

Example date_line_emphasized_no_colon :
  date_groups (lit "-  **2025-01-15** v2") = Some (lit "2025-01-15", lit "v2").
Proof. vm_compute. reflexivity. Qed.

Example date_line_extra_digit :
  date_groups (lit "- 2025-01-155: x") = Some (lit "2025-01-15", lit "5: x").
Proof. vm_compute. reflexivity. Qed.

Example not_date_lines :
  date_groups (lit "- 2025-1-15: x") = None
  /\ date_groups (lit "-- 2025-01-15: x") = None
  /\ date_groups (lit "- 2025-01-15") = None
  /\ date_groups (lit "- **2025-01-15**") = None.
Proof. repeat split; vm_compute; reflexivity. Qed.

Example calendar_dates :
  strptime_ymd (lit "2024-02-29") = Some (Date 2024 2 29)
  /\ strptime_ymd (lit "2025-02-29") = None
  /\ strptime_ymd (lit "2025-13-01") = None
  /\ strptime_ymd (lit "2025-04-31") = None
  /\ strptime_ymd (lit "2025-01-00") = None
  /\ strptime_ymd (lit "0000-01-01") = None
  /\ strptime_ymd (lit "1999-12-31") = Some (Date 1999 12 31).
Proof. repeat split; reflexivity. Qed.

Example section_search_trailing_spaces :
  span_group1
    (re_search Parse.recent_section_pattern
       (lit ("## Recent Accomplishments  " ++ nl ++ " " ++ nl ++ "  a" ++ nl
             ++ "##b")))
  = Some (0, 33, lit "  a").
Proof. vm_compute. reflexivity. Qed.

Example section_search_inside_deeper_heading :
  span_group1
    (re_search Parse.recent_section_pattern
       (lit "### Recent Accomplishments " ++ chr 11 ++ [newline] ++ chr 28
        ++ lit (nl ++ "foo" ++ nl ++ nl ++ "## x")))
  = Some (1, 35, lit ("foo" ++ nl)).
Proof. vm_compute. reflexivity. Qed.

Example section_search_second_occurrence :
  span_group1
    (re_search Parse.recent_section_pattern
       (lit ("## Recent Accomplishments x" ++ nl ++ "## Recent Accomplishments"
             ++ nl ++ "yy")))
  = Some (28, 56, lit "yy").
Proof. vm_compute. reflexivity. Qed.

Example section_search_heading_at_end :
  re_search Parse.recent_section_pattern (lit "## Recent Accomplishments")
  = None.
Proof. vm_compute. reflexivity. Qed.

Example section_search_empty_section :
  span_group1
    (re_search Parse.recent_section_pattern
       (lit ("## Recent Accomplishments" ++ nl ++ nl ++ "## Next" ++ nl ++ "- x")))
  = Some (0, 38, lit ("## Next" ++ nl ++ "- x")).
Proof. vm_compute. reflexivity. Qed.

Example note_search_stops_at_deeper_heading :
  span_group1
    (re_search Daily.section_pattern
       (lit ("## Development Work" ++ nl ++ "old" ++ nl ++ "### sub" ++ nl
             ++ "more" ++ nl ++ "## Other" ++ nl)))
  = Some (0, 23, lit "old").
Proof. vm_compute. reflexivity. Qed.

Example note_search_blank_lines_then_heading :
  span_group1
    (re_search Daily.section_pattern
       (lit ("x## Development Work " ++ nl ++ nl ++ nl ++ "## a" ++ nl ++ "## b")))
  = Some (1, 28, lit "## a").
Proof. vm_compute. reflexivity. Qed.

Example project_names_in_code_point_order :
  str_ltb (lit "B") (lit "a") = true
  /\ str_ltb (lit "a") (lit "a b") = true
  /\ str_ltb (lit "a b") (lit "ab") = true
  /\ str_ltb [] (lit "B") = true
  /\ str_ltb (lit "b") (chr 233) = true.
Proof. repeat split; reflexivity. Qed.

Example daily_note_path_of_date :
  Run.path_join (lit "/vault")
    (Run.path_join (Run.daily_note_dir (Date 2025 1 15))
                   (Run.daily_note_file (Date 2025 1 15)))
  = lit "/vault/Daily Notes/2025/01-January/2025-01-15.md"
  /\ Run.weekday (Date 2025 1 15) = lit "Wednesday".
Proof. split; reflexivity. Qed.

End ModelChecks.

(** ** Facts about the string primitives *)
Module PyStrFacts.
Import PyStr Denote.

Lemma eqb_newline c : Ascii.eqb c newline = true -> is_space c = true.
Proof. intros H. apply Ascii.eqb_eq in H. subst. reflexivity. Qed.

Lemma not_newline_false c : not_newline c = false -> c = newline.
Proof.
  unfold not_newline, code. intros H. apply negb_false_iff in H.
  apply Nat.eqb_eq in H.
  rewrite <- (ascii_nat_embedding c), H. reflexivity.
Qed.

Lemma not_newline_neq c : not_newline c = true -> Ascii.eqb c newline = false.
Proof.
  intros H. apply Ascii.eqb_neq. intros ->. discriminate.
Qed.

Lemma not_space_not_newline c : is_space c = false -> not_newline c = true.
Proof.
  intros H. destruct (not_newline c) eqn:E; [reflexivity|].
  apply not_newline_false in E. subst. discriminate.
Qed.

Lemma digit_not_space c : is_digit c = true -> is_space c = false.
Proof.
  unfold is_digit, is_space. intros H.
  apply andb_true_iff in H. destruct H as [H1 H2].
  apply Nat.leb_le in H1. apply Nat.leb_le in H2.
  repeat (apply orb_false_iff; split);
    try (apply andb_false_iff; right; apply Nat.leb_gt; lia);
    apply Nat.eqb_neq; lia.
Qed.

Lemma drop_while_app_stop p a c b :
  forallb p a = true -> p c = false ->
  drop_while p (a ++ c :: b) = c :: b.
Proof.
  induction a as [|x a IH]; simpl; intros Ha Hc.
  - rewrite Hc. reflexivity.
  - apply andb_true_iff in Ha. destruct Ha as [Hx Ha].
    rewrite Hx. auto.
Qed.

Lemma drop_while_all p a : forallb p a = true -> drop_while p a = [].
Proof.
  induction a as [|x a IH]; simpl; intros Ha; [reflexivity|].
  apply andb_true_iff in Ha. destruct Ha as [Hx Ha]. rewrite Hx. auto.
Qed.

Lemma drop_while_suffix p s : exists a, s = a ++ drop_while p s /\ forallb p a = true.
Proof.
  induction s as [|c s [a [E Ha]]]; simpl.
  - exists []. split; reflexivity.
  - destruct (p c) eqn:Hc.
    + exists (c :: a). simpl. rewrite Hc, Ha. split; [congruence|reflexivity].
    + exists []. split; reflexivity.
Qed.

Lemma drop_while_head p s c s' : drop_while p s = c :: s' -> p c = false.
Proof.
  induction s as [|x s IH]; simpl; [discriminate|].
  destruct (p x) eqn:Hx; [exact IH|].
  intros E. injection E as -> _. exact Hx.
Qed.

Lemma drop_while_idem p s : drop_while p (drop_while p s) = drop_while p s.
Proof.
  destruct (drop_while p s) as [|c s'] eqn:E; [reflexivity|].
  simpl. rewrite (drop_while_head _ _ E). reflexivity.
Qed.

(** [rstrip] leaves a text that does not end in whitespace. *)
Lemma rstrip_rstripped s : rstripped (rstrip s).
Proof.
  unfold rstripped, rstrip. rewrite rev_involutive.
  destruct (drop_while is_space (rev s)) eqn:E; [exact I|].
  eapply drop_while_head; eauto.
Qed.

Lemma rstripped_rstrip s : rstripped s -> rstrip s = s.
Proof.
  unfold rstripped, rstrip. destruct (rev s) as [|c r] eqn:E; intros H.
  - simpl. rewrite <- (rev_involutive s), E. reflexivity.
  - simpl. rewrite H. rewrite <- E. apply rev_involutive.
Qed.

Lemma rstrip_app a b :
  rstrip b <> [] -> rstrip (a ++ b) = a ++ rstrip b.
Proof.
  unfold rstrip. intros H. rewrite rev_app_distr.
  destruct (drop_while_suffix is_space (rev b)) as [w [E Hw]].
  destruct (drop_while is_space (rev b)) as [|c t] eqn:Ed.
  - exfalso. apply H. reflexivity.
  - rewrite E at 1. rewrite <- app_assoc. simpl.
    rewrite drop_while_app_stop; auto.
    + change (c :: t ++ rev a) with ((c :: t) ++ rev a).
      rewrite rev_app_distr, rev_involutive. reflexivity.
    + eapply drop_while_head; eauto.
Qed.

Lemma rstrip_nonempty_intro a c :
  is_space c = false -> rstrip (a ++ [c]) = a ++ [c].
Proof.
  intros H. apply rstripped_rstrip. unfold rstripped.
  rewrite rev_app_distr. simpl. exact H.
Qed.

Lemma strip_stripped s :
  rstripped s -> drop_while is_space s = s -> strip s = s.
Proof.
  intros H1 H2. unfold strip, lstrip. rewrite H2.
  apply rstripped_rstrip; assumption.
Qed.

Lemma strip_rstripped s : rstripped (strip s).
Proof. apply rstrip_rstripped. Qed.

(** A text with a character that is not whitespace does not strip to the
    empty text. *)
Lemma drop_while_nonempty p s c :
  In c s -> p c = false -> drop_while p s <> [].
Proof.
  induction s as [|x s IH]; simpl; [tauto|].
  intros [->|Hin] Hc.
  - rewrite Hc. discriminate.
  - destruct (p x); [auto|discriminate].
Qed.

Lemma drop_while_In p s c : In c (drop_while p s) -> In c s.
Proof.
  induction s as [|x s IH]; simpl; [tauto|].
  destruct (p x); simpl; tauto.
Qed.

Lemma In_drop_while p s c : In c s -> p c = false -> In c (drop_while p s).
Proof.
  induction s as [|x s IH]; simpl; [tauto|].
  intros [->|Hin] Hc.
  - rewrite Hc. left. reflexivity.
  - destruct (p x); [auto|right; assumption].
Qed.

Lemma In_strip s c : In c s -> is_space c = false -> In c (strip s).
Proof.
  intros Hin Hc. unfold strip, rstrip, lstrip.
  rewrite <- in_rev. apply In_drop_while; [|exact Hc].
  rewrite <- in_rev. apply In_drop_while; assumption.
Qed.

Lemma strip_In s c : In c (strip s) -> In c s.
Proof.
  unfold strip, rstrip, lstrip. intros H.
  rewrite <- in_rev in H. apply drop_while_In in H.
  rewrite <- in_rev in H.
  eapply drop_while_In; eauto.
Qed.

Lemma strip_nonempty s c : In c s -> is_space c = false -> strip s <> [].
Proof.
  intros Hin Hc E. pose proof (In_strip _ _ Hin Hc) as H.
  rewrite E in H. exact H.
Qed.

Lemma strip_no_newline s : no_newline s -> no_newline (strip s).
Proof.
  unfold no_newline. rewrite !forallb_forall.
  intros H c Hc. apply H. eapply strip_In; eauto.
Qed.

End PyStrFacts.

(** ** Facts about the matcher *)
Module ReFacts.
Import PyStr Re Denote PyStrFacts.

Lemma or_else_some {A} (x y : option A) v :
  or_else x y = Some v -> x = Some v \/ (x = None /\ y = Some v).
Proof. destruct x; simpl; intros H; [left|right]; auto. Qed.

Lemma strip_prefix_some p s s' : strip_prefix p s = Some s' -> s = p ++ s'.
Proof.
  revert s. induction p as [|a p IH]; intros [|c s]; simpl; intros H;
    try discriminate; try (injection H as <-; reflexivity).
  destruct (Ascii.eqb a c) eqn:E; [|discriminate].
  apply Ascii.eqb_eq in E. subst. f_equal. auto.
Qed.

Lemma strip_prefix_app p s : strip_prefix p (p ++ s) = Some s.
Proof.
  induction p as [|a p IH]; simpl; [reflexivity|].
  rewrite Ascii.eqb_refl. exact IH.
Qed.

Lemma star_greedy_sound p cs s : forall n k res,
  star_greedy p cs n s k = Some res ->
  exists w s', s = w ++ s' /\ forallb p w = true
               /\ k (MState (n + length w) s' cs) = Some res.
Proof.
  induction s as [|c s IH]; simpl; intros n k res H.
  - exists [], []. simpl. rewrite Nat.add_0_r. auto.
  - destruct (p c) eqn:Hc.
    + apply or_else_some in H. destruct H as [H|[_ H]].
      * apply IH in H. destruct H as [w [s' [E [Hw Hk]]]].
        exists (c :: w), s'. simpl. rewrite Hc, Hw. subst.
        rewrite <- Nat.add_succ_comm. auto.
      * exists [], (c :: s). simpl. rewrite Nat.add_0_r. auto.
    + exists [], (c :: s). simpl. rewrite Nat.add_0_r. auto.
Qed.

Lemma star_lazy_sound p cs s : forall n k res,
  star_lazy p cs n s k = Some res ->
  exists w s', s = w ++ s' /\ forallb p w = true
               /\ k (MState (n + length w) s' cs) = Some res.
Proof.
  induction s as [|c s IH]; simpl; intros n k res H.
  - exists [], []. simpl. rewrite Nat.add_0_r. auto.
  - apply or_else_some in H. destruct H as [H|[_ H]].
    + exists [], (c :: s). simpl. rewrite Nat.add_0_r. auto.
    + destruct (p c) eqn:Hc; [|discriminate].
      apply IH in H. destruct H as [w [s' [E [Hw Hk]]]].
      exists (c :: w), s'. simpl. rewrite Hc, Hw. subst.
      rewrite <- Nat.add_succ_comm. auto.
Qed.

(** The matcher is sound for the declarative reading of a pattern: a
    match it returns runs the pattern and then the continuation. *)
Lemma rmatch_sound r : forall st k res,
  rmatch r st k = Some res ->
  exists st', steps r st st' /\ k st' = Some res.
Proof.
  induction r as [s|p|r1 IH1 r2 IH2|r1 IH1 r2 IH2|r1 IH1|p|p|n r1 IH1|r1 IH1| | | ];
    simpl; intros st k res H.
  - destruct (strip_prefix s (rest st)) as [s'|] eqn:E; [|discriminate].
    apply strip_prefix_some in E.
    eexists. split; [|exact H]. simpl. auto.
  - destruct (rest st) as [|c s'] eqn:E; [discriminate|].
    destruct (p c) eqn:Hc; [|discriminate].
    eexists. split; [|exact H]. exists c. simpl. auto.
  - apply IH1 in H. destruct H as [mid [H1 H]].
    apply IH2 in H. destruct H as [st' [H2 H]].
    exists st'. split; [exists mid; auto|exact H].
  - apply or_else_some in H. destruct H as [H|[_ H]].
    + apply IH1 in H. destruct H as [st' [H1 H]]. exists st'. auto.
    + apply IH2 in H. destruct H as [st' [H1 H]]. exists st'. auto.
  - apply or_else_some in H. destruct H as [H|[_ H]].
    + apply IH1 in H. destruct H as [st' [H1 H]]. exists st'. auto.
    + exists st. auto.
  - apply star_greedy_sound in H. destruct H as [w [s' [E [Hw H]]]].
    eexists. split; [|exact H]. exists w. simpl. auto.
  - apply star_lazy_sound in H. destruct H as [w [s' [E [Hw H]]]].
    eexists. split; [|exact H]. exists w. simpl. auto.
  - apply IH1 in H. destruct H as [mid [H1 H]].
    eexists. split; [|exact H]. exists mid. auto.
  - destruct (rmatch r1 st Some) as [x|] eqn:E; [|discriminate].
    apply IH1 in E. destruct E as [x' [E _]].
    exists st. split; [|exact H]. split; [reflexivity|]. exists x'. exact E.
  - destruct (pos st =? 0) eqn:E; [|discriminate].
    apply Nat.eqb_eq in E. exists st. auto.
  - destruct (rest st) as [|c [|c' s']] eqn:E; try discriminate.
    + exists st. auto.
    + destruct (Ascii.eqb c newline) eqn:Ec; [|discriminate].
      apply Ascii.eqb_eq in Ec. subst. exists st. auto.
  - destruct (rest st) as [|c s'] eqn:E; [|discriminate].
    exists st. auto.
Qed.

(** A pattern only reads forward: what is left is a suffix of what was
    left, and the offset moves by what was read. *)
Lemma steps_suffix r : forall st st',
  steps r st st' ->
  exists w, rest st = w ++ rest st' /\ pos st' = pos st + length w.
Proof.
  induction r as [s|p|r1 IH1 r2 IH2|r1 IH1 r2 IH2|r1 IH1|p|p|n r1 IH1|r1 IH1| | | ];
    simpl; intros st st' H.
  - destruct H as [E [Hp _]]. exists s. auto.
  - destruct H as [c [_ [E [Hp _]]]]. exists [c]. simpl.
    rewrite Nat.add_1_r. auto.
  - destruct H as [mid [H1 H2]].
    apply IH1 in H1. apply IH2 in H2.
    destruct H1 as [w1 [E1 P1]]. destruct H2 as [w2 [E2 P2]].
    exists (w1 ++ w2). rewrite <- app_assoc, <- E2, E1.
    rewrite length_app. split; [reflexivity|lia].
  - destruct H as [H|H]; auto.
  - destruct H as [H|H]; auto. subst. exists []. simpl. auto.
  - destruct H as [w [_ [E [P _]]]]. exists w. auto.
  - destruct H as [w [_ [E [P _]]]]. exists w. auto.
  - destruct H as [mid [H ->]]. apply IH1 in H. exact H.
  - destruct H as [-> _]. exists []. simpl. auto.
  - destruct H as [-> _]. exists []. simpl. auto.
  - destruct H as [-> _]. exists []. simpl. auto.
  - destruct H as [-> _]. exists []. simpl. auto.
Qed.

(** Greedy repetition, from the longest run down: if what follows fails
    after every longer run and succeeds after [i] characters, that is the
    match. *)
Lemma star_greedy_first p cs s : forall n k i res,
  i <= run p s ->
  (forall j, i < j -> j <= run p s ->
             k (MState (n + j) (skipn j s) cs) = None) ->
  k (MState (n + i) (skipn i s) cs) = Some res ->
  star_greedy p cs n s k = Some res.
Proof.
  induction s as [|c s IH]; simpl; intros n k i res Hi Hfail Hk.
  - assert (i = 0) by lia. subst. simpl in Hk.
    rewrite Nat.add_0_r in Hk. exact Hk.
  - destruct (p c) eqn:Hc.
    + destruct i as [|i].
      * simpl in Hk. rewrite Nat.add_0_r in Hk. rewrite Hk.
        destruct (star_greedy p cs (S n) s k) eqn:E; [|reflexivity].
        exfalso. apply star_greedy_sound in E.
        destruct E as [w [s' [E [Hw E']]]].
        assert (Hrun : length w <= run p s).
        { clear -E Hw. revert s E. induction w as [|x w IHw]; intros s E.
          - simpl. lia.
          - destruct s as [|y s]; [discriminate|]. simpl in *.
            injection E as -> E. apply andb_true_iff in Hw.
            destruct Hw as [Hx Hw]. rewrite Hx.
            apply le_n_S. apply IHw; auto. }
        specialize (Hfail (S (length w))).
        simpl in Hfail. rewrite <- Nat.add_succ_comm in Hfail.
        assert (Hs : skipn (length w) s = s').
        { subst s. rewrite skipn_app, Nat.sub_diag, skipn_all. reflexivity. }
        rewrite Hs in Hfail. rewrite Hfail in E'; [discriminate|lia|lia].
      * simpl in Hk. rewrite <- Nat.add_succ_comm in Hk.
        rewrite (IH (S n) k i res); [reflexivity|lia| |exact Hk].
        intros j Hj1 Hj2. specialize (Hfail (S j)). simpl in Hfail.
        rewrite <- Nat.add_succ_comm in Hfail. apply Hfail; lia.
    + assert (i = 0) by lia. subst. simpl in Hk.
      rewrite Nat.add_0_r in Hk. exact Hk.
Qed.

(** Greedy repetition fails when what follows fails after every run. *)
Lemma star_greedy_none p cs s : forall n k,
  (forall j, j <= run p s -> k (MState (n + j) (skipn j s) cs) = None) ->
  star_greedy p cs n s k = None.
Proof.
  induction s as [|c s IH]; simpl; intros n k Hfail.
  - specialize (Hfail 0). simpl in Hfail. rewrite Nat.add_0_r in Hfail.
    apply Hfail. lia.
  - pose proof (Hfail 0) as H0. simpl in H0. rewrite Nat.add_0_r in H0.
    destruct (p c) eqn:Hc.
    + rewrite IH.
      * simpl. apply H0. lia.
      * intros j Hj. specialize (Hfail (S j)). simpl in Hfail.
        rewrite <- Nat.add_succ_comm in Hfail. apply Hfail. lia.
    + apply H0. lia.
Qed.

Lemma run_all p s : forallb p s = true -> run p s = length s.
Proof.
  induction s as [|c s IH]; simpl; [reflexivity|].
  intros H. apply andb_true_iff in H. destruct H as [Hc Hs].
  rewrite Hc. f_equal. auto.
Qed.

Lemma skipn_run p s : skipn (run p s) s = drop_while p s.
Proof.
  induction s as [|c s IH]; simpl; [reflexivity|].
  destruct (p c); simpl; auto.
Qed.

Lemma run_le p s : run p s <= length s.
Proof.
  induction s as [|c s IH]; simpl; [lia|]. destruct (p c); simpl; lia.
Qed.

End ReFacts.

(** ** The section patterns, computed directly *)
Module SectionFacts.
Import PyStr Re Denote PyStrFacts ReFacts.

Lemma startswith_strip_prefix p s :
  startswith p s = match strip_prefix p s with Some _ => true | None => false end.
Proof.
  revert s. induction p as [|a p IH]; intros [|c s]; simpl; try reflexivity.
  destruct (Ascii.eqb a c); simpl; auto.
Qed.

Lemma look_boundary_spec st :
  rmatch look_boundary st Some =
  match rest st with
  | [] => Some st
  | _ => if startswith boundary (rest st) then Some st else None
  end.
Proof.
  unfold look_boundary. cbn [rmatch].
  rewrite startswith_strip_prefix.
  destruct (rest st) as [|c s] eqn:E.
  - reflexivity.
  - destruct (strip_prefix boundary (c :: s)); reflexivity.
Qed.

Lemma until_boundary_length s : length (until_boundary s) <= length s.
Proof.
  induction s as [|c s IH]; cbn [until_boundary length]; [lia|].
  destruct (startswith (newline :: lit "##") (c :: s)); cbn [length]; lia.
Qed.

(** [(.*?)(?=\n##|\Z)]: the lazy group stops at the first boundary. *)
Lemma lazy_until s : forall pre n0 cs,
  star_lazy any_char cs (n0 + length pre) s
    (fun st' => rmatch look_boundary
                  (set_group 1 (MState n0 (pre ++ s) cs) st') Some)
  = Some (MState (n0 + length pre + length (until_boundary s))
                 (skipn (length (until_boundary s)) s)
                 ((1, pre ++ until_boundary s) :: cs)).
Proof.
  induction s as [|c s IH]; intros pre n0 cs.
  - cbn [star_lazy]. rewrite look_boundary_spec.
    unfold set_group. cbn [rest pos caps until_boundary length skipn].
    rewrite Nat.add_0_r, app_nil_r.
    replace (n0 + length pre - n0) with (length pre) by lia.
    rewrite firstn_all. reflexivity.
  - cbn [star_lazy]. rewrite look_boundary_spec.
    unfold set_group. cbn [rest pos caps].
    replace (n0 + length pre - n0) with (length pre) by lia.
    rewrite firstn_app, Nat.sub_diag, firstn_all. cbn [firstn].
    cbn [until_boundary].
    change (newline :: lit "##") with boundary.
    destruct (startswith boundary (c :: s)) eqn:E.
    + cbn [or_else length skipn]. rewrite Nat.add_0_r. reflexivity.
    + cbn [or_else any_char].
      specialize (IH (pre ++ [c]) n0 cs).
      rewrite length_app in IH. cbn [length] in IH.
      rewrite <- app_assoc in IH. cbn [app] in IH.
      replace (n0 + (length pre + 1)) with (S (n0 + length pre)) in IH by lia.
      unfold set_group in IH. cbn [rest pos caps] in IH.
      rewrite IH. cbn [length skipn]. f_equal. f_equal; [lia|].
      rewrite <- app_assoc. reflexivity.
Qed.

Lemma ws_newline_suffix s r :
  ws_newline s = Some r -> exists w, s = w ++ r /\ forallb is_space w = true.
Proof.
  revert r. induction s as [|c s IH]; simpl; intros r H; [discriminate|].
  destruct (is_space c) eqn:Hc; [|discriminate].
  destruct (ws_newline s) as [r'|] eqn:E.
  - injection H as <-. destruct (IH _ eq_refl) as [w [Hw1 Hw2]].
    exists (c :: w). cbn [forallb app]. rewrite Hc, Hw2.
    split; [congruence|reflexivity].
  - destruct (Ascii.eqb c newline); [|discriminate].
    injection H as <-. exists [c]. cbn [forallb app]. rewrite Hc. auto.
Qed.

Lemma ws_newline_length s r : ws_newline s = Some r -> length r < length s.
Proof.
  intros H. destruct (ws_newline_suffix _ H) as [w [-> Hw]].
  rewrite length_app. destruct w; [|simpl; lia].
  exfalso. simpl in H. clear Hw.
  assert (forall s r', ws_newline s = Some r' -> length r' < length s).
  { clear. induction s as [|c s IH]; simpl; intros r H; [discriminate|].
    destruct (is_space c); [|discriminate].
    destruct (ws_newline s) as [r'|] eqn:E.
    - injection H as <-. specialize (IH _ eq_refl). lia.
    - destruct (Ascii.eqb c newline); [|discriminate].
      injection H as <-. lia. }
  apply H0 in H. lia.
Qed.

Lemma rmatch_char a n c s cs (K : kont) :
  rmatch (Str [a]) (MState n (c :: s) cs) K
  = if Ascii.eqb a c then K (MState (n + 1) s cs) else None.
Proof.
  cbn [rmatch strip_prefix rest pos caps length].
  destruct (Ascii.eqb a c); reflexivity.
Qed.

(** [\s*\n] in front of something that cannot fail: the greedy run gives
    characters back down to its last newline. *)
Lemma greedy_ws_newline (K : kont) (F : mstate -> mstate) cs s :
  (forall st, K st = Some (F st)) ->
  forall n,
  star_greedy is_space cs n s (fun st => rmatch (Str [newline]) st K)
  = match ws_newline s with
    | Some r => K (MState (n + (length s - length r)) r cs)
    | None => None
    end.
Proof.
  intros HK. induction s as [|c s IH]; intros n.
  - reflexivity.
  - cbn [star_greedy ws_newline].
    destruct (is_space c) eqn:Hc.
    + rewrite IH. destruct (ws_newline s) as [r|] eqn:E.
      * rewrite HK. cbn [or_else]. rewrite <- HK.
        apply ws_newline_length in E. f_equal. f_equal.
        cbn [length]. lia.
      * cbn [or_else]. rewrite rmatch_char, Ascii.eqb_sym.
        destruct (Ascii.eqb c newline); [|reflexivity].
        f_equal. f_equal. cbn [length]. lia.
    + rewrite rmatch_char, Ascii.eqb_sym.
      destruct (Ascii.eqb c newline) eqn:E; [|reflexivity].
      apply eqb_newline in E. congruence.
Qed.

(** One attempt of the section pattern, at the head of [s]. *)
Lemma section_match_spec heading s n :
  rmatch (section_regex heading) (MState n s []) Some
  = match section_at heading s with
    | Some (g, len) => Some (MState (n + len) (skipn len s) [(1, g)])
    | None => None
    end.
Proof.
  unfold section_regex, section_at. cbn [seqs]. cbn [rmatch rest pos caps].
  destruct (strip_prefix heading s) as [s1|] eqn:E1; [|reflexivity].
  apply strip_prefix_some in E1. subst s.
  rewrite (greedy_ws_newline
     (fun st' => star_lazy any_char (caps st') (pos st') (rest st')
        (fun st'' => rmatch look_boundary (set_group 1 st' st'') Some))
     (fun st' => MState (pos st' + length (until_boundary (rest st')))
                        (skipn (length (until_boundary (rest st'))) (rest st'))
                        ((1, until_boundary (rest st')) :: caps st'))).
  - destruct (ws_newline s1) as [r|] eqn:E2; [|reflexivity].
    pose proof (ws_newline_length _ E2) as Hlen.
    destruct (ws_newline_suffix s1 E2) as [w [Hw _]].
    pose proof (lazy_until r [] (n + length heading + (length s1 - length r)) []) as L.
    cbn [length app] in L. rewrite Nat.add_0_r in L.
    cbn [caps pos rest]. rewrite L. f_equal.
    assert (Hw' : length s1 = length w + length r)
      by (rewrite Hw, length_app; reflexivity).
    f_equal.
    + rewrite length_app. lia.
    + replace (length (heading ++ s1) - length r + length (until_boundary r))
        with (length (until_boundary r) + length (heading ++ w))
        by (rewrite !length_app; lia).
      rewrite <- skipn_skipn. rewrite Hw. rewrite app_assoc.
      rewrite skipn_app, Nat.sub_diag, skipn_all. reflexivity.
  - intros [n' s' cs']. cbn [caps pos rest].
    pose proof (lazy_until s' [] n' cs') as L. cbn [length app] in L.
    rewrite Nat.add_0_r in L. exact L.
Qed.

End SectionFacts.

(** ** The date patterns, computed directly *)
Module LineFacts.
Import PyStr Re Parse Denote PyStrFacts ReFacts SectionFacts.

Lemma search_section heading s : forall n,
  search_from (section_regex heading) n s = find_section heading n s.
Proof.
  induction s as [|c s IH]; intros n; cbn [search_from find_section];
    rewrite SectionFacts.section_match_spec;
    destruct (section_at heading _) as [[g len]|]; auto.
Qed.

Lemma rstripped_tail c t : rstripped (c :: t) -> rstripped t.
Proof.
  unfold rstripped. cbn [rev].
  destruct (rev t) as [|x r]; [exact (fun _ => I)|]. cbn [app]. auto.
Qed.

Lemma rstripped_lstrip t : rstripped t -> t <> [] -> lstrip t <> [].
Proof.
  unfold rstripped. intros H Hne.
  destruct (rev t) as [|c r] eqn:E.
  - exfalso. apply Hne. rewrite <- (rev_involutive t), E. reflexivity.
  - apply drop_while_nonempty with (c := c); [|exact H].
    apply in_rev. rewrite E. left. reflexivity.
Qed.

Lemma no_newline_tail c t : no_newline (c :: t) -> no_newline t.
Proof.
  unfold no_newline. cbn [forallb]. intros H.
  apply andb_true_iff in H. tauto.
Qed.

Lemma no_newline_drop_while p t : no_newline t -> no_newline (drop_while p t).
Proof.
  unfold no_newline. rewrite !forallb_forall. intros H c Hc.
  apply H. eapply drop_while_In; eauto.
Qed.

Lemma no_newline_app a b : no_newline (a ++ b) <-> no_newline a /\ no_newline b.
Proof.
  unfold no_newline. rewrite forallb_app. apply andb_true_iff.
Qed.

(** [(.+)$] on a text without newline takes all of it. *)
Lemma text_eol u n cs :
  no_newline u ->
  rmatch (Seq (Group 2 some_text) Eol) (MState n u cs) Some
  = match u with
    | [] => None
    | _ => Some (MState (n + length u) [] ((2, u) :: cs))
    end.
Proof.
  intros Hu. unfold some_text. cbn [rmatch rest pos caps].
  destruct u as [|c u]; [reflexivity|].
  unfold no_newline in Hu. cbn [forallb] in Hu.
  apply andb_true_iff in Hu. destruct Hu as [Hc Hu]. rewrite Hc.
  apply star_greedy_first with (i := length u).
  - rewrite run_all; auto.
  - intros j H1 H2. rewrite run_all in H2; auto. lia.
  - rewrite skipn_all. unfold set_group. cbn [rmatch rest pos caps].
    replace (S n + length u - n) with (S (length u)) by lia.
    cbn [firstn]. rewrite firstn_all. cbn [length].
    f_equal. f_equal. lia.
Qed.

(** [\s*(.+)$] on a text without newline that does not end in whitespace:
    the summary is the text without its leading whitespace. *)
Lemma ws_text_eol t n cs :
  no_newline t -> rstripped t ->
  rmatch (Seq (Star is_space) (Seq (Group 2 some_text) Eol))
         (MState n t cs) Some
  = match t with
    | [] => None
    | _ => Some (MState (n + length t) [] ((2, lstrip t) :: cs))
    end.
Proof.
  intros Hn Hr.
  change (rmatch (Seq (Star is_space) (Seq (Group 2 some_text) Eol))
                 (MState n t cs) Some)
    with (star_greedy is_space cs n t
            (fun st' => rmatch (Seq (Group 2 some_text) Eol) st' Some)).
  destruct t as [|c t'] eqn:Et.
  - reflexivity.
  - rewrite <- Et in *.
    assert (Hne : lstrip t <> []) by (apply rstripped_lstrip; congruence).
    destruct (drop_while_suffix is_space t) as [w [Ew Hw]].
    apply star_greedy_first with (i := run is_space t).
    + lia.
    + intros j H1 H2. lia.
    + cbv beta. rewrite skipn_run. rewrite text_eol.
      * fold (lstrip t). destruct (lstrip t) as [|x u] eqn:El; [congruence|].
        f_equal. f_equal.
        assert (length t = run is_space t + length (x :: u)).
        { rewrite <- El. unfold lstrip. rewrite <- skipn_run.
          rewrite length_skipn. pose proof (run_le is_space t). lia. }
        lia.
      * apply no_newline_drop_while. assumption.
Qed.

(** [:?\s*(.+)$] on a text without newline that does not end in
    whitespace. *)
Lemma tail_spec t n cs :
  no_newline t -> rstripped t ->
  rmatch tail_regex (MState n t cs) Some
  = match summary_of_tail t with
    | Some g => Some (MState (n + length t) [] ((2, g) :: cs))
    | None => None
    end.
Proof.
  intros Hn Hr. unfold tail_regex. cbn [seqs].
  change (rmatch (Seq (Opt (Str (lit ":")))
                      (Seq (Star is_space) (Seq (Group 2 some_text) Eol)))
                 (MState n t cs) Some)
    with (or_else
            (rmatch (Str (lit ":")) (MState n t cs)
               (fun st' => rmatch (Seq (Star is_space)
                                       (Seq (Group 2 some_text) Eol)) st' Some))
            (rmatch (Seq (Star is_space) (Seq (Group 2 some_text) Eol))
                    (MState n t cs) Some)).
  rewrite (ws_text_eol n cs Hn Hr).
  destruct t as [|c t']; [reflexivity|].
  change (lit ":") with [":"%char]. rewrite rmatch_char.
  unfold summary_of_tail, is_char.
  destruct (Ascii.eqb ":" c) eqn:Ec.
  - rewrite ws_text_eol;
      [|eapply no_newline_tail; eauto|eapply rstripped_tail; eauto].
    destruct t' as [|c' t'']; cbn [or_else length].
    + apply Ascii.eqb_eq in Ec. subst c. reflexivity.
    + f_equal. f_equal. lia.
  - cbn [or_else]. reflexivity.
Qed.

End LineFacts.

(** ** The date patterns on lines that start with a dash *)
Module DashFacts.
Import PyStr Re Parse Denote PyStrFacts ReFacts SectionFacts LineFacts.

Lemma plain_split : plain_date_pattern = with_prefix (plain_body tail_regex).
Proof. reflexivity. Qed.

Lemma emph_split : emph_date_pattern = with_prefix (emph_body tail_regex).
Proof. reflexivity. Qed.

(** Greedy repetition keeps its longest run when what follows fails
    after every shorter one. *)
Lemma star_greedy_top p cs s n k :
  (forall j, j < run p s -> k (MState (n + j) (skipn j s) cs) = None) ->
  star_greedy p cs n s k
  = k (MState (n + run p s) (skipn (run p s) s) cs).
Proof.
  intros Hfail.
  destruct (k (MState (n + run p s) (skipn (run p s) s) cs)) as [res|] eqn:E.
  - apply star_greedy_first with (i := run p s); auto; intros; lia.
  - apply star_greedy_none. intros j Hj.
    destruct (Nat.eq_dec j (run p s)) as [->|Hne]; [exact E|].
    apply Hfail. lia.
Qed.

Lemma rmatch_str p s n cs (R : regex) (k : kont) :
  rmatch (Seq (Str p) R) (MState n (p ++ s) cs) k
  = rmatch R (MState (n + length p) s cs) k.
Proof.
  cbn [rmatch rest pos caps]. rewrite strip_prefix_app. reflexivity.
Qed.

Lemma rmatch_str_fail a p c s n cs (R : regex) (k : kont) :
  Ascii.eqb a c = false ->
  rmatch (Seq (Str (a :: p)) R) (MState n (c :: s) cs) k = None.
Proof.
  intros H. cbn [rmatch rest pos caps strip_prefix]. rewrite H. reflexivity.
Qed.

Lemma plain_body_fails tail c : is_digit c = false -> fails_at (plain_body tail) c.
Proof.
  intros H n s cs. unfold plain_body, date_token.
  cbn [rmatch seqs times rest pos caps]. rewrite H. reflexivity.
Qed.

Lemma emph_body_fails tail c : Ascii.eqb "*" c = false -> fails_at (emph_body tail) c.
Proof.
  intros H n s cs. unfold emph_body. apply rmatch_str_fail. exact H.
Qed.

Lemma skipn_ws_head w c x j :
  forallb is_space w = true -> j < length w ->
  exists c' s', skipn j (w ++ c :: x) = c' :: s' /\ is_space c' = true.
Proof.
  revert j. induction w as [|a w IH]; cbn [length forallb]; intros j Hw Hj; [lia|].
  apply andb_true_iff in Hw. destruct Hw as [Ha Hw].
  destruct j as [|j].
  - exists a, (w ++ c :: x). auto.
  - cbn [app skipn]. apply IH; [assumption|lia].
Qed.

Lemma run_ws_stop w c x :
  forallb is_space w = true -> is_space c = false ->
  run is_space (w ++ c :: x) = length w.
Proof.
  intros Hw Hc. induction w as [|a w IH]; cbn [app run length].
  - rewrite Hc. reflexivity.
  - cbn [forallb] in Hw. apply andb_true_iff in Hw. destruct Hw as [Ha Hw].
    rewrite Ha. f_equal. auto.
Qed.

(** [^-?\s*body] on a line [-], whitespace, then a character that is not
    whitespace: the dash and the whitespace are taken, when [body] can
    start neither at whitespace nor at the dash. *)
Lemma dash_prefix body w c x :
  forallb is_space w = true -> is_space c = false ->
  (forall a, is_space a = true -> fails_at body a) ->
  fails_at body "-" ->
  rmatch (with_prefix body) (MState 0 ("-"%char :: w ++ c :: x) []) Some
  = rmatch body (MState (1 + length w) (c :: x) []) Some.
Proof.
  intros Hw Hc Hws Hdash. unfold with_prefix.
  change (rmatch (Seq Bos (Seq (Opt (Str (lit "-"))) (Seq (Star is_space) body)))
                 (MState 0 ("-"%char :: w ++ c :: x) []) Some)
    with (or_else
            (star_greedy is_space [] 1 (w ++ c :: x)
               (fun st' => rmatch body st' Some))
            (rmatch body (MState 0 ("-"%char :: w ++ c :: x) []) Some)).
  rewrite Hdash.
  rewrite star_greedy_top.
  - rewrite run_ws_stop by assumption.
    rewrite skipn_app, Nat.sub_diag, skipn_all. cbn [app skipn].
    destruct (rmatch body _ Some); reflexivity.
  - intros j Hj. rewrite run_ws_stop in Hj by assumption.
    destruct (@skipn_ws_head w c x j Hw Hj) as [c' [s' [E Hc']]].
    rewrite E. apply Hws. exact Hc'.
Qed.

(** [(\d{4}-\d{2}-\d{2})] on a date token. *)
Lemma date_token_take y1 y2 y3 y4 m1 m2 d1 d2 t n cs (R : regex) (k : kont) :
  forallb is_digit [y1; y2; y3; y4; m1; m2; d1; d2] = true ->
  rmatch (Seq (Group 1 date_token) R)
         (MState n (token y1 y2 y3 y4 m1 m2 d1 d2 ++ t) cs) k
  = rmatch R (MState (n + 10) t ((1, token y1 y2 y3 y4 m1 m2 d1 d2) :: cs)) k.
Proof.
  intros H. cbn [forallb] in H.
  repeat (apply andb_true_iff in H; destruct H as [? H]).
  unfold date_token, token.
  cbn [rmatch seqs times rest pos caps app].
  repeat match goal with
         | Hd : is_digit ?c = true |- context [is_digit ?c] => rewrite Hd
         end.
  cbn [strip_prefix lit list_ascii_of_string]. rewrite !Ascii.eqb_refl.
  repeat match goal with
         | Hd : is_digit ?c = true |- context [is_digit ?c] => rewrite Hd
         end.
  unfold set_group. cbn [pos rest caps length].
  match goal with
  | |- context [firstn ?a _] => replace a with 10 by lia
  end.
  cbn [firstn]. f_equal. f_equal. lia.
Qed.

End DashFacts.

(** ** What a successful date-pattern match tells about the line *)
Module MatchFacts.
Import PyStr Re Parse Denote PyStrFacts ReFacts SectionFacts LineFacts DashFacts.

Lemma steps_seq r1 r2 st st' :
  steps (Seq r1 r2) st st' <-> exists mid, steps r1 st mid /\ steps r2 mid st'.
Proof. reflexivity. Qed.

(** The common tail [:?\s*(.+)$] captures a non-empty summary that runs
    to the end of the line. *)
Lemma tail_steps st stf :
  steps tail_regex st stf ->
  exists x g, rest st = x ++ g ++ rest stf /\ g <> []
              /\ (rest stf = [] \/ rest stf = [newline])
              /\ caps stf = (2, g) :: caps st.
Proof.
  unfold tail_regex. cbn [seqs steps some_text].
  intros [a [Ha [b [[w [_ [Eb [_ Cb]]]] [c [Hc [-> Hend]]]]]]].
  destruct Hc as [mid [[d [[ch [_ [Ed [Pd Cd]]]] [u [_ [Emid [Pmid Cmid]]]]]] ->]].
  unfold set_group in *. cbn [rest pos caps] in *.
  assert (Ea : exists x0, rest st = x0 ++ rest a /\ caps a = caps st).
  { destruct Ha as [[E [_ C]] | ->].
    - exists (lit ":"). auto.
    - exists []. auto. }
  destruct Ea as [x0 [Ea Ca]].
  exists (x0 ++ w), (ch :: u). repeat split.
  - rewrite Ea, Eb, Ed, Emid, <- !app_assoc. reflexivity.
  - discriminate.
  - exact Hend.
  - rewrite Cmid, Cd, Cb, Ca. f_equal. f_equal.
    rewrite Pmid, Pd, Ed, Emid.
    replace (S (pos b) + length u - pos b) with (length (ch :: u))
      by (cbn [length]; lia).
    change (ch :: u ++ rest mid) with ((ch :: u) ++ rest mid).
    rewrite firstn_app, Nat.sub_diag, firstn_all. cbn [firstn].
    apply app_nil_r.
Qed.

Lemma body_steps (pre : regex) st stf :
  steps (Seq pre tail_regex) st stf ->
  exists x g, rest st = x ++ g ++ rest stf /\ g <> []
              /\ (rest stf = [] \/ rest stf = [newline])
              /\ assoc 2 (caps stf) = Some g.
Proof.
  intros H. apply steps_seq in H. destruct H as [m [H1 H2]].
  apply steps_suffix in H1. destruct H1 as [w [Ew _]].
  apply tail_steps in H2. destruct H2 as [x [g [E [Hg [He C]]]]].
  exists (w ++ x), g. repeat split; auto.
  - rewrite Ew, E, <- app_assoc. reflexivity.
  - rewrite C. reflexivity.
Qed.

Lemma steps_assoc r1 r2 r3 st st' :
  steps (Seq r1 (Seq r2 r3)) st st' -> steps (Seq (Seq r1 r2) r3) st st'.
Proof.
  cbn [steps].
  intros [a [H1 [b [H2 H3]]]]. exists b. split; [exists a; auto|auto].
Qed.

Lemma plain_steps st stf :
  steps plain_date_pattern st stf ->
  exists x g, rest st = x ++ g ++ rest stf /\ g <> []
              /\ (rest stf = [] \/ rest stf = [newline])
              /\ assoc 2 (caps stf) = Some g.
Proof.
  rewrite plain_split. unfold with_prefix, plain_body. intros H.
  do 3 (apply steps_assoc in H).
  exact (body_steps H).
Qed.

Lemma emph_steps st stf :
  steps emph_date_pattern st stf ->
  exists x g, rest st = x ++ g ++ rest stf /\ g <> []
              /\ (rest stf = [] \/ rest stf = [newline])
              /\ assoc 2 (caps stf) = Some g.
Proof.
  rewrite emph_split. unfold with_prefix, emph_body. intros H.
  do 5 (apply steps_assoc in H).
  exact (body_steps H).
Qed.

(** Group 2 of a date-line match is a non-empty part of the line, up to
    its end. *)
Lemma date_match_inv line m :
  first_match date_patterns line = Some m ->
  exists x g e, line = x ++ g ++ e /\ g <> []
                /\ (e = [] \/ e = [newline]) /\ group 2 m = g.
Proof.
  unfold date_patterns, first_match, re_match, group.
  destruct (rmatch plain_date_pattern (MState 0 line []) Some) as [stf|] eqn:E1;
    cbn [option_map].
  - intros H. injection H as <-. apply rmatch_sound in E1.
    destruct E1 as [st' [H1 H2]]. injection H2 as ->.
    apply plain_steps in H1. destruct H1 as [x [g [E [Hg [He C]]]]].
    exists x, g, (rest stf). cbn [m_final rest] in *. rewrite C. auto.
  - destruct (rmatch emph_date_pattern (MState 0 line []) Some) as [stf|] eqn:E2;
      cbn [option_map]; [|discriminate].
    intros H. injection H as <-. apply rmatch_sound in E2.
    destruct E2 as [st' [H1 H2]]. injection H2 as ->.
    apply emph_steps in H1. destruct H1 as [x [g [E [Hg [He C]]]]].
    exists x, g, (rest stf). cbn [m_final rest] in *. rewrite C. auto.
Qed.

(** A line that matches a date pattern starts with whitespace, a dash, a
    digit or a star. *)
Lemma prefix_steps_head body c s stf :
  steps (with_prefix body) (MState 0 (c :: s) []) stf ->
  is_space c = false -> c <> "-"%char ->
  exists m0 stf', rest m0 = c :: s /\ steps body m0 stf'.
Proof.
  unfold with_prefix. cbn [steps].
  intros [a [[-> _] [b [Hb [d [[w [Hw [Ed _]]] H]]]]]] Hc Hdash.
  assert (Eb : rest b = c :: s).
  { destruct Hb as [[E _] | ->]; [|reflexivity].
    cbn [rest lit list_ascii_of_string app] in E.
    injection E as E _. congruence. }
  exists d, stf. split; [|exact H].
  rewrite Eb in Ed. destruct w as [|a w]; [symmetry; exact Ed|].
  cbn [app forallb] in *. injection Ed as <- _.
  apply andb_true_iff in Hw. destruct Hw as [Hw _]. congruence.
Qed.

Lemma date_match_head c s m :
  first_match date_patterns (c :: s) = Some m ->
  is_space c = false ->
  c = "-"%char \/ is_digit c = true \/ c = "*"%char.
Proof.
  intros H Hc.
  destruct (ascii_dec c "-") as [->|Hdash]; [left; reflexivity|right].
  unfold date_patterns, first_match, re_match in H.
  destruct (rmatch plain_date_pattern (MState 0 (c :: s) []) Some) as [stf|] eqn:E1.
  - left. apply rmatch_sound in E1. destruct E1 as [st' [H1 _]].
    rewrite plain_split in H1.
    apply prefix_steps_head in H1; auto.
    destruct H1 as [m0 [stf' [E0 H0]]].
    unfold plain_body, date_token in H0. cbn [steps seqs times] in H0.
    destruct H0 as [a [[b [[d [[e [[ch [Hd [Ee _]]] _]] _]] _]] _]].
    rewrite E0 in Ee. injection Ee as <- _. exact Hd.
  - destruct (rmatch emph_date_pattern (MState 0 (c :: s) []) Some) as [stf|] eqn:E2;
      [|discriminate].
    right. apply rmatch_sound in E2. destruct E2 as [st' [H1 _]].
    rewrite emph_split in H1.
    apply prefix_steps_head in H1; auto.
    destruct H1 as [m0 [stf' [E0 H0]]].
    unfold emph_body in H0. cbn [steps] in H0.
    destruct H0 as [a [[Ea _] _]]. rewrite E0 in Ea.
    cbn [lit list_ascii_of_string app] in Ea. injection Ea as <- _.
    reflexivity.
Qed.

End MatchFacts.

(** ** The line loop of [parse_accomplishments] *)
Module LoopFacts.
Import PyStr Re Parse Denote PyStrFacts ReFacts SectionFacts LineFacts
       DashFacts MatchFacts.

Lemma rstrip_prefix x : exists w, x = rstrip x ++ w.
Proof.
  unfold rstrip.
  destruct (drop_while_suffix is_space (rev x)) as [a [E _]].
  exists (rev a). rewrite <- rev_app_distr, <- E. symmetry. apply rev_involutive.
Qed.

(** A stripped line does not start with whitespace. *)
Lemma strip_head raw c s : strip raw = c :: s -> is_space c = false.
Proof.
  unfold strip. intros H.
  destruct (rstrip_prefix (lstrip raw)) as [w E]. rewrite H in E.
  unfold lstrip in E. cbn [app] in E.
  eapply drop_while_head. exact E.
Qed.

Lemma rstripped_last a c : rstripped (a ++ [c]) -> is_space c = false.
Proof. unfold rstripped. rewrite rev_app_distr. cbn [rev app]. auto. Qed.

Lemma length_alter_nth f i l : length (alter_nth f i l) = length l.
Proof.
  revert i. induction l as [|a l IH]; intros [|i]; cbn [alter_nth length]; auto.
Qed.

Lemma firstn_alter_nth f i l k :
  k <= i -> firstn k (alter_nth f i l) = firstn k l.
Proof.
  revert i k. induction l as [|a l IH]; intros [|i] [|k] H;
    cbn [alter_nth firstn]; try reflexivity; try lia.
  f_equal. apply IH. lia.
Qed.

Lemma Forall_alter_nth (P : accomplishment -> Prop) f i l :
  (forall a, P a -> P (f a)) -> Forall P l -> Forall P (alter_nth f i l).
Proof.
  intros Hf. revert i. induction l as [|a l IH]; intros [|i] H;
    cbn [alter_nth]; auto; inversion H; subst; constructor; auto.
Qed.

(** The three ways a line leaves the loop state. *)
Lemma process_line_cases project_name target_date st raw :
  let st' := process_line project_name target_date st raw in
  st' = st
  \/ st' = Loop (accomplishments st) None
  \/ (exists m,
        first_match date_patterns (strip raw) = Some m
        /\ strip raw <> []
        /\ st' = Loop (accomplishments st
                       ++ [Acc project_name (group 1 m) (strip (group 2 m)) []])
                      (Some (length (accomplishments st))))
  \/ (exists i d,
        current_entry st = Some i /\ trimmed d
        /\ st' = Loop (alter_nth (add_detail d) i (accomplishments st)) (Some i)).
Proof.
  unfold process_line.
  destruct (strip raw) as [|c line] eqn:E; [left; reflexivity|].
  cbn [orb].
  destruct (startswith (lit "*") (c :: line)); [left; reflexivity|].
  destruct (first_match date_patterns (c :: line)) as [m|] eqn:Em.
  - destruct (strptime_ymd (group 1 m)) as [d|]; [|left; reflexivity].
    destruct (date_eqb d target_date).
    + right. right. left. exists m. repeat split. discriminate.
    + right. left. reflexivity.
  - destruct (current_entry st) as [i|] eqn:Ec; [|left; reflexivity].
    destruct (startswith (lit "-") (c :: line)); [|left; reflexivity].
    destruct (strip (tl (c :: line))) as [|x d] eqn:Ed; [left; reflexivity|].
    right. right. right. exists i, (x :: d). repeat split.
    + discriminate.
    + rewrite <- Ed. apply strip_rstripped.
Qed.

Lemma process_line_wf project_name target_date st raw :
  wf_state st -> wf_state (process_line project_name target_date st raw).
Proof.
  intros Hwf.
  destruct (process_line_cases project_name target_date st raw)
    as [->|[->|[[m [_ [_ ->]]]|[i [d [Ec [Hd ->]]]]]]];
    unfold wf_state in *; cbn [current_entry accomplishments]; auto.
  - rewrite length_app. cbn [length]. lia.
  - rewrite Ec in Hwf. rewrite length_alter_nth. exact Hwf.
Qed.

Lemma process_lines_wf project_name target_date lines : forall st,
  wf_state st -> wf_state (process_lines project_name target_date st lines).
Proof.
  unfold process_lines.
  induction lines as [|l lines IH]; intros st H; cbn [fold_left]; auto.
  apply IH. apply process_line_wf. exact H.
Qed.

(** The summary captured by a date pattern on a stripped line is not
    empty, even after trimming. *)
Lemma match_has_summary raw m :
  first_match date_patterns (strip raw) = Some m ->
  strip (strip (group 2 m)) <> [].
Proof.
  intros H. apply date_match_inv in H.
  destruct H as [x [g [e [E [Hg [He Eg2]]]]]]. rewrite Eg2. clear Eg2.
  pose proof (strip_rstripped raw) as Hr. rewrite E in Hr.
  destruct He as [->| ->].
  - rewrite app_nil_r in Hr.
    destruct (exists_last Hg) as [g' [z Eg]]. subst g.
    rewrite app_assoc in Hr. apply rstripped_last in Hr.
    assert (Hin : In z (strip (g' ++ [z]))).
    { apply In_strip; [|exact Hr]. apply in_or_app. right. left. reflexivity. }
    eapply strip_nonempty; eauto.
  - exfalso. rewrite !app_assoc in Hr. apply rstripped_last in Hr.
    discriminate.
Qed.

Lemma process_line_summaries project_name target_date st raw :
  Forall has_summary (accomplishments st) ->
  Forall has_summary
         (accomplishments (process_line project_name target_date st raw)).
Proof.
  intros H.
  destruct (process_line_cases project_name target_date st raw)
    as [->|[->|[[m [Hm [_ ->]]]|[i [d [Ec [Hd ->]]]]]]];
    cbn [accomplishments]; auto.
  - apply Forall_app. split; [exact H|].
    constructor; [|constructor].
    unfold has_summary. cbn [content]. eapply match_has_summary; eauto.
  - apply Forall_alter_nth; auto.
Qed.

Lemma process_lines_summaries project_name target_date lines : forall st,
  Forall has_summary (accomplishments st) ->
  Forall has_summary
         (accomplishments (process_lines project_name target_date st lines)).
Proof.
  unfold process_lines.
  induction lines as [|l lines IH]; intros st H; cbn [fold_left]; auto.
  apply IH. apply process_line_summaries. exact H.
Qed.

Lemma process_line_trimmed project_name target_date st raw :
  Forall trimmed_record (accomplishments st) ->
  Forall trimmed_record
         (accomplishments (process_line project_name target_date st raw)).
Proof.
  intros H.
  destruct (process_line_cases project_name target_date st raw)
    as [->|[->|[[m [Hm [_ ->]]]|[i [d [Ec [Hd ->]]]]]]];
    cbn [accomplishments]; auto.
  - apply Forall_app. split; [exact H|].
    constructor; [|constructor].
    split; cbn [content details]; [|constructor]. split.
    + intros E. apply (match_has_summary _ Hm). rewrite E. reflexivity.
    + apply strip_rstripped.
  - apply Forall_alter_nth; [|exact H].
    intros a [Hc Hds]. split; [exact Hc|]. cbn [add_detail details].
    apply Forall_app. split; [exact Hds|]. constructor; [exact Hd|constructor].
Qed.

(** Extraction leaves summaries and details trimmed and not empty. *)
Lemma parse_trimmed project_name file target_date :
  Forall trimmed_record
         (parse_accomplishments project_name file target_date).
Proof.
  unfold parse_accomplishments, parse_text.
  destruct file as [text|]; [|constructor].
  destruct (re_search recent_section_pattern text) as [m|]; [|constructor].
  unfold process_lines. generalize (split_lines (group 1 m)).
  assert (H : Forall trimmed_record (accomplishments (Loop [] None)))
    by constructor.
  revert H. generalize (Loop [] None).
  intros st H lines. revert st H.
  induction lines as [|l lines IH]; intros st H; cbn [fold_left]; auto.
  apply IH. apply process_line_trimmed. exact H.
Qed.

(** C9. Every record that extraction emits, for any input text (or an
    unreadable file) and any target date, has a summary that is not empty
    after trimming leading and trailing whitespace. *)
Theorem summary_nonempty_after_trimming project_name file target_date :
  Forall (fun a => strip (content a) <> [])
         (parse_accomplishments project_name file target_date).
Proof.
  unfold parse_accomplishments, parse_text.
  destruct file as [text|]; [|constructor].
  destruct (re_search recent_section_pattern text) as [m|]; [|constructor].
  apply (process_lines_summaries project_name target_date
           (split_lines (group 1 m)) (Loop [] None)).
  constructor.
Qed.

End LoopFacts.

(** ** Which record a detail line can reach *)
Module DetailFacts.
Import PyStr Re Parse Denote PyStrFacts ReFacts SectionFacts LineFacts
       DashFacts MatchFacts LoopFacts.

Lemma process_line_frozen project_name target_date k st raw :
  frozen k st ->
  frozen k (process_line project_name target_date st raw)
  /\ firstn k (accomplishments (process_line project_name target_date st raw))
     = firstn k (accomplishments st).
Proof.
  intros [Hk Hcur].
  destruct (process_line_cases project_name target_date st raw)
    as [->|[->|[[m [_ [_ ->]]]|[i [d [Ec [Hd ->]]]]]]];
    unfold frozen; cbn [current_entry accomplishments].
  - auto.
  - repeat split; auto. discriminate.
  - repeat split.
    + rewrite length_app. lia.
    + intros i Hi. injection Hi as <-. exact Hk.
    + rewrite firstn_app.
      replace (k - length (accomplishments st)) with 0 by lia.
      cbn [firstn]. apply app_nil_r.
  - repeat split.
    + rewrite length_alter_nth. exact Hk.
    + intros j Hj. injection Hj as <-. auto.
    + apply firstn_alter_nth. auto.
Qed.

Lemma process_lines_frozen project_name target_date k lines : forall st,
  frozen k st ->
  firstn k (accomplishments (process_lines project_name target_date st lines))
  = firstn k (accomplishments st).
Proof.
  unfold process_lines.
  induction lines as [|l lines IH]; intros st H; cbn [fold_left]; auto.
  destruct (process_line_frozen project_name target_date l H) as [H' E].
  rewrite IH; auto.
Qed.

(** A date line with a calendar date closes what was open: the state it
    leaves has every earlier record out of reach. *)
Lemma marker_valid_frozen project_name target_date st raw d :
  marker_date raw = Some (Some d) ->
  let st' := process_line project_name target_date st raw in
  frozen (length (accomplishments st)) st'
  /\ firstn (length (accomplishments st)) (accomplishments st')
     = accomplishments st.
Proof.
  unfold marker_date, process_line.
  destruct (strip raw) as [|c line]; cbn [orb]; [discriminate|].
  destruct (startswith (lit "*") (c :: line)); [discriminate|].
  destruct (first_match date_patterns (c :: line)) as [m|];
    cbn [option_map]; [|discriminate].
  intros H. injection H as H. rewrite H.
  destruct (date_eqb d target_date); unfold frozen;
    cbn [accomplishments current_entry].
  - repeat split.
    + rewrite length_app. lia.
    + intros i Hi. injection Hi as <-. lia.
    + rewrite firstn_app, Nat.sub_diag, firstn_all. apply app_nil_r.
  - repeat split; [lia|discriminate|apply firstn_all].
Qed.

(** A date line whose token is not a calendar date changes nothing: the
    record that was open stays open. *)
Lemma marker_invalid_unchanged project_name target_date st raw :
  marker_date raw = Some None ->
  process_line project_name target_date st raw = st.
Proof.
  unfold marker_date, process_line.
  destruct (strip raw) as [|c line]; cbn [orb]; [discriminate|].
  destruct (startswith (lit "*") (c :: line)); [discriminate|].
  destruct (first_match date_patterns (c :: line)) as [m|];
    cbn [option_map]; [|discriminate].
  intros H. injection H as H. rewrite H. reflexivity.
Qed.

(** C4, as amended. A date line whose token is a calendar date, equal to
    the target date or not, closes the record that was open: no later line
    of the section adds a detail to a record opened before it. *)
Theorem valid_date_line_closes_previous
    project_name target_date before marker after d :
  marker_date marker = Some (Some d) ->
  closes_previous project_name target_date before marker after.
Proof.
  intros Hm. unfold closes_previous.
  set (st1 := process_lines project_name target_date (Loop [] None) before).
  unfold process_lines. rewrite fold_left_app. cbn [fold_left].
  fold (process_lines project_name target_date (Loop [] None) before).
  fold st1.
  destruct (marker_valid_frozen project_name target_date st1 _ Hm) as [Hf E].
  fold (process_lines project_name target_date
          (process_line project_name target_date st1 marker) after).
  rewrite process_lines_frozen; auto.
Qed.

Lemma valid_date_line_closes_previous_witness :
  marker_date (lit "- 2025-01-16: B") = Some (Some (Date 2025 1 16))
  /\ closes_previous (lit "p") (Date 2025 1 15)
                     [lit "- 2025-01-15: A"] (lit "- 2025-01-16: B")
                     [lit "- late detail"].
Proof.
  split; [vm_compute; reflexivity|].
  apply (@valid_date_line_closes_previous
           (lit "p") (Date 2025 1 15) [lit "- 2025-01-15: A"]
           (lit "- 2025-01-16: B") [lit "- late detail"] (Date 2025 1 16)).
  vm_compute. reflexivity.
Defined.

(** C4, as stated, fails: a date line whose token is not a calendar date
    is a date-marker line, yet the record opened before it stays open and
    takes the detail line that follows. *)
Lemma invalid_date_line_keeps_record_open :
  marker_date (lit "- 2025-13-99: B") = Some None
  /\ ~ closes_previous (lit "p") (Date 2025 1 15)
                       [lit "- 2025-01-15: A"] (lit "- 2025-13-99: B")
                       [lit "- late detail"].
Proof.
  split; [vm_compute; reflexivity|].
  unfold closes_previous. vm_compute. discriminate.
Qed.

End DetailFacts.

(** ** Date lines and detail lines that start with a dash *)
Module EntryFacts.
Import PyStr Re Parse Denote PyStrFacts ReFacts SectionFacts LineFacts
       DashFacts MatchFacts LoopFacts.

Lemma space_not_digit c : is_space c = true -> is_digit c = false.
Proof.
  intros H. destruct (is_digit c) eqn:E; [|reflexivity].
  apply digit_not_space in E. congruence.
Qed.

Lemma space_not_star c : is_space c = true -> Ascii.eqb "*" c = false.
Proof.
  intros H. destruct (Ascii.eqb "*" c) eqn:E; [|reflexivity].
  apply Ascii.eqb_eq in E. subst. discriminate.
Qed.

Lemma digit_not_star c : is_digit c = true -> Ascii.eqb "*" c = false.
Proof.
  intros H. destruct (Ascii.eqb "*" c) eqn:E; [|reflexivity].
  apply Ascii.eqb_eq in E. subst. discriminate.
Qed.

Lemma rstripped_app a b : b <> [] -> rstripped b -> rstripped (a ++ b).
Proof.
  unfold rstripped. rewrite rev_app_distr. intros Hb.
  destruct (rev b) as [|c r] eqn:E; [|cbn [app]; auto].
  exfalso. apply Hb. rewrite <- (rev_involutive b), E. reflexivity.
Qed.

Lemma rstripped_token y1 y2 y3 y4 m1 m2 d1 d2 :
  is_digit d2 = true -> rstripped (token y1 y2 y3 y4 m1 m2 d1 d2).
Proof. intros H. unfold rstripped, token. cbn [rev app]. apply digit_not_space, H. Qed.

Lemma strip_id c x :
  is_space c = false -> rstripped (c :: x) -> strip (c :: x) = c :: x.
Proof.
  intros Hc Hr. apply strip_stripped; [exact Hr|].
  cbn [drop_while]. rewrite Hc. reflexivity.
Qed.

Lemma rstrip_nonempty s c : In c s -> is_space c = false -> rstrip s <> [].
Proof.
  intros Hin Hc E. unfold rstrip in E.
  apply (f_equal (@rev ascii)) in E. rewrite rev_involutive in E.
  cbn [rev] in E. revert E. apply drop_while_nonempty with (c := c); auto.
  apply in_rev in Hin. exact Hin.
Qed.

Lemma rstrip_cons c x :
  is_space c = false ->
  rstrip (c :: x) = c :: rstrip x.
Proof.
  intros Hc. change (c :: x) with ([c] ++ x).
  destruct (rstrip x) as [|a r] eqn:E.
  - unfold rstrip in *. rewrite rev_app_distr.
    apply (f_equal (@rev ascii)) in E. rewrite rev_involutive in E.
    cbn [rev] in E.
    destruct (drop_while_suffix is_space (rev x)) as [w [Ew Hw]].
    rewrite E, app_nil_r in Ew. rewrite Ew.
    cbn [rev app]. rewrite drop_while_app_stop by auto. reflexivity.
  - rewrite rstrip_app; [rewrite E; reflexivity|]. rewrite E. discriminate.
Qed.

Lemma no_newline_rstrip s : no_newline s -> no_newline (rstrip s).
Proof.
  unfold no_newline. rewrite !forallb_forall. intros H c Hc.
  apply H. destruct (rstrip_prefix s) as [w E]. rewrite E.
  apply in_or_app. left. exact Hc.
Qed.

(** Trimming on the left and on the right commute. *)
Lemma lstrip_rstrip s : lstrip (rstrip s) = strip s.
Proof.
  unfold strip, lstrip.
  destruct (drop_while_suffix is_space s) as [a [E Ha]].
  destruct (drop_while is_space s) as [|c x] eqn:Ed.
  - rewrite app_nil_r in E. subst a.
    assert (Hr : rstrip s = []).
    { unfold rstrip. rewrite drop_while_all; [reflexivity|].
      rewrite forallb_forall in *. intros y Hy. apply Ha.
      apply in_rev. exact Hy. }
    rewrite Hr. reflexivity.
  - pose proof (drop_while_head _ _ Ed) as Hc.
    rewrite E at 1. rewrite rstrip_app.
    + rewrite rstrip_cons by exact Hc.
      apply drop_while_app_stop; auto.
    + apply rstrip_nonempty with (c := c); [left; reflexivity|exact Hc].
Qed.

Lemma strip_idem s : strip (strip s) = strip s.
Proof.
  destruct (strip s) as [|c x] eqn:E; [reflexivity|].
  apply strip_id.
  - eapply strip_head; eauto.
  - rewrite <- E. apply strip_rstripped.
Qed.

(** The stripped text of a line [prefix ++ ": " ++ summary] whose prefix
    starts with a dash. *)
Lemma strip_entry a s :
  strip ("-"%char :: a ++ lit ": " ++ s)
  = "-"%char :: a ++ rstrip (lit ": " ++ s).
Proof.
  unfold strip, lstrip. cbn [drop_while].
  replace (is_space "-") with false by reflexivity.
  rewrite rstrip_cons by reflexivity. f_equal.
  apply rstrip_app.
  apply rstrip_nonempty with (c := ":"%char); [left|]; reflexivity.
Qed.

Lemma entry_tail s :
  let t := rstrip (lit ": " ++ s) in
  no_newline s ->
  no_newline t /\ rstripped t
  /\ exists g, summary_of_tail t = Some g
               /\ (strip s <> [] -> g = strip s).
Proof.
  intros t Hs. subst t. repeat split.
  - apply no_newline_rstrip. apply no_newline_app. split; [reflexivity|exact Hs].
  - apply rstrip_rstripped.
  - cbn [lit list_ascii_of_string app].
    rewrite rstrip_cons by reflexivity.
    cbn [summary_of_tail is_char]. replace (Ascii.eqb ":" ":") with true by reflexivity.
    destruct (rstrip (" "%char :: s)) as [|c x] eqn:E.
    + eexists. split; [reflexivity|].
      intros Hne. exfalso.
      destruct (strip s) as [|y ys] eqn:Ey; [congruence|].
      pose proof (strip_head _ Ey) as Hy.
      assert (Hin : In y (" "%char :: s)).
      { right. apply strip_In. rewrite Ey. left. reflexivity. }
      revert E. apply rstrip_nonempty with (c := y); auto.
    + eexists. split; [reflexivity|].
      intros Hne. rewrite <- E, lstrip_rstrip.
      unfold strip, lstrip. cbn [drop_while].
      replace (is_space " ") with true by reflexivity. reflexivity.
Qed.

End EntryFacts.

(** ** The two date patterns on dash lines with a date token *)
Module TokenFacts.
Import PyStr Re Parse Denote PyStrFacts ReFacts SectionFacts LineFacts
       DashFacts MatchFacts LoopFacts EntryFacts.

Section Token.

Variables y1 y2 y3 y4 m1 m2 d1 d2 : ascii.
Hypothesis digits :
  forallb is_digit [y1; y2; y3; y4; m1; m2; d1; d2] = true.

Local Abbreviation tok := (token y1 y2 y3 y4 m1 m2 d1 d2).

Variable w : str.
Hypothesis w_space : forallb is_space w = true.

Lemma digit_y1 : is_digit y1 = true.
Proof using digits.
  pose proof digits as H. rewrite forallb_forall in H.
  apply H. left. reflexivity.
Qed.

Lemma digit_d2 : is_digit d2 = true.
Proof using digits.
  pose proof digits as H. rewrite forallb_forall in H.
  apply H. do 7 right. left. reflexivity.
Qed.

Lemma plain_fails_space tail a : is_space a = true -> fails_at (plain_body tail) a.
Proof. intros H. apply plain_body_fails, space_not_digit, H. Qed.

Lemma emph_fails_space tail a : is_space a = true -> fails_at (emph_body tail) a.
Proof. intros H. apply emph_body_fails, space_not_star, H. Qed.

(** The plain-date pattern on [-], whitespace, token, tail. *)
Lemma plain_line_match t :
  no_newline t -> rstripped t ->
  rmatch plain_date_pattern (MState 0 ("-"%char :: w ++ tok ++ t) []) Some
  = match summary_of_tail t with
    | Some g => Some (MState (1 + length w + 10 + length t) []
                             [(2, g); (1, tok)])
    | None => None
    end.
Proof using digits w_space.
  intros Hn Hr. rewrite plain_split.
  unfold token at 1. cbn [app].
  rewrite dash_prefix; auto using plain_fails_space.
  - change (y1 :: y2 :: y3 :: y4 :: "-"%char :: m1 :: m2 :: "-"%char
               :: d1 :: d2 :: t)
      with (token y1 y2 y3 y4 m1 m2 d1 d2 ++ t).
    unfold plain_body. rewrite date_token_take by exact digits.
    rewrite tail_spec by assumption.
    destruct (summary_of_tail t); reflexivity.
  - apply digit_not_space, digit_y1.
  - apply plain_body_fails. reflexivity.
Qed.

(** The plain-date pattern fails on an emphasized date line. *)
Lemma plain_fails_on_emph x :
  rmatch plain_date_pattern (MState 0 ("-"%char :: w ++ lit "**" ++ x) []) Some
  = None.
Proof using w_space.
  rewrite plain_split. cbn [lit list_ascii_of_string app].
  rewrite dash_prefix;
    try (apply plain_body_fails; reflexivity);
    auto using plain_fails_space.
Qed.

(** The emphasized-date pattern on [-], whitespace, [**token**], tail. *)
Lemma emph_line_match t :
  no_newline t -> rstripped t ->
  rmatch emph_date_pattern
         (MState 0 ("-"%char :: w ++ lit "**" ++ tok ++ lit "**" ++ t) []) Some
  = match summary_of_tail t with
    | Some g => Some (MState (1 + length w + 2 + 10 + 2 + length t) []
                             [(2, g); (1, tok)])
    | None => None
    end.
Proof using digits w_space.
  intros Hn Hr. rewrite emph_split.
  change (lit "**" ++ tok ++ lit "**" ++ t)
    with ("*"%char :: "*"%char :: tok ++ lit "**" ++ t).
  rewrite dash_prefix; auto using emph_fails_space.
  - change ("*"%char :: "*"%char :: tok ++ lit "**" ++ t)
      with (lit "**" ++ tok ++ lit "**" ++ t).
    unfold emph_body. rewrite rmatch_str.
    rewrite date_token_take by exact digits.
    rewrite rmatch_str. rewrite tail_spec by assumption.
    destruct (summary_of_tail t); reflexivity.
  - apply emph_body_fails. reflexivity.
Qed.

(** Neither pattern matches [-], whitespace and a token with nothing
    after it. *)
Lemma bare_token_no_match :
  first_match date_patterns ("-"%char :: w ++ tok) = None.
Proof using digits w_space.
  unfold date_patterns, first_match, re_match.
  rewrite <- (app_nil_r tok).
  rewrite plain_line_match by (unfold no_newline, rstripped; auto; exact I).
  cbn [summary_of_tail option_map].
  rewrite emph_split. unfold token at 1. cbn [app].
  rewrite dash_prefix; auto using emph_fails_space.
  - rewrite emph_body_fails; [reflexivity|]. apply digit_not_star, digit_y1.
  - apply digit_not_space, digit_y1.
  - apply emph_body_fails. reflexivity.
Qed.

Lemma first_match_plain t g :
  no_newline t -> rstripped t -> summary_of_tail t = Some g ->
  exists m, first_match date_patterns ("-"%char :: w ++ tok ++ t) = Some m
            /\ group 1 m = tok /\ group 2 m = g.
Proof using digits w_space.
  intros Hn Hr Hg. unfold date_patterns, first_match, re_match.
  rewrite plain_line_match, Hg by assumption. cbn [option_map].
  eexists. split; [reflexivity|]. split; reflexivity.
Qed.

Lemma first_match_emph t g :
  no_newline t -> rstripped t -> summary_of_tail t = Some g ->
  exists m, first_match date_patterns
              ("-"%char :: w ++ lit "**" ++ tok ++ lit "**" ++ t) = Some m
            /\ group 1 m = tok /\ group 2 m = g.
Proof using digits w_space.
  intros Hn Hr Hg. unfold date_patterns, first_match, re_match.
  rewrite plain_fails_on_emph. cbn [option_map].
  rewrite emph_line_match, Hg by assumption. cbn [option_map].
  eexists. split; [reflexivity|]. split; reflexivity.
Qed.

End Token.

End TokenFacts.

(** ** Entries, details and skipped lines *)
Module EntryClaims.
Import PyStr Re Parse Denote PyStrFacts ReFacts SectionFacts LineFacts
       DashFacts MatchFacts LoopFacts EntryFacts TokenFacts.

Lemma process_date_line project_name target_date st raw c line m :
  strip raw = c :: line ->
  startswith (lit "*") (c :: line) = false ->
  first_match date_patterns (c :: line) = Some m ->
  process_line project_name target_date st raw
  = date_step project_name target_date st (group 1 m) (group 2 m).
Proof.
  intros E Hs Hm. unfold process_line, date_step.
  rewrite E, Hs, Hm. reflexivity.
Qed.

Lemma process_detail_line project_name target_date st raw line c d :
  strip raw = "-"%char :: line ->
  first_match date_patterns ("-"%char :: line) = None ->
  strip line = c :: d ->
  process_line project_name target_date st raw = detail_step st (c :: d).
Proof.
  intros E Hm Hd. unfold process_line, detail_step.
  rewrite E, Hm. cbn [tl].  rewrite Hd.
  destruct (current_entry st); reflexivity.
Qed.

(** A line that is blank or starts with neither a dash nor a digit leaves
    the loop state as it was. *)
Lemma process_quiet_line project_name target_date st raw :
  quiet raw = true -> process_line project_name target_date st raw = st.
Proof.
  unfold quiet, process_line.
  destruct (strip raw) as [|c line] eqn:E; [reflexivity|].
  intros H. apply andb_true_iff in H. destruct H as [Hd Hn].
  apply negb_true_iff in Hd. apply negb_true_iff in Hn. unfold is_char in Hd.
  cbn [orb].
  destruct (startswith (lit "*") (c :: line)) eqn:Hs; [reflexivity|].
  destruct (first_match date_patterns (c :: line)) as [m|] eqn:Em.
  - exfalso. apply date_match_head in Em; [|eapply strip_head; eauto].
    destruct Em as [->|[Hdig| ->]]; try discriminate. congruence.
  - cbn [startswith lit list_ascii_of_string]. rewrite Hd. cbn [andb].
    destruct (current_entry st); reflexivity.
Qed.

Lemma process_quiet_lines project_name target_date lines : forall st,
  forallb quiet lines = true ->
  process_lines project_name target_date st lines = st.
Proof.
  unfold process_lines.
  induction lines as [|l lines IH]; intros st H; cbn [fold_left]; auto.
  cbn [forallb] in H. apply andb_true_iff in H. destruct H as [Hl H].
  rewrite process_quiet_line by exact Hl. auto.
Qed.

(** A line that opens no record leaves a state with nothing open as it
    was. *)
Lemma process_line_nothing_open project_name target_date accs raw :
  opens_record target_date raw = false ->
  process_line project_name target_date (Loop accs None) raw = Loop accs None.
Proof.
  unfold opens_record, marker_date, process_line.
  destruct (strip raw) as [|c line]; [reflexivity|]. cbn [orb].
  destruct (startswith (lit "*") (c :: line)); [reflexivity|].
  destruct (first_match date_patterns (c :: line)) as [m|];
    cbn [option_map current_entry]; [|reflexivity].
  destruct (strptime_ymd (group 1 m)) as [d|]; [|reflexivity].
  intros ->. reflexivity.
Qed.

Lemma process_lines_nothing_open project_name target_date accs lines :
  forallb (fun l => negb (opens_record target_date l)) lines = true ->
  process_lines project_name target_date (Loop accs None) lines
  = Loop accs None.
Proof.
  unfold process_lines.
  induction lines as [|l lines IH]; intros H; cbn [fold_left]; auto.
  cbn [forallb] in H. apply andb_true_iff in H. destruct H as [Hl H].
  apply negb_true_iff in Hl.
  rewrite process_line_nothing_open by exact Hl. auto.
Qed.

(** With a record open, a line that opens none either closes it or, when
    it is no detail line, changes nothing. *)
Lemma process_line_open project_name target_date accs i raw :
  opens_record target_date raw = false ->
  process_line project_name target_date (Loop accs (Some i)) raw
  = if closes_record raw then Loop accs None
    else if detail_shaped raw
         then detail_step (Loop accs (Some i)) (strip (tl (strip raw)))
         else Loop accs (Some i).
Proof.
  unfold opens_record, closes_record, detail_shaped, marker_date,
    process_line, detail_step.
  destruct (strip raw) as [|c line]; [reflexivity|]. cbn [orb].
  destruct (startswith (lit "*") (c :: line)); [reflexivity|]. cbn [negb andb].
  destruct (first_match date_patterns (c :: line)) as [m|];
    cbn [option_map current_entry accomplishments].
  - destruct (strptime_ymd (group 1 m)) as [d|]; [|reflexivity].
    intros ->. reflexivity.
  - intros _. destruct (startswith (lit "-") (c :: line)); [|reflexivity].
    cbn [andb]. destruct (strip (tl (c :: line))); reflexivity.
Qed.

Lemma process_lines_no_detail project_name target_date accs i lines :
  forallb (fun l => negb (opens_record target_date l)) lines = true ->
  no_detail_until_closed lines = true ->
  accomplishments
    (process_lines project_name target_date (Loop accs (Some i)) lines)
  = accs.
Proof.
  unfold process_lines.
  induction lines as [|l lines IH]; intros H Hn; cbn [fold_left];
    [reflexivity|].
  cbn [forallb] in H. apply andb_true_iff in H. destruct H as [Hl H].
  apply negb_true_iff in Hl. cbn [no_detail_until_closed] in Hn.
  rewrite process_line_open by exact Hl.
  destruct (closes_record l).
  - fold (process_lines project_name target_date (Loop accs None) lines).
    rewrite process_lines_nothing_open by exact H. reflexivity.
  - cbn [orb] in Hn. apply andb_true_iff in Hn. destruct Hn as [Hd Hn].
    apply negb_true_iff in Hd. rewrite Hd. auto.
Qed.

(** C1, as amended. When the Recent Accomplishments section of a log text
    holds the line [- 2025-01-15: did X], no other line of the section is a
    date line for 2025-01-15, and no detail line (a line that starts with a
    dash and is not a date line) comes between that line and the next date
    line with a calendar date, extraction with target date 2025-01-15
    yields exactly one record, with summary [did X] and no details. *)
Theorem single_entry_extracted project_name text m before after :
  let target_date := Date 2025 1 15 in
  re_search recent_section_pattern text = Some m ->
  split_lines (group 1 m) = before ++ lit "- 2025-01-15: did X" :: after ->
  forallb (fun l => negb (opens_record target_date l)) (before ++ after)
  = true ->
  no_detail_until_closed after = true ->
  parse_accomplishments project_name (Some text) target_date
  = [Acc project_name (lit "2025-01-15") (lit "did X") []].
Proof.
  intros target_date Hm Hl Hq Hn. unfold parse_accomplishments, parse_text.
  rewrite Hm, Hl. rewrite forallb_app in Hq.
  apply andb_true_iff in Hq. destruct Hq as [Hb Ha].
  unfold process_lines. rewrite fold_left_app. cbn [fold_left].
  fold (process_lines project_name target_date (Loop [] None) before).
  rewrite process_lines_nothing_open by exact Hb.
  change (process_line project_name target_date (Loop [] None)
            (lit "- 2025-01-15: did X"))
    with (Loop [Acc project_name (lit "2025-01-15") (lit "did X") []] (Some 0)).
  match goal with
  | |- accomplishments (fold_left ?f after ?s) = _ =>
      change (fold_left f after s)
        with (process_lines project_name target_date s after)
  end.
  apply process_lines_no_detail; assumption.
Qed.

Lemma single_entry_extracted_witness :
  parse_accomplishments (lit "proj")
    (Some (lit ("# Proj" ++ nl ++ "## Recent Accomplishments" ++ nl ++ nl
                ++ "*Log major tasks*" ++ nl ++ nl
                ++ "- 2025-01-14: the day before" ++ nl
                ++ "  - with a detail" ++ nl
                ++ "- 2025-01-15: did X" ++ nl ++ nl
                ++ "- 2025-01-16: the day after" ++ nl
                ++ "  - another detail" ++ nl
                ++ "## Guidelines" ++ nl ++ "- Date in YYYY-MM-DD format")))
    (Date 2025 1 15)
  = [Acc (lit "proj") (lit "2025-01-15") (lit "did X") []].
Proof.
  eapply (@single_entry_extracted (lit "proj") _ _
            [lit "*Log major tasks*"; []; lit "- 2025-01-14: the day before";
             lit "  - with a detail"]
            [[]; lit "- 2025-01-16: the day after";
             lit "  - another detail"]).
  - vm_compute. reflexivity.
  - vm_compute. reflexivity.
  - vm_compute. reflexivity.
  - vm_compute. reflexivity.
Defined.

(** C1, as stated, fails: the section holds the line, yet the record has a
    detail, taken from the line that follows. *)
Lemma entry_with_detail_line :
  let text := lit ("## Recent Accomplishments" ++ nl
                   ++ "- 2025-01-15: did X" ++ nl ++ "  - with a detail") in
  (exists m, re_search recent_section_pattern text = Some m
             /\ In (lit "- 2025-01-15: did X") (split_lines (group 1 m)))
  /\ parse_accomplishments (lit "proj") (Some text) (Date 2025 1 15)
     = [Acc (lit "proj") (lit "2025-01-15") (lit "did X")
            [lit "with a detail"]].
Proof.
  split.
  - eexists. split; [vm_compute; reflexivity|].
    vm_compute. left. reflexivity.
  - vm_compute. reflexivity.
Qed.

(** C10, as amended. A section line made of a dash, whitespace and a date
    token with nothing after it matches neither date pattern; it opens no
    record and closes none, and when a record is open the token is added
    to that record's details. *)
Theorem bare_date_token_is_detail
    project_name target_date st w y1 y2 y3 y4 m1 m2 d1 d2 :
  forallb is_digit [y1; y2; y3; y4; m1; m2; d1; d2] = true ->
  forallb is_space w = true ->
  let tok := token y1 y2 y3 y4 m1 m2 d1 d2 in
  let line := "-"%char :: w ++ tok in
  first_match date_patterns (strip line) = None
  /\ process_line project_name target_date st line = detail_step st tok.
Proof.
  intros Hd Hw tok line.
  assert (Hr : rstripped tok) by (apply rstripped_token; eapply digit_d2; eauto).
  assert (Es : strip line = line).
  { apply strip_id; [reflexivity|].
    subst line. change ("-"%char :: w ++ tok) with (("-"%char :: w) ++ tok).
    apply rstripped_app; [discriminate|exact Hr]. }
  assert (Em : first_match date_patterns line = None)
    by (apply bare_token_no_match; assumption).
  split; [rewrite Es; exact Em|].
  apply process_detail_line with (line := w ++ tok); auto.
  unfold strip, lstrip. subst tok. unfold token.
  rewrite drop_while_app_stop;
    [|exact Hw|apply digit_not_space; eapply digit_y1; eauto].
  apply rstripped_rstrip. exact Hr.
Qed.

Lemma bare_date_token_is_detail_witness :
  let open := Loop [Acc (lit "p") (lit "2025-01-15") (lit "A") []] (Some 0) in
  first_match date_patterns (strip (lit "- 2025-01-15")) = None
  /\ process_line (lit "p") (Date 2025 1 15) open (lit "- 2025-01-15")
     = Loop [Acc (lit "p") (lit "2025-01-15") (lit "A") [lit "2025-01-15"]]
            (Some 0).
Proof.
  apply (@bare_date_token_is_detail (lit "p") (Date 2025 1 15)
           (Loop [Acc (lit "p") (lit "2025-01-15") (lit "A") []] (Some 0))
           [" "%char] "2" "0" "2" "5" "0" "1" "1" "5").
  - reflexivity.
  - reflexivity.
Defined.

(** C10, as stated, fails for a token followed by a colon: the line is a
    date line with summary [:], and it opens a record. *)
Lemma date_colon_line_opens_record :
  first_match date_patterns (strip (lit "- 2025-01-15:")) <> None
  /\ process_line (lit "p") (Date 2025 1 15)
       (Loop [Acc (lit "p") (lit "2025-01-15") (lit "A") []] (Some 0))
       (lit "- 2025-01-15:")
     = Loop [Acc (lit "p") (lit "2025-01-15") (lit "A") [];
             Acc (lit "p") (lit "2025-01-15") (lit ":") []]
            (Some 1).
Proof.
  split; [vm_compute; discriminate|vm_compute; reflexivity].
Qed.

(** C3, as amended. A section line [**YYYY-MM-DD**: summary] without the
    leading dash starts with a star and is skipped like a comment line: it
    emits no record and leaves the loop state as it was.  With its leading
    dash, and a token that is a calendar date equal to the target date,
    the line emits a record with that token and the trimmed summary. *)
Theorem emphasized_date_needs_dash
    project_name target_date st y1 y2 y3 y4 m1 m2 d1 d2 s d :
  let tok := token y1 y2 y3 y4 m1 m2 d1 d2 in
  forallb is_digit [y1; y2; y3; y4; m1; m2; d1; d2] = true ->
  no_newline s -> strip s <> [] ->
  strptime_ymd tok = Some d -> date_eqb d target_date = true ->
  process_line project_name target_date st (lit "**" ++ tok ++ lit "**: " ++ s)
  = st
  /\ process_line project_name target_date st
       (lit "- **" ++ tok ++ lit "**: " ++ s)
     = Loop (accomplishments st ++ [Acc project_name tok (strip s) []])
            (Some (length (accomplishments st))).
Proof.
  intros tok Hd Hn Hs Hv Hq. split.
  - unfold process_line.
    assert (E : exists x, strip (lit "**" ++ tok ++ lit "**: " ++ s)
                          = "*"%char :: x).
    { unfold strip, lstrip. cbn [lit list_ascii_of_string app drop_while].
      replace (is_space "*") with false by reflexivity.
      rewrite rstrip_cons by reflexivity. eexists. reflexivity. }
    destruct E as [x ->]. reflexivity.
  - destruct (entry_tail Hn) as [Ht1 [Ht2 [g [Hg Hg']]]].
    specialize (Hg' Hs). subst g.
    destruct (@first_match_emph y1 y2 y3 y4 m1 m2 d1 d2 Hd [" "%char] eq_refl
                _ _ Ht1 Ht2 Hg) as [m [Hm [G1 G2]]].
    rewrite process_date_line
      with (c := "-"%char)
           (line := [" "%char] ++ lit "**" ++ tok ++ lit "**"
                    ++ rstrip (lit ": " ++ s)) (m := m).
    + rewrite G1, G2. unfold date_step. fold tok. rewrite Hv, Hq.
      rewrite strip_idem. reflexivity.
    + change (strip ("-"%char :: (" "%char :: lit "**" ++ tok ++ lit "**")
                               ++ lit ": " ++ s)
              = "-"%char :: (" "%char :: lit "**" ++ tok ++ lit "**")
                            ++ rstrip (lit ": " ++ s)).
      apply strip_entry.
    + reflexivity.
    + exact Hm.
Qed.

Lemma emphasized_date_needs_dash_witness :
  let st := Loop [] None in
  process_line (lit "p") (Date 2025 1 15) st (lit "**2025-01-15**: released v2")
  = st
  /\ process_line (lit "p") (Date 2025 1 15) st
       (lit "- **2025-01-15**: released v2")
     = Loop [Acc (lit "p") (lit "2025-01-15") (lit "released v2") []] (Some 0).
Proof.
  apply (@emphasized_date_needs_dash (lit "p") (Date 2025 1 15) (Loop [] None)
           "2" "0" "2" "5" "0" "1" "1" "5" (lit "released v2")
           (Date 2025 1 15)).
  - reflexivity.
  - reflexivity.
  - vm_compute. discriminate.
  - reflexivity.
  - reflexivity.
Defined.

(** C3, as stated, fails: the emphasized date without its dash, with the
    target date, emits no record. *)
Lemma emphasized_date_without_dash_skipped :
  parse_accomplishments (lit "p")
    (Some (lit ("## Recent Accomplishments" ++ nl
                ++ "**2025-01-15**: released v2")))
    (Date 2025 1 15)
  = [].
Proof. vm_compute. reflexivity. Qed.

End EntryClaims.

(** ** Replacing one line of a text by another *)
Module ReplaceFacts.
Import PyStr Re Parse Denote PyStrFacts ReFacts SectionFacts LineFacts
       DashFacts MatchFacts LoopFacts EntryFacts TokenFacts EntryClaims.

Lemma find_section_body heading s : forall n,
  option_map (group 1) (find_section heading n s) = section_body heading s.
Proof.
  induction s as [|c s IH]; intros n; cbn [find_section section_body];
    destruct (section_at heading _) as [[g len]|]; auto.
Qed.

Lemma parse_text_section_body project_name text target_date :
  parse_text project_name text target_date
  = match section_body (lit "## Recent Accomplishments") text with
    | Some g =>
        accomplishments
          (process_lines project_name target_date (Loop [] None)
                         (split_lines g))
    | None => []
    end.
Proof.
  unfold parse_text, re_search.
  change recent_section_pattern
    with (section_regex (lit "## Recent Accomplishments")).
  rewrite search_section, <- (find_section_body _ text 0).
  destruct (find_section _ 0 text); reflexivity.
Qed.

Lemma line_start_tail c s : line_start (c :: s) -> line_start s.
Proof.
  intros [H|[s0 H]]; [discriminate|].
  destruct s0 as [|a s0]; cbn [app] in H; injection H as -> ->.
  - left. reflexivity.
  - right. exists s0. reflexivity.
Qed.

Lemma line_start_suffix a s : line_start (a ++ s) -> line_start s.
Proof.
  induction a as [|c a IH]; cbn [app]; auto.
  intros H. apply IH. eapply line_start_tail; eauto.
Qed.

Lemma line_start_single c : line_start [c] -> c = newline.
Proof.
  intros [H|[s0 H]]; [discriminate|].
  destruct s0 as [|a [|b s0]]; cbn [app] in H; try discriminate.
  injection H as ->. reflexivity.
Qed.

(** A heading without newline is found in front of [p ++ x], where a line
    starts after [p], exactly when it is found in front of [p]. *)
Lemma strip_prefix_line_start h : forall p x,
  no_newline h -> p <> [] -> line_start p ->
  strip_prefix h (p ++ x) = option_map (fun r => r ++ x) (strip_prefix h p).
Proof.
  induction h as [|a h IH]; intros p x Hh Hp Hl.
  - destruct p; reflexivity.
  - destruct p as [|c p]; [congruence|]. cbn [app strip_prefix].
    destruct (Ascii.eqb a c) eqn:E; [|reflexivity].
    apply Ascii.eqb_eq in E. subst c.
    pose proof (no_newline_tail Hh) as Hh'.
    destruct p as [|c' p].
    + apply line_start_single in Hl. subst a. discriminate.
    + apply IH; [exact Hh'|discriminate|eapply line_start_tail; eauto].
Qed.

Lemma ws_newline_app r c x :
  is_space c = false ->
  ws_newline (r ++ c :: x) = option_map (fun q => q ++ c :: x) (ws_newline r).
Proof.
  intros Hc. induction r as [|a r IH]; cbn [app ws_newline].
  - rewrite Hc. reflexivity.
  - destruct (is_space a); [|reflexivity].
    rewrite IH. destruct (ws_newline r); cbn [option_map]; [reflexivity|].
    destruct (Ascii.eqb a newline); reflexivity.
Qed.

Lemma startswith_boundary_app q c x :
  q <> [] -> line_start q -> Ascii.eqb "#" c = false ->
  startswith boundary (q ++ c :: x) = startswith boundary q.
Proof.
  intros Hq Hl Hc. unfold boundary. cbn [lit list_ascii_of_string].
  destruct q as [|c1 [|c2 [|c3 q]]]; [congruence| | |].
  - apply line_start_single in Hl. subst c1.
    cbn [app startswith]. rewrite Hc. rewrite andb_false_r. reflexivity.
  - apply line_start_tail, line_start_single in Hl. subst c2.
    cbn [app startswith].
    replace (Ascii.eqb "#" newline) with false by reflexivity.
    reflexivity.
  - cbn [app startswith]. reflexivity.
Qed.

Lemma until_boundary_app q c x :
  line_start q -> Ascii.eqb "#" c = false ->
  until_boundary (q ++ c :: x)
  = if has_boundary q then until_boundary q
    else q ++ until_boundary (c :: x).
Proof.
  intros Hl Hc. induction q as [|a q IH]; [reflexivity|].
  cbn [has_boundary]. cbn [app until_boundary].
  change (newline :: lit "##") with boundary.
  change (a :: q ++ c :: x) with ((a :: q) ++ c :: x).
  rewrite startswith_boundary_app; [|discriminate|exact Hl|exact Hc].
  destruct (startswith boundary (a :: q)); [reflexivity|].
  cbn [orb]. rewrite IH by (eapply line_start_tail; eauto).
  destruct (has_boundary q); reflexivity.
Qed.

Lemma until_boundary_no_newline u post :
  no_newline u -> until_boundary (u ++ post) = u ++ until_boundary post.
Proof.
  induction u as [|c u IH]; intros H; [reflexivity|].
  cbn [app until_boundary startswith].
  pose proof (no_newline_tail H) as H'.
  unfold no_newline in H. cbn [forallb] in H.
  apply andb_true_iff in H. destruct H as [Hc _].
  rewrite Ascii.eqb_sym, (not_newline_neq _ Hc). cbn [andb].
  rewrite IH by exact H'. reflexivity.
Qed.

Lemma until_boundary_line_end post :
  line_end post -> line_end (until_boundary post).
Proof.
  intros [->|[s0 ->]]; [left; reflexivity|].
  cbn [until_boundary].
  destruct (startswith (newline :: lit "##") (newline :: s0)).
  - left. reflexivity.
  - right. eexists. reflexivity.
Qed.

Section Replace.

(** The heading, which starts with [#] and stays on one line. *)
Variable h' : str.
Local Abbreviation h := ("#"%char :: h').
Hypothesis h_line : no_newline h.

(** What follows the replaced part of the line, and the text after the
    line. *)
Variables t post : str.
Hypothesis t_line : no_newline t.
Hypothesis post_end : line_end post.

(** The section body found in [p ++ a ++ t ++ post], where [a] starts the
    line: one step of the search, with [p] not empty. *)
Lemma section_body_step c0 a c p :
  is_space c0 = false -> Ascii.eqb "#" c0 = false -> no_newline (c0 :: a) ->
  line_start (c :: p) ->
  section_body h ((c :: p) ++ (c0 :: a) ++ t ++ post)
  = match strip_prefix h (c :: p) with
    | Some r =>
        match ws_newline r with
        | Some q =>
            Some (if has_boundary q then until_boundary q
                  else q ++ ((c0 :: a) ++ t) ++ until_boundary post)
        | None => section_body h (p ++ (c0 :: a) ++ t ++ post)
        end
    | None => section_body h (p ++ (c0 :: a) ++ t ++ post)
    end.
Proof using h_line t_line.
  intros Hs Hh Ha Hl.
  change ((c :: p) ++ (c0 :: a) ++ t ++ post)
    with (c :: (p ++ (c0 :: a) ++ t ++ post)).
  cbn [section_body]. unfold section_at.
  change (c :: (p ++ (c0 :: a) ++ t ++ post))
    with ((c :: p) ++ c0 :: (a ++ t ++ post)).
  rewrite strip_prefix_line_start; [|exact h_line|discriminate|exact Hl].
  destruct (strip_prefix h (c :: p)) as [r|] eqn:Er; cbn [option_map];
    [|reflexivity].
  rewrite ws_newline_app by exact Hs.
  destruct (ws_newline r) as [q|] eqn:Eq; cbn [option_map]; [|reflexivity].
  f_equal.
  assert (Hq : line_start q).
  { apply strip_prefix_some in Er.
    destruct (ws_newline_suffix _ Eq) as [w [Ew _]].
    rewrite Er, Ew, app_assoc in Hl. eapply line_start_suffix; eauto. }
  rewrite until_boundary_app by assumption.
  destruct (has_boundary q); [reflexivity|]. f_equal.
  change (c0 :: a ++ t ++ post) with ((c0 :: a) ++ t ++ post).
  rewrite app_assoc. apply until_boundary_no_newline.
  apply no_newline_app. split; assumption.
Qed.

(** The search does not start inside a text without [#]. *)
Lemma section_body_skip a y :
  forallb (fun c => negb (Ascii.eqb "#" c)) a = true ->
  section_body h (a ++ y) = section_body h y.
Proof using Type.
  induction a as [|c a IH]; intros H; [reflexivity|].
  cbn [forallb] in H. apply andb_true_iff in H. destruct H as [Hc H].
  apply negb_true_iff in Hc.
  cbn [app section_body]. unfold section_at. cbn [strip_prefix].
  rewrite Hc. auto.
Qed.

Variables c1 c2 : ascii.
Variables a1 a2 : str.
Hypothesis c1_space : is_space c1 = false.
Hypothesis c2_space : is_space c2 = false.
Hypothesis a1_hash : forallb (fun c => negb (Ascii.eqb "#" c)) (c1 :: a1) = true.
Hypothesis a2_hash : forallb (fun c => negb (Ascii.eqb "#" c)) (c2 :: a2) = true.
Hypothesis a1_line : no_newline (c1 :: a1).
Hypothesis a2_line : no_newline (c2 :: a2).

Lemma hash_head c a :
  forallb (fun c => negb (Ascii.eqb "#" c)) (c :: a) = true ->
  Ascii.eqb "#" c = false.
Proof using Type.
  cbn [forallb]. intros H. apply andb_true_iff in H.
  destruct H as [H _]. apply negb_true_iff in H. exact H.
Qed.

(** Replacing the start of one line changes the section body, if at all,
    in that line only. *)
Lemma section_body_replace pre :
  line_start pre ->
  same_but_line ((c1 :: a1) ++ t) ((c2 :: a2) ++ t)
    (section_body h (pre ++ (c1 :: a1) ++ t ++ post))
    (section_body h (pre ++ (c2 :: a2) ++ t ++ post)).
Proof using h_line t_line post_end c1_space c2_space a1_hash a2_hash
            a1_line a2_line.
  induction pre as [|c p IH]; intros Hl.
  - left. cbn [app].
    change (c1 :: a1 ++ t ++ post) with ((c1 :: a1) ++ t ++ post).
    change (c2 :: a2 ++ t ++ post) with ((c2 :: a2) ++ t ++ post).
    rewrite (@section_body_skip (c1 :: a1)) by assumption.
    rewrite (@section_body_skip (c2 :: a2)) by assumption. reflexivity.
  - rewrite !section_body_step;
      try assumption; try (eapply hash_head; eassumption).
    pose proof (IH (line_start_tail Hl)) as IH'.
    destruct (strip_prefix h (c :: p)) as [r|] eqn:Er; [|exact IH'].
    destruct (ws_newline r) as [q|] eqn:Eq; [|exact IH'].
    destruct (has_boundary q); [left; reflexivity|].
    right. exists q, (until_boundary post). repeat split.
    + apply strip_prefix_some in Er.
      destruct (ws_newline_suffix _ Eq) as [w [Ew _]].
      rewrite Er, Ew, app_assoc in Hl. eapply line_start_suffix; eauto.
    + apply until_boundary_line_end. exact post_end.
Qed.

End Replace.

Lemma split_acc_app cur a b :
  split_acc cur (a ++ newline :: b) = split_acc cur a ++ split_lines b.
Proof.
  revert cur. induction a as [|c a IH]; intros cur; cbn [app split_acc].
  - rewrite Ascii.eqb_refl. reflexivity.
  - destruct (Ascii.eqb c newline); [|apply IH].
    cbn [app]. f_equal. apply IH.
Qed.

Lemma split_acc_line cur l : no_newline l -> split_acc cur l = [rev cur ++ l].
Proof.
  revert cur. induction l as [|c l IH]; intros cur H; cbn [split_acc].
  - rewrite app_nil_r. reflexivity.
  - pose proof (no_newline_tail H) as H'.
    unfold no_newline in H. cbn [forallb] in H.
    apply andb_true_iff in H. destruct H as [Hc _].
    rewrite (not_newline_neq _ Hc). rewrite IH by exact H'.
    cbn [rev]. rewrite <- app_assoc. reflexivity.
Qed.

Lemma split_lines_app a b :
  split_lines (a ++ newline :: b) = split_lines a ++ split_lines b.
Proof. apply split_acc_app. Qed.

Lemma split_lines_line l : no_newline l -> split_lines l = [l].
Proof. intros H. apply (split_acc_line [] H). Qed.

(** The lines of a text around one of its lines. *)
Lemma split_lines_around q u :
  line_start q -> line_end u ->
  exists bq bu, forall l,
    no_newline l -> split_lines (q ++ l ++ u) = bq ++ l :: bu.
Proof.
  intros [->|[q0 ->]] [->|[u0 ->]].
  - exists [], []. intros l Hl. cbn [app]. rewrite app_nil_r.
    apply split_lines_line, Hl.
  - exists [], (split_lines u0). intros l Hl. cbn [app].
    rewrite split_lines_app, (split_lines_line Hl). reflexivity.
  - exists (split_lines q0), []. intros l Hl.
    rewrite app_nil_r, <- app_assoc. cbn [app].
    rewrite split_lines_app, (split_lines_line Hl). reflexivity.
  - exists (split_lines q0), (split_lines u0). intros l Hl.
    rewrite <- app_assoc. cbn [app].
    rewrite split_lines_app, split_lines_app, (split_lines_line Hl).
    reflexivity.
Qed.

End ReplaceFacts.

(** ** The two emphasis styles *)
Module EmphasisClaims.
Import PyStr Re Parse Denote PyStrFacts ReFacts SectionFacts LineFacts
       DashFacts MatchFacts LoopFacts EntryFacts TokenFacts EntryClaims
       ReplaceFacts.

Section Styles.

Variables y1 y2 y3 y4 m1 m2 d1 d2 : ascii.
Hypothesis digits :
  forallb is_digit [y1; y2; y3; y4; m1; m2; d1; d2] = true.

Local Abbreviation tok := (token y1 y2 y3 y4 m1 m2 d1 d2).

Variable s : str.
Hypothesis s_line : no_newline s.

Lemma process_emph_entry project_name target_date st g :
  summary_of_tail (rstrip (lit ": " ++ s)) = Some g ->
  process_line project_name target_date st
               (lit "- **" ++ tok ++ lit "**: " ++ s)
  = date_step project_name target_date st tok g.
Proof using digits s_line.
  intros Hg. destruct (entry_tail s_line) as [Ht1 [Ht2 _]].
  destruct (@first_match_emph y1 y2 y3 y4 m1 m2 d1 d2 digits [" "%char]
              eq_refl _ _ Ht1 Ht2 Hg) as [m [Hm [G1 G2]]].
  rewrite process_date_line
    with (c := "-"%char)
         (line := [" "%char] ++ lit "**" ++ tok ++ lit "**"
                  ++ rstrip (lit ": " ++ s)) (m := m).
  - rewrite G1, G2. reflexivity.
  - change (strip ("-"%char :: (" "%char :: lit "**" ++ tok ++ lit "**")
                             ++ lit ": " ++ s)
            = "-"%char :: (" "%char :: lit "**" ++ tok ++ lit "**")
                          ++ rstrip (lit ": " ++ s)).
    apply strip_entry.
  - reflexivity.
  - exact Hm.
Qed.

Lemma process_plain_entry project_name target_date st g :
  summary_of_tail (rstrip (lit ": " ++ s)) = Some g ->
  process_line project_name target_date st (lit "- " ++ tok ++ lit ": " ++ s)
  = date_step project_name target_date st tok g.
Proof using digits s_line.
  intros Hg. destruct (entry_tail s_line) as [Ht1 [Ht2 _]].
  destruct (@first_match_plain y1 y2 y3 y4 m1 m2 d1 d2 digits [" "%char]
              eq_refl _ _ Ht1 Ht2 Hg) as [m [Hm [G1 G2]]].
  rewrite process_date_line
    with (c := "-"%char)
         (line := [" "%char] ++ tok ++ rstrip (lit ": " ++ s)) (m := m).
  - rewrite G1, G2. reflexivity.
  - change (strip ("-"%char :: (" "%char :: tok) ++ lit ": " ++ s)
            = "-"%char :: (" "%char :: tok) ++ rstrip (lit ": " ++ s)).
    apply strip_entry.
  - reflexivity.
  - exact Hm.
Qed.

(** The two lines do the same to every loop state. *)
Lemma emphasis_same_step project_name target_date st :
  process_line project_name target_date st
               (lit "- **" ++ tok ++ lit "**: " ++ s)
  = process_line project_name target_date st
                 (lit "- " ++ tok ++ lit ": " ++ s).
Proof using digits s_line.
  destruct (entry_tail s_line) as [_ [_ [g [Hg _]]]].
  rewrite (process_emph_entry _ _ _ Hg), (process_plain_entry _ _ _ Hg).
  reflexivity.
Qed.

Lemma digit_facts c :
  is_digit c = true ->
  negb (Ascii.eqb "#" c) = true /\ not_newline c = true.
Proof using Type.
  intros H. split.
  - destruct (Ascii.eqb "#" c) eqn:E; [|reflexivity].
    apply Ascii.eqb_eq in E. subst. discriminate.
  - apply not_space_not_newline, digit_not_space, H.
Qed.

Lemma token_facts :
  forallb (fun c => negb (Ascii.eqb "#" c)) tok = true /\ no_newline tok.
Proof using digits.
  pose proof digits as H. cbn [forallb] in H.
  repeat (apply andb_true_iff in H; destruct H as [?H H]).
  repeat match goal with
         | Hd : is_digit _ = true |- _ => apply digit_facts in Hd; destruct Hd
         end.
  unfold no_newline, token. cbn [forallb].
  repeat match goal with
         | Hd : _ = true |- _ => rewrite Hd; clear Hd
         end.
  split; reflexivity.
Qed.

End Styles.

(** C6. For every date token D and summary text S, a log text with the
    line [- **D**: S] yields the same records as the text with that line
    replaced by [- D: S]. *)
Theorem emphasis_styles_parse_identically
    project_name target_date pre post y1 y2 y3 y4 m1 m2 d1 d2 s :
  let tok := token y1 y2 y3 y4 m1 m2 d1 d2 in
  forallb is_digit [y1; y2; y3; y4; m1; m2; d1; d2] = true ->
  no_newline s -> line_start pre -> line_end post ->
  parse_accomplishments project_name
    (Some (pre ++ (lit "- **" ++ tok ++ lit "**: " ++ s) ++ post)) target_date
  = parse_accomplishments project_name
      (Some (pre ++ (lit "- " ++ tok ++ lit ": " ++ s) ++ post)) target_date.
Proof.
  intros tok Hd Hs Hpre Hpost. unfold parse_accomplishments.
  rewrite !parse_text_section_body.
  destruct (@token_facts y1 y2 y3 y4 m1 m2 d1 d2 Hd) as [Hhash Hline].
  fold tok in Hhash, Hline.
  assert (Ht : no_newline (lit ": " ++ s))
    by (apply no_newline_app; split; [reflexivity|exact Hs]).
  pose proof (@section_body_replace (lit "# Recent Accomplishments")
                eq_refl (lit ": " ++ s) post Ht Hpost
                "-"%char "-"%char
                (lit " **" ++ tok ++ lit "**") (lit " " ++ tok)
                eq_refl eq_refl) as R.
  assert (H1 : forallb (fun c => negb (Ascii.eqb "#" c))
                       ("-"%char :: lit " **" ++ tok ++ lit "**") = true).
  { change ("-"%char :: lit " **" ++ tok ++ lit "**")
      with (lit "- **" ++ tok ++ lit "**").
    rewrite !forallb_app, Hhash. reflexivity. }
  assert (H2 : forallb (fun c => negb (Ascii.eqb "#" c))
                       ("-"%char :: lit " " ++ tok) = true).
  { change ("-"%char :: lit " " ++ tok) with (lit "- " ++ tok).
    rewrite forallb_app, Hhash. reflexivity. }
  assert (H3 : no_newline ("-"%char :: lit " **" ++ tok ++ lit "**")).
  { change ("-"%char :: lit " **" ++ tok ++ lit "**")
      with (lit "- **" ++ tok ++ lit "**").
    apply no_newline_app. split; [reflexivity|].
    apply no_newline_app. split; [exact Hline|reflexivity]. }
  assert (H4 : no_newline ("-"%char :: lit " " ++ tok)).
  { change ("-"%char :: lit " " ++ tok) with (lit "- " ++ tok).
    apply no_newline_app. split; [reflexivity|exact Hline]. }
  specialize (R H1 H2 H3 H4 pre Hpre).
  assert (E1 : pre ++ (lit "- **" ++ tok ++ lit "**: " ++ s) ++ post
               = pre ++ ("-"%char :: lit " **" ++ tok ++ lit "**")
                     ++ (lit ": " ++ s) ++ post).
  { reflexivity. }
  assert (E2 : pre ++ (lit "- " ++ tok ++ lit ": " ++ s) ++ post
               = pre ++ ("-"%char :: lit " " ++ tok)
                     ++ (lit ": " ++ s) ++ post).
  { reflexivity. }
  rewrite E1, E2.
  change (lit "## Recent Accomplishments")
    with ("#"%char :: lit "# Recent Accomplishments").
  destruct R as [->|[q [u [Hq [Hu [-> ->]]]]]]; [reflexivity|].
  destruct (split_lines_around Hq Hu) as [bq [bu Hsplit]].
  rewrite !Hsplit;
    try (apply no_newline_app; split; assumption).
  unfold process_lines. rewrite !fold_left_app. cbn [fold_left].
  f_equal. f_equal.
  assert (L1 : ("-"%char :: lit " **" ++ tok ++ lit "**") ++ lit ": " ++ s
               = lit "- **" ++ tok ++ lit "**: " ++ s).
  { reflexivity. }
  assert (L2 : ("-"%char :: lit " " ++ tok) ++ lit ": " ++ s
               = lit "- " ++ tok ++ lit ": " ++ s).
  { reflexivity. }
  rewrite L1, L2. apply emphasis_same_step; assumption.
Qed.

Lemma emphasis_styles_parse_identically_witness :
  parse_accomplishments (lit "p")
    (Some (lit ("## Recent Accomplishments" ++ nl)
           ++ (lit "- **" ++ token "2" "0" "2" "5" "0" "1" "1" "5"
               ++ lit "**: " ++ lit "released v2")
           ++ lit (nl ++ "  - tagged")))
    (Date 2025 1 15)
  = parse_accomplishments (lit "p")
      (Some (lit ("## Recent Accomplishments" ++ nl)
             ++ (lit "- " ++ token "2" "0" "2" "5" "0" "1" "1" "5"
                 ++ lit ": " ++ lit "released v2")
             ++ lit (nl ++ "  - tagged")))
      (Date 2025 1 15).
Proof.
  apply (@emphasis_styles_parse_identically (lit "p") (Date 2025 1 15)
           (lit ("## Recent Accomplishments" ++ nl)) (lit (nl ++ "  - tagged"))
           "2" "0" "2" "5" "0" "1" "1" "5" (lit "released v2")).
  - reflexivity.
  - reflexivity.
  - right. exists (lit "## Recent Accomplishments"). reflexivity.
  - right. exists (lit "  - tagged"). reflexivity.
Defined.

End EmphasisClaims.

(** ** Merging the section into an existing note *)
Module MergeClaims.
Import PyStr Re Parse Daily Denote PyStrFacts ReFacts SectionFacts LineFacts
       ReplaceFacts.

Lemma until_boundary_split r :
  until_boundary r ++ skipn (length (until_boundary r)) r = r
  /\ (skipn (length (until_boundary r)) r = []
      \/ startswith boundary (skipn (length (until_boundary r)) r) = true).
Proof.
  induction r as [|c r [IH1 IH2]]; [split; [reflexivity|left; reflexivity]|].
  cbn [until_boundary]. change (newline :: lit "##") with boundary.
  destruct (startswith boundary (c :: r)) eqn:E.
  - split; [reflexivity|right; exact E].
  - cbn [length skipn app]. split; [f_equal; exact IH1|exact IH2].
Qed.

Lemma section_at_inv heading s g len :
  section_at heading s = Some (g, len) ->
  exists w r, s = heading ++ w ++ r /\ ws_newline (w ++ r) = Some r
              /\ g = until_boundary r
              /\ len = length heading + length w + length g.
Proof.
  unfold section_at.
  destruct (strip_prefix heading s) as [s1|] eqn:E1; [|discriminate].
  destruct (ws_newline s1) as [r|] eqn:E2; [|discriminate].
  intros H. injection H as <- <-.
  apply strip_prefix_some in E1.
  destruct (ws_newline_suffix _ E2) as [w [Ew _]].
  exists w, r. subst s s1. repeat split; auto.
  rewrite !length_app. lia.
Qed.

Lemma find_section_inv heading s0 : forall n0 m,
  find_section heading n0 s0 = Some m ->
  exists a s g len,
    s0 = a ++ s /\ section_at heading s = Some (g, len)
    /\ m_start m = n0 + length a /\ m_end m = n0 + length a + len.
Proof.
  induction s0 as [|c s0 IH]; intros n0 m; cbn [find_section].
  - destruct (section_at heading []) as [[g len]|] eqn:E; [|discriminate].
    intros H. injection H as <-. exists [], [], g, len.
    cbn [app length m_start m_end m_final pos]. repeat split; auto; lia.
  - destruct (section_at heading (c :: s0)) as [[g len]|] eqn:E.
    + intros H. injection H as <-. exists [], (c :: s0), g, len.
      cbn [app length m_start m_end m_final pos]. repeat split; auto; lia.
    + intros H. apply IH in H.
      destruct H as [a [s [g [len [-> [Hs [H1 H2]]]]]]].
      exists (c :: a), s, g, len. cbn [app length].
      repeat split; auto; lia.
Qed.

(** What a merge into an existing section keeps: the text in front of the
    match and the text after it, which is empty or starts with the [\n##]
    of a later heading; the text between them starts with the heading. *)
Theorem update_existing_frame content section_content m :
  re_search section_pattern content = Some m ->
  exists before region after,
    content = before ++ region ++ after
    /\ update_existing content section_content
       = before ++ full_section section_content ++ after
    /\ startswith section_header region = true
    /\ (after = [] \/ startswith boundary after = true).
Proof.
  intros Hm. unfold update_existing. rewrite Hm.
  unfold re_search in Hm.
  change section_pattern with (section_regex section_header) in Hm.
  rewrite search_section in Hm. apply find_section_inv in Hm.
  destruct Hm as [a [s [g [len [-> [Hs [H1 H2]]]]]]].
  apply section_at_inv in Hs. destruct Hs as [w [r [-> [_ [-> ->]]]]].
  destruct (until_boundary_split r) as [Hr Hb].
  exists a, (section_header ++ w ++ until_boundary r),
         (skipn (length (until_boundary r)) r).
  cbn [Nat.add] in H1, H2. rewrite H1, H2. repeat split.
  - rewrite <- !app_assoc. rewrite Hr. reflexivity.
  - rewrite firstn_app, Nat.sub_diag, firstn_all. cbn [firstn].
    rewrite app_nil_r. f_equal. f_equal.
    rewrite skipn_app.
    rewrite skipn_all2 by lia.
    replace (length a + (length section_header + length w
                         + length (until_boundary r)) - length a)
      with (length (until_boundary r) + length (section_header ++ w))
      by (rewrite length_app; lia).
    rewrite <- skipn_skipn. rewrite app_assoc.
    rewrite skipn_app, Nat.sub_diag, skipn_all. reflexivity.
  - exact Hb.
Qed.

Lemma find_section_here heading s g len n :
  section_at heading s = Some (g, len) ->
  find_section heading n s
  = Some (MatchObj n (MState (n + len) (skipn len s) [(1, g)])).
Proof. intros H. destruct s; cbn [find_section]; rewrite H; reflexivity. Qed.

Lemma find_section_skip heading pre rest : forall n,
  no_match_before heading pre rest = true ->
  find_section heading n (pre ++ rest)
  = find_section heading (n + length pre) rest.
Proof.
  unfold no_match_before.
  induction pre as [|c pre IH]; intros n H.
  - cbn [app length]. rewrite Nat.add_0_r. reflexivity.
  - cbn [length seq forallb] in H. apply andb_true_iff in H.
    destruct H as [H0 H]. cbn [skipn] in H0.
    cbn [app find_section].
    change (c :: pre ++ rest) with ((c :: pre) ++ rest).
    destruct (section_at heading ((c :: pre) ++ rest)); [discriminate|].
    rewrite IH.
    + cbn [length]. f_equal. lia.
    + rewrite forallb_forall in *. intros i Hi.
      apply (H (S i)). rewrite <- seq_shift. apply in_map. exact Hi.
Qed.

(** The leading whitespace of a section that has text belongs to the text
    in front of the boundary. *)
Lemma until_boundary_ws w r :
  forallb is_space w = true ->
  existsb (fun c => negb (is_space c)) (until_boundary (w ++ r)) = true ->
  until_boundary (w ++ r) = w ++ until_boundary r.
Proof.
  induction w as [|c w IH]; intros Hw Hx; [reflexivity|].
  cbn [forallb] in Hw. apply andb_true_iff in Hw. destruct Hw as [Hc Hw].
  cbn [app until_boundary] in *.
  change (newline :: lit "##") with boundary in *.
  destruct (startswith boundary (c :: w ++ r)); [discriminate|].
  cbn [existsb] in Hx. rewrite Hc in Hx. cbn [negb orb] in Hx.
  rewrite IH by assumption. reflexivity.
Qed.

(** C2 where the section has text. When the note is [pre], the heading and
    [s1], with no match of the search inside [pre], the heading line ending
    in [s1], and some text in [s1] in front of the next [\n##] (or the end
    of the note), the merge replaces the heading and the text up to there
    and keeps [pre] and everything from [\n##] on. *)
Theorem section_with_text_replaced_exactly pre s1 r section_content :
  no_match_before section_header pre (section_header ++ s1) = true ->
  ws_newline s1 = Some r ->
  existsb (fun c => negb (is_space c)) (until_boundary s1) = true ->
  update_existing (pre ++ section_header ++ s1) section_content
  = pre ++ full_section section_content
        ++ skipn (length (until_boundary s1)) s1.
Proof.
  intros Hpre Hr Htext.
  destruct (ws_newline_suffix _ Hr) as [w [Ew Hw]].
  assert (Hub : until_boundary s1 = w ++ until_boundary r)
    by (rewrite Ew in *; apply until_boundary_ws; assumption).
  assert (Hat : section_at section_header (section_header ++ s1)
                = Some (until_boundary r,
                        length section_header + length w
                        + length (until_boundary r))).
  { unfold section_at. rewrite strip_prefix_app, Hr. f_equal. f_equal.
    rewrite Ew, !length_app. lia. }
  unfold update_existing, re_search.
  change section_pattern with (section_regex section_header).
  rewrite search_section, find_section_skip by exact Hpre.
  rewrite (@find_section_here _ _ _ _ (0 + length pre) Hat).
  cbn [m_start m_end m_final pos Nat.add].
  rewrite firstn_app, Nat.sub_diag, firstn_all. cbn [firstn].
  rewrite app_nil_r. f_equal. f_equal.
  rewrite skipn_app. rewrite skipn_all2 by lia. cbn [app].
  replace (length pre + (length section_header + length w
                         + length (until_boundary r)) - length pre)
    with (length (until_boundary s1) + length section_header)
    by (rewrite Hub, length_app; lia).
  rewrite <- skipn_skipn.
  rewrite skipn_app, Nat.sub_diag, skipn_all. reflexivity.
Qed.

Example section_with_text_replaced_instance :
  update_existing
    (lit ("# 2025-01-15" ++ nl) ++ section_header
     ++ lit ("  " ++ nl ++ nl ++ "old text" ++ nl ++ "## Other Notes" ++ nl))
    (lit "BODY")
  = lit ("# 2025-01-15" ++ nl) ++ full_section (lit "BODY")
    ++ lit (nl ++ "## Other Notes" ++ nl).
Proof.
  apply (@section_with_text_replaced_exactly
           (lit ("# 2025-01-15" ++ nl))
           (lit ("  " ++ nl ++ nl ++ "old text" ++ nl ++ "## Other Notes" ++ nl))
           (lit ("old text" ++ nl ++ "## Other Notes" ++ nl)) (lit "BODY"));
    vm_compute; reflexivity.
Qed.

(** C2 at an empty section. The note holds the heading, a blank line, and
    then the next section: the search takes the newline in front of
    [## Other Notes] for the end of the heading line, so the region
    replaced runs to the end of the note and the next section is lost. *)
Theorem empty_section_swallows_next_heading :
  update_existing
    (lit ("# 2025-01-15" ++ nl ++ "## Development Work" ++ nl ++ nl
          ++ "## Other Notes" ++ nl ++ "keep this" ++ nl))
    (lit "BODY")
  = lit ("# 2025-01-15" ++ nl ++ "## Development Work" ++ nl ++ nl ++ "BODY").
Proof. vm_compute. reflexivity. Qed.

(** With text in the section the same note keeps its next section. *)
Example section_with_text_replaced :
  update_existing
    (lit ("# 2025-01-15" ++ nl ++ "## Development Work" ++ nl ++ "old text"
          ++ nl ++ "## Other Notes" ++ nl ++ "keep this" ++ nl))
    (lit "BODY")
  = lit ("# 2025-01-15" ++ nl ++ "## Development Work" ++ nl ++ nl ++ "BODY"
         ++ nl ++ "## Other Notes" ++ nl ++ "keep this" ++ nl).
Proof. vm_compute. reflexivity. Qed.

Lemma last_app_cons {A} (l : list A) x l' d :
  last (l ++ x :: l') d = last (x :: l') d.
Proof.
  induction l as [|a l IH]; [reflexivity|].
  cbn [app]. rewrite <- IH.
  destruct (l ++ x :: l') eqn:E; [destruct l; discriminate|reflexivity].
Qed.

Lemma split_lines_nonempty s : split_lines s <> [].
Proof.
  unfold split_lines. generalize (@nil ascii).
  induction s as [|c s IH]; intros cur; cbn [split_acc]; [discriminate|].
  destruct (Ascii.eqb c newline); [discriminate|apply IH].
Qed.

(** The lines of a text that continues after a first part. *)
Lemma drop_final_empty_app (l : list str) s :
  drop_final_empty (l ++ split_lines s) = l ++ text_lines s.
Proof.
  unfold text_lines, drop_final_empty.
  destruct (split_lines s) as [|x ls] eqn:E;
    [exfalso; eapply split_lines_nonempty; eauto|].
  rewrite last_app_cons, removelast_app by discriminate.
  destruct (last (x :: ls) (lit "x")); reflexivity.
Qed.

Lemma split_acc_nonempty cur s : split_acc cur s <> [].
Proof.
  revert cur. induction s as [|c s IH]; intros cur; cbn [split_acc];
    [discriminate|].
  destruct (Ascii.eqb c newline); [discriminate|apply IH].
Qed.

(** The last line of a text that does not end with a newline is not
    empty. *)
Lemma last_line_nonempty s c cur d :
  Ascii.eqb c newline = false -> last (split_acc cur (s ++ [c])) d <> [].
Proof.
  intros Hc. revert cur. induction s as [|x s IH]; intros cur.
  - cbn [app split_acc]. rewrite Hc. cbn [split_acc last rev].
    destruct (rev cur); discriminate.
  - cbn [app split_acc]. destruct (Ascii.eqb x newline); [|apply IH].
    pose proof (split_acc_nonempty [] (s ++ [c])) as Hne.
    specialize (IH []).
    destruct (split_acc [] (s ++ [c])) as [|y ys]; [congruence|].
    exact IH.
Qed.

Lemma endswith_newline s :
  endswith [newline] s = true -> exists s0, s = s0 ++ [newline].
Proof.
  unfold endswith. cbn [rev app]. intros H.
  destruct (rev s) as [|c r] eqn:E; [discriminate|].
  cbn [startswith] in H. apply andb_true_iff in H. destruct H as [H _].
  apply Ascii.eqb_eq in H. subst c.
  exists (rev r). rewrite <- (rev_involutive s), E. reflexivity.
Qed.

Lemma not_endswith_newline s :
  s <> [] -> endswith [newline] s = false ->
  exists s0 c, s = s0 ++ [c] /\ Ascii.eqb c newline = false.
Proof.
  intros Hs H. destruct (exists_last Hs) as [s0 [c ->]].
  exists s0, c. split; [reflexivity|].
  unfold endswith in H. rewrite rev_app_distr in H.
  cbn [rev app startswith] in H. rewrite andb_true_r in H.
  rewrite Ascii.eqb_sym. exact H.
Qed.

Lemma text_lines_terminated s0 :
  text_lines (s0 ++ [newline]) = split_lines s0.
Proof.
  unfold text_lines, drop_final_empty.
  rewrite split_lines_app. change (split_lines []) with [@nil ascii].
  rewrite last_app_cons. cbn [last].
  rewrite removelast_app by discriminate. cbn [removelast].
  apply app_nil_r.
Qed.

Lemma text_lines_unterminated s0 c :
  Ascii.eqb c newline = false ->
  text_lines (s0 ++ [c]) = split_lines (s0 ++ [c]).
Proof.
  intros Hc. unfold text_lines, drop_final_empty.
  pose proof (@last_line_nonempty s0 c [] (lit "x") Hc) as H.
  fold (split_lines (s0 ++ [c])) in H.
  destruct (last (split_lines (s0 ++ [c])) (lit "x")); congruence.
Qed.

(** C5, as amended. For every note file that is not empty and in which
    the section search finds nothing, merging keeps the whole text, puts
    the heading and the rendered body at its end, and the lines of the
    result are the lines of the old text, one blank line, then the lines of
    the new section. *)
Theorem append_section_when_absent content section_content :
  content <> [] ->
  re_search section_pattern content = None ->
  (exists sep,
      update_existing content section_content
      = content ++ sep ++ full_section section_content)
  /\ text_lines (update_existing content section_content)
     = text_lines content ++ [] :: text_lines (full_section section_content).
Proof.
  intros Hne Hs. unfold update_existing. rewrite Hs.
  destruct (endswith [newline] content) eqn:E.
  - split; [exists [newline]; reflexivity|].
    apply endswith_newline in E. destruct E as [s0 ->].
    rewrite text_lines_terminated.
    unfold text_lines at 1. cbn [app].
    rewrite split_lines_app, split_lines_app.
    change (split_lines []) with [@nil ascii].
    rewrite drop_final_empty_app, <- app_assoc. reflexivity.
  - split; [exists [newline; newline]; rewrite <- app_assoc; reflexivity|].
    destruct (not_endswith_newline Hne E) as [s0 [c [-> Hc]]].
    rewrite (@text_lines_unterminated s0 c Hc).
    unfold text_lines at 1. cbn [app].
    rewrite split_lines_app, split_lines_app.
    change (split_lines []) with [@nil ascii].
    rewrite drop_final_empty_app, <- app_assoc. reflexivity.
Qed.

Lemma append_section_when_absent_witness :
  (exists sep,
      update_existing (lit ("# 2025-01-15" ++ nl ++ "notes")) (lit "BODY")
      = lit ("# 2025-01-15" ++ nl ++ "notes") ++ sep
        ++ full_section (lit "BODY"))
  /\ text_lines
       (update_existing (lit ("# 2025-01-15" ++ nl ++ "notes")) (lit "BODY"))
     = text_lines (lit ("# 2025-01-15" ++ nl ++ "notes"))
       ++ [] :: text_lines (full_section (lit "BODY")).
Proof.
  apply (@append_section_when_absent
           (lit ("# 2025-01-15" ++ nl ++ "notes")) (lit "BODY")).
  - vm_compute. discriminate.
  - vm_compute. reflexivity.
Defined.

(** C5, as stated, fails for an empty note: two blank lines come before
    the heading, where the old text, one blank line and the section are
    expected. *)
Lemma empty_note_gets_two_blank_lines :
  re_search section_pattern [] = None
  /\ text_lines (update_existing [] (lit "BODY"))
     = [[]; []; lit "## Development Work"; []; lit "BODY"]
  /\ text_lines [] ++ [] :: text_lines (full_section (lit "BODY"))
     = [[]; lit "## Development Work"; []; lit "BODY"].
Proof. repeat split; vm_compute; reflexivity. Qed.

End MergeClaims.

(** ** The run as a whole *)
Module RunClaims.
Import PyStr Re Parse Daily Run.

Section Script.

Variable script_dir : path.
Variable json_vault_path : str -> option (option str).
Variable strptime_arg : str -> option date.
Variable today : date.
Variable run_accomplishment_parser : date -> M (list accomplishment).

Local Abbreviation get_config := (get_config script_dir json_vault_path).
Local Abbreviation main :=
  (main script_dir json_vault_path strptime_arg today
        run_accomplishment_parser).
Local Abbreviation configured_vault :=
  (configured_vault script_dir json_vault_path).

Local Abbreviation config_result :=
  (config_result script_dir json_vault_path).

(** Reading the configuration changes nothing. *)
Lemma get_config_spec w :
  get_config w = (config_result (fs w) (OBSIDIAN_VAULT_PATH w), w).
Proof using Type.
  unfold Run.get_config, Run.config_result, bind, path_exists, read_file,
    ret, raise.
  destruct (fs w (config_file script_dir)) as [[|text]|] eqn:E;
    rewrite ?E; try reflexivity.
  destruct (json_vault_path text) as [[v|]|]; reflexivity.
Qed.




End Script.


End RunClaims.

(** ** Grouping and ordering the records *)
Module GroupFacts.
Import PyStr Re Parse Daily Denote PyStrFacts.

Lemma str_eqb_eq a b : str_eqb a b = true <-> a = b.
Proof.
  unfold str_eqb. destruct (list_eq_dec ascii_dec a b); split; congruence.
Qed.

Lemma str_eqb_neq a b : str_eqb a b = false <-> a <> b.
Proof.
  unfold str_eqb. destruct (list_eq_dec ascii_dec a b); split; congruence.
Qed.

Lemma str_eqb_refl a : str_eqb a a = true.
Proof. apply str_eqb_eq. reflexivity. Qed.

Lemma code_inj x y : code x = code y -> x = y.
Proof.
  unfold code. intros H.
  rewrite <- (ascii_nat_embedding x), <- (ascii_nat_embedding y), H.
  reflexivity.
Qed.

(** The order on project names is strict, total and transitive. *)
Lemma str_ltb_irrefl a : str_ltb a a = false.
Proof.
  induction a as [|x a IH]; cbn [str_ltb]; [reflexivity|].
  rewrite Nat.ltb_irrefl. exact IH.
Qed.

Lemma str_ltb_total a : forall b,
  str_ltb a b = false -> a <> b -> str_ltb b a = true.
Proof.
  induction a as [|x a IH]; intros [|y b]; cbn [str_ltb]; intros H Hne;
    try congruence.
  destruct (code x <? code y) eqn:E1; [discriminate|].
  destruct (code y <? code x) eqn:E2; [reflexivity|].
  apply Nat.ltb_ge in E1. apply Nat.ltb_ge in E2.
  assert (x = y) by (apply code_inj; lia). subst y.
  apply IH; [exact H|congruence].
Qed.

Lemma str_ltb_trans a : forall b c,
  str_ltb a b = true -> str_ltb b c = true -> str_ltb a c = true.
Proof.
  induction a as [|x a IH]; intros [|y b] [|z c]; cbn [str_ltb];
    try congruence.
  destruct (code x <? code y) eqn:E1.
  - apply Nat.ltb_lt in E1. intros _.
    destruct (code y <? code z) eqn:E2.
    + apply Nat.ltb_lt in E2. intros _.
      replace (code x <? code z) with true
        by (symmetry; apply Nat.ltb_lt; lia). reflexivity.
    + destruct (code z <? code y) eqn:E3; [discriminate|].
      apply Nat.ltb_ge in E2. apply Nat.ltb_ge in E3. intros _.
      replace (code x <? code z) with true
        by (symmetry; apply Nat.ltb_lt; lia). reflexivity.
  - destruct (code y <? code x) eqn:E1'; [discriminate|].
    apply Nat.ltb_ge in E1. apply Nat.ltb_ge in E1'.
    assert (code x = code y) as Exy by lia. rewrite Exy. intros Hab.
    destruct (code y <? code z); [reflexivity|].
    destruct (code z <? code y); [discriminate|].
    apply IH. exact Hab.
Qed.

Lemma records_of_app accs accs' p :
  records_of (accs ++ accs') p = records_of accs p ++ records_of accs' p.
Proof. apply filter_app. Qed.

Lemma records_of_absent seen p :
  ~ In p (map project seen) -> records_of seen p = [].
Proof.
  unfold records_of. induction seen as [|a seen IH]; cbn [map filter];
    [reflexivity|].
  intros H. destruct (str_eqb (project a) p) eqn:E.
  - apply str_eqb_eq in E. exfalso. apply H. left. exact E.
  - apply IH. intros Hin. apply H. right. exact Hin.
Qed.

Lemma add_to_project_keys acc projects :
  map fst (add_to_project acc projects)
  = if existsb (fun k => str_eqb k (project acc)) (map fst projects)
    then map fst projects
    else map fst projects ++ [project acc].
Proof.
  induction projects as [|[p l] projects IH]; cbn [add_to_project map existsb];
    [reflexivity|].
  cbn [fst]. destruct (str_eqb p (project acc)) eqn:E; cbn [orb map fst].
  - reflexivity.
  - rewrite IH. destruct (existsb _ (map fst projects)); reflexivity.
Qed.

Lemma existsb_key k keys :
  existsb (fun k' => str_eqb k' k) keys = true <-> In k keys.
Proof.
  rewrite existsb_exists. split.
  - intros [x [Hin E]]. apply str_eqb_eq in E. subst. exact Hin.
  - intros H. exists k. split; [exact H|apply str_eqb_refl].
Qed.

Lemma add_to_project_In acc projects p l :
  NoDup (map fst projects) ->
  In (p, l) (add_to_project acc projects) ->
  (p <> project acc /\ In (p, l) projects)
  \/ (p = project acc
      /\ ((exists l0, In (p, l0) projects /\ l = l0 ++ [acc])
          \/ (~ In p (map fst projects) /\ l = [acc]))).
Proof.
  induction projects as [|[q lq] projects IH]; cbn [add_to_project map fst].
  - intros _ [H|[]]. injection H as <- <-. right. split; [reflexivity|].
    right. split; [intros []|reflexivity].
  - intros Hnd Hin. inversion Hnd as [|k ks Hq Hnd']; subst.
    destruct (str_eqb q (project acc)) eqn:E.
    + apply str_eqb_eq in E. subst q.
      destruct Hin as [H|H].
      * injection H as <- <-. right. split; [reflexivity|]. left.
        exists lq. split; [left; reflexivity|reflexivity].
      * left. split; [|right; exact H].
        intros ->. apply Hq. apply in_map_iff. exists (project acc, l).
        split; [reflexivity|exact H].
    + apply str_eqb_neq in E. destruct Hin as [H|H].
      * injection H as <- <-. left. split; [exact E|left; reflexivity].
      * destruct (IH Hnd' H) as [[Hne Hin]|[-> [[l0 [Hin ->]]|[Hnot ->]]]].
        -- left. split; [exact Hne|right; exact Hin].
        -- right. split; [reflexivity|]. left. exists l0.
           split; [right; exact Hin|reflexivity].
        -- right. split; [reflexivity|]. right. split; [|reflexivity].
           intros [Heq|Hin]; [congruence|contradiction].
Qed.

(** Adding a record keeps the dict grouped. *)
Lemma add_to_project_grouped seen projects acc :
  grouped seen projects ->
  grouped (seen ++ [acc]) (add_to_project acc projects).
Proof.
  intros [Hnd [Hrec Hkey]]. repeat split.
  - rewrite add_to_project_keys.
    destruct (existsb _ (map fst projects)) eqn:E; [exact Hnd|].
    apply NoDup_app; [exact Hnd|constructor; [intros []|constructor]|].
    intros k Hin [<-|[]].
    apply existsb_key in Hin. congruence.
  - apply add_to_project_In in H; [|exact Hnd].
    rewrite records_of_app. unfold records_of at 2. cbn [filter].
    destruct H as [[Hne Hin]|[-> [[l0 [Hin ->]]|[Hnot ->]]]].
    + destruct (str_eqb (project acc) p) eqn:E;
        [apply str_eqb_eq in E; congruence|].
      rewrite app_nil_r. apply (Hrec p l Hin).
    + rewrite str_eqb_refl. f_equal. apply (Hrec _ _ Hin).
    + rewrite str_eqb_refl. rewrite records_of_absent; [reflexivity|].
      intros Hin. apply Hnot. apply in_map_iff in Hin.
      destruct Hin as [a [<- Ha]]. apply Hkey. exact Ha.
  - apply add_to_project_In in H; [|exact Hnd].
    destruct H as [[Hne Hin]|[-> [[l0 [Hin ->]]|[Hnot ->]]]].
    + apply (Hrec p l Hin).
    + destruct l0; discriminate.
    + discriminate.
  - intros a Hin. rewrite add_to_project_keys.
    apply in_app_or in Hin. destruct Hin as [Hin|[<-|[]]].
    + destruct (existsb _ (map fst projects));
        [|apply in_or_app; left]; apply Hkey; exact Hin.
    + destruct (existsb _ (map fst projects)) eqn:E.
      * apply existsb_key in E. exact E.
      * apply in_or_app. right. left. reflexivity.
Qed.

Lemma group_by_project_grouped accs :
  grouped accs (group_by_project accs).
Proof.
  unfold group_by_project.
  assert (H : forall seen projects,
             grouped seen projects ->
             grouped (seen ++ accs)
                     (fold_left (fun ps a => add_to_project a ps) accs projects)).
  { induction accs as [|a accs IH]; intros seen projects Hg; cbn [fold_left].
    - rewrite app_nil_r. exact Hg.
    - replace (seen ++ a :: accs) with ((seen ++ [a]) ++ accs)
        by (rewrite <- app_assoc; reflexivity).
      apply IH. apply add_to_project_grouped. exact Hg. }
  apply (H [] []). split; [constructor|]. split.
  - intros p l [].
  - intros a [].
Qed.

End GroupFacts.

(** ** Sorting the groups *)
Module SortFacts.
Import PyStr Re Parse Daily Denote PyStrFacts GroupFacts.

Lemma insert_item_perm it l : Permutation (insert_item it l) (it :: l).
Proof.
  induction l as [|x l IH]; cbn [insert_item]; [reflexivity|].
  destruct (str_ltb (fst x) (fst it)); [|reflexivity].
  rewrite IH. apply perm_swap.
Qed.

Lemma sorted_items_perm l : Permutation (sorted_items l) l.
Proof.
  induction l as [|x l IH]; cbn [sorted_items fold_right]; [reflexivity|].
  fold (sorted_items l). rewrite insert_item_perm. constructor. exact IH.
Qed.

Lemma insert_item_sorted it l :
  StronglySorted by_key l ->
  (forall x, In x l -> fst x <> fst it) ->
  StronglySorted by_key (insert_item it l).
Proof.
  induction l as [|x l IH]; cbn [insert_item]; intros Hs Hne.
  - constructor; constructor.
  - inversion Hs as [|y ys Hs' Hall]; subst.
    destruct (str_ltb (fst x) (fst it)) eqn:E.
    + constructor.
      * apply IH; [exact Hs'|]. intros y Hy. apply Hne. right. exact Hy.
      * rewrite Forall_forall in *. intros y Hy.
        apply (Permutation_in _ (insert_item_perm it l)) in Hy.
        destruct Hy as [<-|Hy]; [exact E|auto].
    + assert (Hlt : by_key it x).
      { apply str_ltb_total; [exact E|]. apply Hne. left. reflexivity. }
      constructor; [exact Hs|].
      constructor; [exact Hlt|].
      rewrite Forall_forall in *. intros y Hy.
      unfold by_key, str_lt in *. eapply str_ltb_trans; eauto.
Qed.

Lemma sorted_items_sorted l :
  NoDup (map fst l) -> StronglySorted by_key (sorted_items l).
Proof.
  induction l as [|x l IH]; cbn [sorted_items fold_right map]; intros Hnd.
  - constructor.
  - fold (sorted_items l). inversion Hnd as [|k ks Hk Hnd']; subst.
    apply insert_item_sorted; [auto|].
    intros y Hy Heq. apply Hk.
    apply (Permutation_in _ (sorted_items_perm l)) in Hy.
    rewrite <- Heq. apply in_map. exact Hy.
Qed.

Lemma sorted_keys l :
  StronglySorted by_key l -> StronglySorted str_lt (map fst l).
Proof.
  induction 1 as [|x l Hs IH Hall]; cbn [map]; constructor; auto.
  rewrite Forall_forall in *. intros k Hk.
  apply in_map_iff in Hk. destruct Hk as [y [<- Hy]]. apply Hall. exact Hy.
Qed.

(** The projects of the rendering: sorted, and those of the records. *)
Lemma sorted_groups accs :
  let items := sorted_items (group_by_project accs) in
  StronglySorted str_lt (map fst items)
  /\ (forall p, In p (map fst items)
                <-> exists a, In a accs /\ project a = p)
  /\ (forall p l, In (p, l) items -> l = records_of accs p /\ l <> []).
Proof.
  intros items. destruct (group_by_project_grouped accs) as [Hnd [Hrec Hkey]].
  assert (Hin : forall x, In x items <-> In x (group_by_project accs)).
  { intros x. split; apply Permutation_in;
      [|symmetry]; apply sorted_items_perm. }
  repeat split.
  - apply sorted_keys, sorted_items_sorted, Hnd.
  - intros Hp. apply in_map_iff in Hp. destruct Hp as [[q l] [<- Hx]].
    apply Hin in Hx. destruct (Hrec _ _ Hx) as [-> Hne]. cbn [fst].
    destruct (records_of accs q) as [|a r] eqn:E; [congruence|].
    assert (Ha : In a (records_of accs q)) by (rewrite E; left; reflexivity).
    apply filter_In in Ha. destruct Ha as [Ha Hq].
    apply str_eqb_eq in Hq. exists a. auto.
  - intros [a [Ha <-]]. specialize (Hkey a Ha).
    apply in_map_iff in Hkey. destruct Hkey as [x [Hx1 Hx2]].
    apply in_map_iff. exists x. split; [exact Hx1|apply Hin; exact Hx2].
  - apply Hin in H. apply (Hrec _ _ H).
  - apply Hin in H. apply (Hrec _ _ H).
Qed.

End SortFacts.

(** ** The rendered text *)
Module RenderClaims.
Import PyStr Re Parse Daily Denote PyStrFacts GroupFacts SortFacts
       LineFacts LoopFacts EntryFacts.

Lemma flat_map_blocks (bs : list (list str)) :
  bs <> [] ->
  flat_map (fun b => b ++ [[]]) bs = blank_separated bs ++ [[]].
Proof.
  induction bs as [|b bs IH]; [congruence|]. intros _.
  cbn [flat_map blank_separated]. destruct bs as [|b' bs].
  - cbn [flat_map]. rewrite app_nil_r. reflexivity.
  - rewrite IH by discriminate. rewrite <- !app_assoc. reflexivity.
Qed.

Lemma lines_of_items accs items :
  (forall p l, In (p, l) items -> l = records_of accs p) ->
  flat_map project_lines items
  = flat_map (fun b => b ++ [[]]) (map (project_block accs) (map fst items)).
Proof.
  induction items as [|[p l] items IH]; intros H; [reflexivity|].
  cbn [flat_map map fst]. rewrite IH by (intros; apply H; right; assumption).
  f_equal. unfold project_lines, project_block. cbn [fst snd].
  rewrite (H p l) by (left; reflexivity). reflexivity.
Qed.

Lemma join_cons sep l ls :
  ls <> [] -> join sep (l :: ls) = l ++ sep ++ join sep ls.
Proof. destruct ls; [congruence|reflexivity]. Qed.

Lemma join_snoc sep ls l :
  ls <> [] -> join sep (ls ++ [l]) = join sep ls ++ sep ++ l.
Proof.
  induction ls as [|x ls IH]; [congruence|]. intros _.
  destruct ls as [|y ls].
  - reflexivity.
  - cbn [app]. rewrite join_cons by discriminate.
    change (y :: ls ++ [l]) with ((y :: ls) ++ [l]).
    rewrite IH by discriminate.
    rewrite (@join_cons sep x (y :: ls)) by discriminate.
    rewrite <- !app_assoc. reflexivity.
Qed.

Lemma join_last sep ls l : exists pre, join sep (ls ++ [l]) = pre ++ l.
Proof.
  destruct ls as [|x ls].
  - exists []. reflexivity.
  - exists (join sep (x :: ls) ++ sep).
    rewrite join_snoc by discriminate. rewrite <- app_assoc. reflexivity.
Qed.

Lemma ends_trimmed_join sep ls :
  ends_trimmed ls -> join sep ls <> [] /\ rstripped (join sep ls).
Proof.
  intros [ls' [l [-> [Hne Hr]]]].
  destruct (join_last sep ls' l) as [pre ->]. split.
  - destruct pre; [exact Hne|discriminate].
  - apply rstripped_app; assumption.
Qed.

Lemma ends_trimmed_app ls1 ls2 : ends_trimmed ls2 -> ends_trimmed (ls1 ++ ls2).
Proof.
  intros [ls' [l [-> Ht]]]. exists (ls1 ++ ls'), l.
  rewrite app_assoc. auto.
Qed.

Lemma ends_trimmed_cons l ls : ends_trimmed ls -> ends_trimmed (l :: ls).
Proof. apply (@ends_trimmed_app [l]). Qed.

Lemma trimmed_prefixed pre s : trimmed s -> trimmed (pre ++ s).
Proof.
  intros [Hne Hr]. split.
  - destruct pre; [exact Hne|discriminate].
  - apply rstripped_app; assumption.
Qed.

Lemma ends_trimmed_record a :
  trimmed_record a ->
  ends_trimmed (summary_line a :: map detail_line (details a)).
Proof.
  intros [Hc Hd].
  destruct (details a) as [|d ds] eqn:E.
  - exists [], (summary_line a). split; [reflexivity|].
    apply trimmed_prefixed. exact Hc.
  - assert (Hne : d :: ds <> []) by discriminate.
    destruct (exists_last Hne) as [ds' [d' Ed]]. rewrite Ed in *.
    apply Forall_app in Hd. destruct Hd as [_ Hd].
    inversion Hd as [|x xs Hd' _]; subst.
    rewrite map_app. cbn [map].
    exists (summary_line a :: map detail_line ds'), (detail_line d').
    split; [reflexivity|]. apply trimmed_prefixed. exact Hd'.
Qed.

Lemma ends_trimmed_block accs p :
  Forall trimmed_record accs -> records_of accs p <> [] ->
  ends_trimmed (project_block accs p).
Proof.
  intros Hall Hne. unfold project_block. apply ends_trimmed_cons.
  assert (Hrec : Forall trimmed_record (records_of accs p)).
  { rewrite Forall_forall in *. intros a Ha.
    apply filter_In in Ha. apply Hall. tauto. }
  destruct (exists_last Hne) as [rs [r Er]]. rewrite Er in *.
  rewrite flat_map_app. apply ends_trimmed_app. cbn [flat_map].
  rewrite app_nil_r. apply ends_trimmed_record.
  apply Forall_app in Hrec. destruct Hrec as [_ Hrec].
  inversion Hrec; assumption.
Qed.

Lemma ends_trimmed_blocks (bs : list (list str)) :
  bs <> [] -> Forall ends_trimmed bs -> ends_trimmed (blank_separated bs).
Proof.
  induction bs as [|b bs IH]; [congruence|]. intros _ Hall.
  inversion Hall as [|x xs Hb Hbs]; subst.
  destruct bs as [|b' bs]; [exact Hb|].
  cbn [blank_separated]. apply ends_trimmed_app.
  apply ends_trimmed_cons.
  apply IH; [discriminate|exact Hbs].
Qed.

Lemma blank_separated_head (b : list str) bs :
  exists rest, blank_separated (b :: bs) = b ++ rest.
Proof.
  destruct bs as [|b' bs]; cbn [blank_separated].
  - exists []. symmetry. apply app_nil_r.
  - eexists. reflexivity.
Qed.

Lemma join_head sep l ls : exists rest, join sep (l :: ls) = l ++ rest.
Proof.
  destruct ls as [|l' ls]; cbn [join].
  - exists []. symmetry. apply app_nil_r.
  - eexists. reflexivity.
Qed.

(** The rendering starts with the [#] of its first heading. *)
Lemma render_groups_head accs p ps :
  exists s, render_groups accs (p :: ps) = "#"%char :: s.
Proof.
  unfold render_groups. cbn [map].
  destruct (blank_separated_head (project_block accs p)
              (map (project_block accs) ps)) as [rest ->].
  unfold project_block. cbn [app].
  destruct (join_head [newline] (heading_line p)
              (flat_map (fun a => summary_line a :: map detail_line (details a))
                        (records_of accs p) ++ rest)) as [r ->].
  unfold heading_line. cbn [lit list_ascii_of_string app].
  eexists. reflexivity.
Qed.

(** Stripping gives the text back when only a final newline was added to a
    text that starts and ends with something other than whitespace. *)
Lemma strip_final_newline c s :
  is_space c = false -> rstripped (c :: s) ->
  strip ((c :: s) ++ [newline]) = c :: s.
Proof.
  intros Hc Hr. unfold strip, lstrip. cbn [app drop_while]. rewrite Hc.
  change (c :: s ++ [newline]) with ((c :: s) ++ [newline]).
  rewrite <- (rstripped_rstrip (c :: s) Hr) at 2.
  unfold rstrip. rewrite rev_app_distr.
  change (rev [newline] ++ rev (c :: s)) with (newline :: rev (c :: s)).
  cbn [drop_while]. replace (is_space newline) with true by reflexivity.
  reflexivity.
Qed.

(** The rendering of records that are trimmed: the groups of the sorted
    project names, separated by blank lines. *)
Lemma render_trimmed_groups accs :
  Forall trimmed_record accs -> accs <> [] ->
  exists ps,
    StronglySorted str_lt ps
    /\ (forall p, In p ps <-> exists a, In a accs /\ project a = p)
    /\ format_accomplishments_for_obsidian accs = render_groups accs ps.
Proof.
  intros Hall Hne.
  destruct accs as [|a0 accs0]; [congruence|].
  change (format_accomplishments_for_obsidian (a0 :: accs0))
    with (strip (join [newline]
                   (flat_map project_lines
                      (sorted_items (group_by_project (a0 :: accs0)))))).
  remember (a0 :: accs0) as accs eqn:Eaccs.
  destruct (sorted_groups accs) as [Hs [Hmem Hrec]].
  set (items := sorted_items (group_by_project accs)) in *.
  exists (map fst items). split; [exact Hs|]. split; [exact Hmem|].
  unfold render_groups.
  rewrite (@lines_of_items accs items)
    by (intros p l H; apply (Hrec p l H)).
  assert (Hps : map fst items <> []).
  { assert (Hin : In (project a0) (map fst items)).
    { apply Hmem. exists a0. split; [|reflexivity].
      rewrite Eaccs. left. reflexivity. }
    intros E. rewrite E in Hin. exact Hin. }
  assert (Hbs : map (project_block accs) (map fst items) <> []).
  { destruct (map fst items); [congruence|discriminate]. }
  rewrite flat_map_blocks by exact Hbs.
  assert (Hblocks : blank_separated (map (project_block accs) (map fst items))
                    <> []).
  { destruct (map fst items) as [|p ps]; [congruence|]. cbn [map].
    destruct (blank_separated_head (project_block accs p)
                (map (project_block accs) ps)) as [rest ->].
    discriminate. }
  rewrite join_snoc by exact Hblocks. rewrite app_nil_r.
  assert (Hend : ends_trimmed
                   (blank_separated (map (project_block accs) (map fst items)))).
  { apply ends_trimmed_blocks; [exact Hbs|].
    rewrite Forall_forall. intros b Hb.
    apply in_map_iff in Hb. destruct Hb as [p [<- Hp]].
    apply ends_trimmed_block; [exact Hall|].
    apply in_map_iff in Hp. destruct Hp as [[q l] [<- Hq]].
    destruct (Hrec _ _ Hq) as [El Hl]. cbn [fst]. rewrite <- El. exact Hl. }
  destruct (ends_trimmed_join [newline] Hend) as [_ Hr].
  fold (render_groups accs (map fst items)) in *.
  destruct (map fst items) as [|p ps]; [congruence|].
  destruct (render_groups_head accs p ps) as [s Es]. rewrite Es in *.
  apply strip_final_newline; [reflexivity|exact Hr].
Qed.


(** The records of a run are those extracted from its log files, so the
    rendering of a run always has that shape. *)
Corollary rendering_of_extracted_records
    (files : list (str * option str)) target_date :
  let accs :=
    flat_map (fun f => parse_accomplishments (fst f) (snd f) target_date)
             files in
  accs <> [] ->
  exists ps,
    StronglySorted str_lt ps
    /\ (forall p, In p ps <-> exists a, In a accs /\ project a = p)
    /\ format_accomplishments_for_obsidian accs = render_groups accs ps.
Proof.
  intros accs. apply render_trimmed_groups.
  subst accs. induction files as [|f files IH]; cbn [flat_map].
  - constructor.
  - apply Forall_app. split; [apply parse_trimmed|exact IH].
Qed.


(** What the witness renders to. *)
Example rendering_two_projects :
  format_accomplishments_for_obsidian
    [Acc (lit "beta") (lit "2025-01-15") (lit "fixed parser")
         [lit "parser.py:45"; lit "added test"];
     Acc (lit "alpha") (lit "2025-01-15") (lit "released v2") [];
     Acc (lit "beta") (lit "2025-01-15") (lit "wrote docs") []]
  = lit ("### [[alpha]]" ++ nl ++ "- released v2" ++ nl ++ nl
         ++ "### [[beta]]" ++ nl ++ "- fixed parser" ++ nl
         ++ "  - parser.py:45" ++ nl ++ "  - added test" ++ nl
         ++ "- wrote docs").
Proof. vm_compute. reflexivity. Qed.


End RenderClaims.

(** * The further definitions on sample inputs *)
Module SampleChecks.
Import PyStr Re Parse Daily Denote Collect Json Terms JsonTerms.

Example note_path_of_vaults :
  let rel := "Daily Notes/2025/01-January/2025-01-15.md"%string in
  let d := Date 2025 1 15 in
  daily_note_path (lit "/vault/") d = lit ("/vault/" ++ rel)
  /\ daily_note_path [] d = lit rel
  /\ daily_note_path (lit ".") d = lit rel
  /\ daily_note_path (lit "//srv//notes/./") d = lit ("//srv/notes/" ++ rel)
  /\ daily_note_path (lit "///") d = lit ("/" ++ rel)
  /\ daily_note_path (lit "../v") d = lit ("../v/" ++ rel)
  /\ daily_note_folder (lit "/vault/") d
     = lit "/vault/Daily Notes/2025/01-January".
Proof. vm_compute. repeat split; reflexivity. Qed.

Example folders_of_a_vault :
  note_folders (lit "//srv/") (Date 2025 1 15)
  = [lit "//srv"; lit "//srv/Daily Notes"; lit "//srv/Daily Notes/2025";
     lit "//srv/Daily Notes/2025/01-January"]
  /\ note_folders [] (Date 2025 1 15)
     = [lit "Daily Notes"; lit "Daily Notes/2025";
        lit "Daily Notes/2025/01-January"].
Proof. vm_compute. split; reflexivity. Qed.

Example config_file_of_script_dir :
  Run.config_file (lit "/scripts") = lit "/scripts/config.json"
  /\ Run.config_file (lit "/") = lit "/config.json"
  /\ Run.config_file (lit ".") = lit "config.json".
Proof. vm_compute. repeat split; reflexivity. Qed.

Example walk_skips_root_hidden_and_scripts :
  find_claude_md_files
    (Some (Node [(lit "CLAUDE.md", Some [])]
             [(lit "web",
               Some (Node [(lit "CLAUDE.md", Some []); (lit "x.py", None)]
                       [(lit "docs",
                         Some (Node [(lit "CLAUDE.md", None)] []))]));
              (lit ".git", Some (Node [(lit "CLAUDE.md", Some [])] []));
              (lit "automation-scripts",
               Some (Node [(lit "CLAUDE.md", Some [])] []));
              (lit "link", None);
              (lit "empty", Some (Node [(lit "claude.md", Some [])] []))]))
  = [[lit "web"; lit "CLAUDE.md"];
     [lit "web"; lit "docs"; lit "CLAUDE.md"]].
Proof. vm_compute. reflexivity. Qed.

Example walk_of_missing_root :
  find_claude_md_files None = []
  /\ all_accomplishments None (Date 2025 1 15) = [].
Proof. split; reflexivity. Qed.

Example display_of_nothing :
  format_accomplishments [] = lit "No accomplishments found for today.".
Proof. reflexivity. Qed.

Example saved_record :
  save_to_json
    [Acc (lit "web") (lit "2025-01-15")
         (lit ("Fixed " ++ dq ++ "login" ++ dq ++ " caf") ++ chr 233)
         [lit "a" ++ chr 9 ++ lit "b"]]
  = lit ("[" ++ nl
         ++ "  {" ++ nl
         ++ "    " ++ dq ++ "project" ++ dq ++ ": " ++ dq ++ "web" ++ dq
         ++ "," ++ nl
         ++ "    " ++ dq ++ "date" ++ dq ++ ": " ++ dq ++ "2025-01-15" ++ dq
         ++ "," ++ nl
         ++ "    " ++ dq ++ "content" ++ dq ++ ": " ++ dq
         ++ "Fixed \" ++ dq ++ "login\" ++ dq ++ " caf\u00e9" ++ dq
         ++ "," ++ nl
         ++ "    " ++ dq ++ "details" ++ dq ++ ": [" ++ nl
         ++ "      " ++ dq ++ "a\tb" ++ dq ++ nl
         ++ "    ]" ++ nl
         ++ "  }" ++ nl
         ++ "]").
Proof. vm_compute. reflexivity. Qed.

Example saved_nothing : save_to_json [] = lit "[]".
Proof. reflexivity. Qed.

Example loads_escapes_and_spaces :
  loads (lit (" [" ++ dq ++ "\u00E9\n\/" ++ dq ++ " , -1.5e3, NaN ] " ++ nl))
  = Done (Array [String (chr 233 ++ [newline] ++ lit "/");
                 Number (lit "-1.5e3"); Number (lit "NaN")]) [].
Proof. vm_compute. reflexivity. Qed.

Example loads_keeps_pairs :
  loads (lit ("{" ++ dq ++ "a" ++ dq ++ ": 1, " ++ dq ++ "a" ++ dq ++ ": 2}"))
  = Done (Object [(lit "a", Number (lit "1")); (lit "a", Number (lit "2"))])
         [].
Proof. vm_compute. reflexivity. Qed.

Example loads_refuses :
  loads (lit "[1,]") = Malformed
  /\ loads (lit "[1] x") = Malformed
  /\ loads (lit "[01]") = Malformed
  /\ loads (lit dq ++ chr 9 ++ lit dq) = Malformed
  /\ loads (lit ("{" ++ dq ++ "a" ++ dq ++ ": 1,}")) = Malformed
  /\ loads (lit ("[" ++ dq ++ "\x41" ++ dq ++ "]")) = Malformed
  /\ loads [] = Malformed.
Proof. vm_compute. repeat split; reflexivity. Qed.

End SampleChecks.

(** ** What extraction puts into its records *)
Module RecordFacts.
Import PyStr Re Parse Denote Terms Claudemd PyStrFacts ReFacts SectionFacts
       LineFacts DashFacts MatchFacts LoopFacts EntryFacts EntryClaims
       ReplaceFacts MergeClaims.

Lemma date_eqb_eq a b : date_eqb a b = true -> a = b.
Proof.
  unfold date_eqb. destruct a, b. cbn [year month day].
  rewrite !andb_true_iff, !Nat.eqb_eq. intros [[-> ->] ->]. reflexivity.
Qed.

Lemma date_eqb_refl a : date_eqb a a = true.
Proof. unfold date_eqb. rewrite !Nat.eqb_refl. reflexivity. Qed.

Lemma headline_alter_nth d i l :
  map headline (alter_nth (add_detail d) i l) = map headline l.
Proof.
  revert i. induction l as [|a l IH]; intros [|i]; cbn [alter_nth map];
    try reflexivity.
  f_equal. apply IH.
Qed.

(** A line adds to the records, details apart, the record it opens. *)
Lemma process_line_headlines project_name target_date st raw :
  map headline
      (accomplishments (process_line project_name target_date st raw))
  = map headline (accomplishments st)
    ++ opened_by project_name target_date raw.
Proof.
  unfold opened_by, opens_record, marker_date, process_line.
  destruct (strip raw) as [|c line];
    [cbn [orb]; rewrite app_nil_r; reflexivity|].
  cbn [orb].
  destruct (startswith (lit "*") (c :: line));
    [rewrite app_nil_r; reflexivity|].
  destruct (first_match date_patterns (c :: line)) as [m|]; cbn [option_map].
  - destruct (strptime_ymd (group 1 m)) as [d|];
      [|rewrite app_nil_r; reflexivity].
    destruct (date_eqb d target_date); cbn [accomplishments].
    + rewrite map_app. reflexivity.
    + rewrite app_nil_r. reflexivity.
  - rewrite app_nil_r.
    destruct (current_entry st) as [i|]; [|reflexivity].
    destruct (startswith (lit "-") (c :: line)); [|reflexivity].
    destruct (strip (tl (c :: line))); [reflexivity|].
    cbn [accomplishments]. apply headline_alter_nth.
Qed.

Lemma process_lines_headlines project_name target_date lines : forall st,
  map headline
      (accomplishments (process_lines project_name target_date st lines))
  = map headline (accomplishments st)
    ++ flat_map (opened_by project_name target_date) lines.
Proof.
  unfold process_lines.
  induction lines as [|l lines IH]; intros st; cbn [fold_left flat_map].
  - rewrite app_nil_r. reflexivity.
  - rewrite IH, process_line_headlines, <- app_assoc. reflexivity.
Qed.

(** X1. When the search for the section finds a match, the records of
    the text are, details apart, the records that the date lines for the
    target date open among the lines of the text the search captures
    (group 1 of the match), one for each such line and in the order of
    the lines: two lines with the same date and the same summary give two
    records.  The text captured is what the pattern takes, which is not
    always the section as a reader sees it. *)
Theorem one_record_per_date_line project_name text target_date m :
  re_search recent_section_pattern text = Some m ->
  map headline (parse_text project_name text target_date)
  = flat_map (opened_by project_name target_date)
             (split_lines (group 1 m)).
Proof.
  intros Hm. unfold parse_text. rewrite Hm.
  rewrite process_lines_headlines. reflexivity.
Qed.

Lemma one_record_per_date_line_witness :
  let text :=
    lit ("## Recent Accomplishments" ++ nl ++ "- 2025-01-15: did X" ++ nl
         ++ "  - detail" ++ nl ++ "- 2025-01-14: older" ++ nl
         ++ "- 2025-01-15: did X" ++ nl) in
  exists m,
    re_search recent_section_pattern text = Some m
    /\ map headline (parse_text (lit "p") text (Date 2025 1 15))
       = flat_map (opened_by (lit "p") (Date 2025 1 15))
                  (split_lines (group 1 m))
    /\ map headline (parse_text (lit "p") text (Date 2025 1 15))
       = [Acc (lit "p") (lit "2025-01-15") (lit "did X") [];
          Acc (lit "p") (lit "2025-01-15") (lit "did X") []].
Proof.
  cbv zeta.
  destruct (re_search recent_section_pattern
              (lit ("## Recent Accomplishments" ++ nl ++ "- 2025-01-15: did X"
                    ++ nl ++ "  - detail" ++ nl ++ "- 2025-01-14: older" ++ nl
                    ++ "- 2025-01-15: did X" ++ nl))) as [m|] eqn:E;
    [|vm_compute in E; discriminate].
  exists m. split; [reflexivity|]. split.
  - apply (one_record_per_date_line (lit "p") _ (Date 2025 1 15) E).
  - vm_compute. reflexivity.
Defined.

Lemma opened_by_facts project_name target_date raw a :
  In a (opened_by project_name target_date raw) ->
  project a = project_name
  /\ strptime_ymd (date_str a) = Some target_date.
Proof.
  unfold opened_by, opens_record, marker_date.
  destruct (match strip raw with [] => true | _ => false end
            || startswith (lit "*") (strip raw)); [intros []|].
  destruct (first_match date_patterns (strip raw)) as [m|];
    cbn [option_map]; [|intros []].
  destruct (strptime_ymd (group 1 m)) as [d|] eqn:Ed; [|intros []].
  destruct (date_eqb d target_date) eqn:E; [|intros []].
  intros [<-|[]]. cbn [project date_str]. split; [reflexivity|].
  rewrite Ed. f_equal. apply date_eqb_eq. exact E.
Qed.

Lemma parsed_record_facts project_name file target_date a :
  In a (parse_accomplishments project_name file target_date) ->
  project a = project_name /\ strptime_ymd (date_str a) = Some target_date.
Proof.
  unfold parse_accomplishments. destruct file as [text|]; [|intros []].
  unfold parse_text.
  destruct (re_search recent_section_pattern text) as [m|] eqn:Hm;
    [|intros []].
  intros Ha.
  assert (H : In (headline a)
                 (flat_map (opened_by project_name target_date)
                           (split_lines (group 1 m)))).
  { pose proof (process_lines_headlines project_name target_date
                  (split_lines (group 1 m)) (Loop [] None)) as Eh.
    cbn [accomplishments map app] in Eh. rewrite <- Eh.
    apply in_map. exact Ha. }
  apply in_flat_map in H. destruct H as [raw [_ H]].
  apply opened_by_facts in H. exact H.
Qed.

(** X2. Every record extracted from a file carries the name of the
    project it was extracted for, and a date token that names the target
    date: an entry with another date, or with a token that is no calendar
    date, is in no result. *)
Theorem records_carry_project_and_target_date project_name file target_date :
  Forall (fun a => project a = project_name
                   /\ strptime_ymd (date_str a) = Some target_date)
         (parse_accomplishments project_name file target_date).
Proof.
  apply Forall_forall. intros a Ha.
  apply (parsed_record_facts _ _ _ _ Ha).
Qed.

Lemma contains_here p s : contains p (p ++ s) = true.
Proof.
  assert (H : startswith p (p ++ s) = true).
  { induction p as [|c p IH]; [reflexivity|].
    cbn [app startswith]. rewrite Ascii.eqb_refl. exact IH. }
  destruct p; cbn [contains app]; [destruct s; reflexivity|].
  cbn [app] in H. rewrite H. reflexivity.
Qed.

Lemma contains_app p a s : contains p (a ++ p ++ s) = true.
Proof.
  induction a as [|c a IH]; [cbn [app]; apply contains_here|].
  cbn [app contains]. rewrite IH. apply orb_true_r.
Qed.

Lemma search_finds_heading heading text m :
  re_search (section_regex heading) text = Some m ->
  contains heading text = true.
Proof.
  unfold re_search. rewrite search_section. intros H.
  apply find_section_inv in H.
  destruct H as [a [s [g [len [-> [Hs _]]]]]].
  apply section_at_inv in Hs. destruct Hs as [w [r [-> _]]].
  apply contains_app.
Qed.

(** X3. A file whose text does not contain [## Recent Accomplishments],
    which is the test [has_accomplishment_section] makes, gives no record,
    whatever the target date. *)
Theorem no_heading_no_records project_name content target_date :
  has_accomplishment_section content = false ->
  parse_accomplishments project_name (Some content) target_date = [].
Proof.
  unfold has_accomplishment_section, parse_accomplishments, parse_text.
  intros H.
  destruct (re_search recent_section_pattern content) as [m|] eqn:Hm;
    [|reflexivity].
  change recent_section_pattern
    with (section_regex (lit "## Recent Accomplishments")) in Hm.
  apply search_finds_heading in Hm. congruence.
Qed.

Lemma no_heading_no_records_witness :
  parse_accomplishments
    (lit "p")
    (Some (lit ("# Project" ++ nl ++ "### Recent accomplishments" ++ nl
                ++ "- 2025-01-15: did X" ++ nl)))
    (Date 2025 1 15) = [].
Proof. apply no_heading_no_records. vm_compute. reflexivity. Defined.

(** *** Records hold one-line texts *)

Lemma forallb_reverse (p : ascii -> bool) l : forallb p (rev l) = forallb p l.
Proof.
  induction l as [|c l IH]; cbn [rev forallb]; [reflexivity|].
  rewrite forallb_app, IH. cbn [forallb]. rewrite andb_true_r.
  apply andb_comm.
Qed.

Lemma split_acc_no_newline s : forall cur,
  no_newline cur -> Forall no_newline (split_acc cur s).
Proof.
  unfold no_newline.
  induction s as [|c s IH]; intros cur Hcur; cbn [split_acc].
  - constructor; [|constructor]. rewrite forallb_reverse. exact Hcur.
  - destruct (Ascii.eqb c newline) eqn:E.
    + constructor; [rewrite forallb_reverse; exact Hcur|].
      apply IH. reflexivity.
    + apply IH. cbn [forallb]. rewrite Hcur, andb_true_r.
      unfold not_newline, code. apply negb_true_iff. apply Nat.eqb_neq.
      intros Hc. apply Ascii.eqb_neq in E. apply E.
      rewrite <- (ascii_nat_embedding c), Hc. reflexivity.
Qed.

Lemma split_lines_no_newline s : Forall no_newline (split_lines s).
Proof. apply split_acc_no_newline. reflexivity. Qed.

Lemma one_line_strip s : no_newline s -> strip s <> [] -> one_line (strip s).
Proof.
  intros Hs Hn. split; [exact Hn|]. split.
  - apply strip_no_newline. exact Hs.
  - apply strip_idem.
Qed.

Lemma process_line_one_line project_name target_date st raw :
  no_newline raw ->
  Forall one_line_record (accomplishments st) ->
  Forall one_line_record
         (accomplishments (process_line project_name target_date st raw)).
Proof.
  intros Hraw H.
  assert (Hline : no_newline (strip raw)) by (apply strip_no_newline; exact Hraw).
  unfold process_line.
  destruct (strip raw) as [|c line] eqn:E; [exact H|]. cbn [orb].
  destruct (startswith (lit "*") (c :: line)); [exact H|].
  destruct (first_match date_patterns (c :: line)) as [m|] eqn:Em.
  - destruct (strptime_ymd (group 1 m)) as [d|]; [|exact H].
    destruct (date_eqb d target_date); cbn [accomplishments]; [|exact H].
    apply Forall_app. split; [exact H|].
    constructor; [|constructor]. split; cbn [content details]; [|constructor].
    apply one_line_strip.
    + rewrite <- E in Em. apply date_match_inv in Em.
      destruct Em as [x [g [e [Eq [_ [_ ->]]]]]].
      rewrite E in Eq. rewrite Eq in Hline.
      apply no_newline_app in Hline. destruct Hline as [_ Hline].
      apply no_newline_app in Hline. tauto.
    + intros E0. rewrite <- E in Em.
      apply (match_has_summary _ Em). rewrite E0. reflexivity.
  - destruct (current_entry st) as [i|]; [|exact H].
    destruct (startswith (lit "-") (c :: line)); [|exact H].
    destruct (strip (tl (c :: line))) as [|x d] eqn:Ed; [exact H|].
    cbn [accomplishments]. apply Forall_alter_nth; [|exact H].
    intros a [Hc Hds]. split; [exact Hc|]. cbn [add_detail details].
    apply Forall_app. split; [exact Hds|]. constructor; [|constructor].
    rewrite <- Ed. apply one_line_strip.
    + cbn [tl]. eapply no_newline_tail. exact Hline.
    + rewrite Ed. discriminate.
Qed.

(** X4. The summary and every detail of every record extracted is a text
    that fills one line: it is not empty, holds no newline, and has no
    whitespace at its start or its end. *)
Theorem records_hold_one_line_texts project_name file target_date :
  Forall (fun a => one_line (content a) /\ Forall one_line (details a))
         (parse_accomplishments project_name file target_date).
Proof.
  unfold parse_accomplishments, parse_text.
  destruct file as [text|]; [|constructor].
  destruct (re_search recent_section_pattern text) as [m|]; [|constructor].
  pose proof (split_lines_no_newline (group 1 m)) as Hl.
  unfold process_lines. revert Hl. generalize (split_lines (group 1 m)).
  assert (H : Forall one_line_record (accomplishments (Loop [] None)))
    by constructor.
  revert H. generalize (Loop [] None).
  intros st H lines. revert st H.
  induction lines as [|l lines IH]; intros st H Hl; cbn [fold_left];
    [exact H|].
  inversion Hl; subst. apply IH; [|assumption].
  apply process_line_one_line; assumption.
Qed.

End RecordFacts.

(** ** The files found and the records of a run *)
Module CollectFacts.
Import PyStr Re Parse Daily Collect Denote Terms PyStrFacts GroupFacts
       SortFacts RecordFacts.

(** Induction on a directory: what holds of a directory when it holds of
    every directory listed in it holds of all. *)
Lemma tree_induction (P : tree -> Prop) :
  (forall filenames dirnames,
      (forall d t, In (d, Some t) dirnames -> P t) ->
      P (Node filenames dirnames)) ->
  forall t, P t.
Proof.
  intros H. fix IH 1. intros [filenames dirnames]. apply H.
  induction dirnames as [|[n [t'|]] ds IHds]; intros d t Hin.
  - destruct Hin.
  - destruct Hin as [E|Hin].
    + injection E as _ <-. apply IH.
    + exact (IHds d t Hin).
  - destruct Hin as [E|Hin]; [discriminate|exact (IHds d t Hin)].
Qed.

Lemma walk_from_spec t : forall dirpath file_path,
  In file_path (walk_from dirpath t)
  <-> exists path t',
        file_path = dirpath ++ path ++ [lit "CLAUDE.md"]
        /\ dirpath ++ path <> []
        /\ forallb kept path = true
        /\ reaches t path t'
        /\ listed (lit "CLAUDE.md") (files_of t') = true.
Proof.
  induction t as [filenames dirnames IH] using tree_induction.
  intros dirpath file_path. cbn [walk_from]. rewrite in_app_iff. split.
  - intros [Hin|Hin].
    + destruct (listed (lit "CLAUDE.md") filenames) eqn:Hl;
        [|destruct Hin].
      destruct dirpath as [|d0 dp]; [destruct Hin|].
      cbn [andb] in Hin. destruct Hin as [<-|[]].
      exists [], (Node filenames dirnames). cbn [app forallb files_of].
      rewrite app_nil_r.
      repeat split; [discriminate|constructor|exact Hl].
    + apply in_flat_map in Hin. destruct Hin as [[name sub] [Hd Hin]].
      destruct (kept name) eqn:Hk; [|destruct Hin].
      destruct sub as [t1|]; [|destruct Hin].
      apply (IH _ _ Hd) in Hin.
      destruct Hin as [path [t' [-> [_ [Hp [Hr Hl]]]]]].
      exists (name :: path), t'. cbn [forallb]. rewrite Hk, Hp.
      rewrite <- !app_assoc. cbn [app]. repeat split.
      * destruct dirpath; discriminate.
      * econstructor; eauto.
      * exact Hl.
  - intros [path [t' [-> [Hne [Hp [Hr Hl]]]]]].
    inversion Hr as [|fs ds d t1 path0 t2 Hd Hr']; subst.
    + left. cbn [files_of] in Hl. rewrite Hl. rewrite app_nil_r in Hne.
      destruct dirpath; [congruence|]. cbn [andb app]. left. reflexivity.
    + right. cbn [forallb] in Hp. apply andb_true_iff in Hp.
      destruct Hp as [Hk Hp]. apply in_flat_map.
      exists (d, Some t1). split; [assumption|]. rewrite Hk.
      apply (IH _ _ Hd). exists path0, t'. rewrite <- !app_assoc.
      cbn [app]. split; [reflexivity|]. split; [|auto].
      destruct dirpath; discriminate.
Qed.

(** X5. The files found are the files [CLAUDE.md] of the directories
    below the root that are reached through directories whose names do not
    start with a dot and are not [automation-scripts], the directory
    itself included: the file of the root is not among them, and nothing
    below a hidden directory or a directory [automation-scripts] is, at
    any depth. *)
Theorem files_found_below_root root file_path :
  In file_path (find_claude_md_files (Some root))
  <-> exists dirpath t,
        file_path = dirpath ++ [lit "CLAUDE.md"]
        /\ dirpath <> []
        /\ forallb kept dirpath = true
        /\ reaches root dirpath t
        /\ listed (lit "CLAUDE.md") (files_of t) = true.
Proof.
  cbn [find_claude_md_files]. rewrite walk_from_spec. cbn [app].
  reflexivity.
Qed.

Lemma last_kept (dirpath : list str) :
  dirpath <> [] -> forallb kept dirpath = true ->
  kept (last dirpath []) = true.
Proof.
  induction dirpath as [|d [|d' dp] IH]; intros Hne H; [congruence| |].
  - cbn [forallb last] in *. apply andb_true_iff in H. tauto.
  - cbn [forallb] in H. apply andb_true_iff in H. destruct H as [_ H].
    change (last (d :: d' :: dp) []) with (last (d' :: dp) []).
    apply IH; [discriminate|exact H].
Qed.

(** X6. Every record of a run carries as its project the name of the
    directory that holds the file it comes from, a directory the walk
    went into: no record has a project name that starts with a dot or is
    [automation-scripts], and every record has the target date. *)
Theorem records_of_a_run root_dir target_date :
  Forall (fun a =>
            (exists file_path,
                In file_path (find_claude_md_files root_dir)
                /\ project a = parent_name file_path)
            /\ kept (project a) = true
            /\ strptime_ymd (date_str a) = Some target_date)
         (all_accomplishments root_dir target_date).
Proof.
  apply Forall_forall. intros a Ha. unfold all_accomplishments in Ha.
  apply in_flat_map in Ha. destruct Ha as [file_path [Hf Ha]].
  apply parsed_record_facts in Ha. destruct Ha as [Hp Hd].
  split; [exists file_path; auto|]. split; [|exact Hd].
  rewrite Hp. destruct root_dir as [root|]; [|destruct Hf].
  cbn [find_claude_md_files] in Hf. apply walk_from_spec in Hf. cbn [app] in Hf.
  destruct Hf as [dirpath [t [-> [Hne [Hk _]]]]].
  unfold parent_name. rewrite removelast_last. apply last_kept; assumption.
Qed.

End CollectFacts.

(** ** Merging into a note that a merge has written *)
Module RerunFacts.
Import PyStr Re Parse Daily Claudemd Denote Terms PyStrFacts ReFacts
       SectionFacts LineFacts ReplaceFacts MergeClaims RecordFacts.

(** A match of a text in front of [x ++ y] lies in [x], or [x] is the
    start of the text and the rest of it is matched in [y]. *)
Lemma strip_prefix_split h : forall x y r,
  strip_prefix h (x ++ y) = Some r ->
  (exists x', strip_prefix h x = Some x' /\ r = x' ++ y)
  \/ (exists h2, h = x ++ h2 /\ h2 <> [] /\ strip_prefix h2 y = Some r).
Proof.
  induction h as [|a h IH]; intros x y r H.
  - left. exists x. cbn [strip_prefix] in *. split; congruence.
  - destruct x as [|c x].
    + right. exists (a :: h). repeat split; [discriminate|exact H].
    + cbn [app strip_prefix] in *.
      destruct (Ascii.eqb a c) eqn:E; [|discriminate].
      apply Ascii.eqb_eq in E. subst c.
      destruct (IH _ _ _ H) as [[x' [H1 H2]]|[h2 [H1 [H2 H3]]]].
      * left. exists x'. auto.
      * right. exists h2. subst h. auto.
Qed.

Lemma strip_prefix_lift h : forall x x' y,
  strip_prefix h x = Some x' -> strip_prefix h (x ++ y) = Some (x' ++ y).
Proof.
  induction h as [|a h IH]; intros x x' y H.
  - destruct x; simpl in *; injection H as <-; reflexivity.
  - destruct x as [|c x]; [discriminate|]. cbn [app strip_prefix] in *.
    destruct (Ascii.eqb a c); [auto|discriminate].
Qed.

Lemma strip_prefix_short p : forall a t r,
  strip_prefix p (a ++ t) = Some r -> length p <= length a ->
  startswith p a = true.
Proof.
  induction p as [|x p IH]; intros a t r H Hl; [reflexivity|].
  destruct a as [|c a]; [cbn [length] in Hl; lia|].
  cbn [app strip_prefix startswith length] in *.
  destruct (Ascii.eqb x c); [|discriminate]. cbn [andb].
  apply (IH _ _ _ H). lia.
Qed.

Lemma no_match_before_cons heading c pre rest :
  no_match_before heading (c :: pre) rest
  = negb (found (section_at heading ((c :: pre) ++ rest)))
    && no_match_before heading pre rest.
Proof.
  unfold no_match_before. cbn [length seq forallb skipn].
  f_equal; [destruct (section_at heading ((c :: pre) ++ rest)); reflexivity|].
  rewrite <- seq_shift.
  induction (seq 0 (length pre)) as [|i l IH]; [reflexivity|].
  cbn [map forallb]. rewrite IH. reflexivity.
Qed.

Section Heading.

(** A heading that starts with [#] and does not overlap itself. *)
Variable h' : str.
Local Abbreviation h := ("#"%char :: h').
Hypothesis h_unbordered : unbordered h = true.

Lemma header_unbordered x h2 t :
  h = x ++ h2 -> x <> [] -> h2 <> [] ->
  strip_prefix h2 (h ++ t) = None.
Proof using h_unbordered.
  intros E Hx Hh.
  destruct (strip_prefix h2 (h ++ t)) as [r|] eqn:Es; [|reflexivity].
  exfalso.
  assert (Hl : length x + length h2 = length h)
    by (rewrite <- length_app, <- E; reflexivity).
  assert (Hk : h2 = skipn (length x) h)
    by (rewrite E, skipn_app, Nat.sub_diag, skipn_all; reflexivity).
  assert (Hs : startswith h2 h = true).
  { apply (strip_prefix_short _ _ _ Es). lia. }
  unfold unbordered in h_unbordered.
  rewrite forallb_forall in h_unbordered.
  specialize (h_unbordered (length x)). rewrite <- Hk, Hs in h_unbordered.
  assert (Hin : In (length x) (seq 1 (length h - 1))).
  { apply in_seq. destruct x; [congruence|]. destruct h2; [congruence|].
    cbn [length] in *. lia. }
  specialize (h_unbordered Hin). discriminate.
Qed.

(** Whether the search matches at a place in front of an occurrence of
    the heading depends on the text in front of that occurrence only. *)
Lemma section_at_before x t :
  x <> [] ->
  found (section_at h (x ++ h ++ t))
  = match strip_prefix h x with
    | Some x' => found (ws_newline x')
    | None => false
    end.
Proof using h_unbordered.
  intros Hx. unfold section_at.
  destruct (strip_prefix h x) as [x'|] eqn:E.
  - rewrite (strip_prefix_lift _ _ _ E).
    change (h ++ t) with ("#"%char :: h' ++ t).
    rewrite ws_newline_app by reflexivity.
    destruct (ws_newline x'); reflexivity.
  - destruct (strip_prefix h (x ++ h ++ t)) as [r|] eqn:E2; [|reflexivity].
    exfalso. apply strip_prefix_split in E2.
    destruct E2 as [[x' [H1 _]]|[h2 [H1 [H2 H3]]]]; [congruence|].
    rewrite (@header_unbordered x h2 t H1 Hx H2) in H3. discriminate.
Qed.

(** What precedes an occurrence of the heading decides alone whether the
    search matches before it. *)
Lemma no_match_before_rest pre t1 t2 :
  no_match_before h pre (h ++ t1) = no_match_before h pre (h ++ t2).
Proof using h_unbordered.
  induction pre as [|c pre IH]; [reflexivity|].
  rewrite !no_match_before_cons, IH.
  rewrite !section_at_before by discriminate. reflexivity.
Qed.

Lemma contains_cons p c s : contains p (c :: s) = false -> contains p s = false.
Proof.
  cbn [contains]. intros H. apply orb_false_iff in H. tauto.
Qed.

Lemma contains_startswith p s : contains p s = false -> startswith p s = false.
Proof.
  destruct s; cbn [contains]; intros H; apply orb_false_iff in H; tauto.
Qed.

(** A text that does not hold the heading holds no match of the search,
    whatever follows the next occurrence of the heading. *)
Lemma no_heading_no_match_before pre t :
  contains h pre = false ->
  no_match_before h pre (h ++ t) = true.
Proof using h_unbordered.
  induction pre as [|c pre IH]; intros H; [reflexivity|].
  rewrite no_match_before_cons, IH by (eapply contains_cons; eauto).
  rewrite section_at_before by discriminate.
  apply contains_startswith in H. rewrite startswith_strip_prefix in H.
  destruct (strip_prefix h (c :: pre)); [discriminate|].
  reflexivity.
Qed.

End Heading.

Lemma header_unbordered_here : unbordered section_header = true.
Proof. reflexivity. Qed.

(** The first match of the search, with nothing matching before it. *)
Lemma find_section_first heading s0 : forall n0 m,
  find_section heading n0 s0 = Some m ->
  exists a s g len,
    s0 = a ++ s /\ section_at heading s = Some (g, len)
    /\ no_match_before heading a s = true.
Proof.
  induction s0 as [|c s0 IH]; intros n0 m; cbn [find_section].
  - destruct (section_at heading []) as [[g len]|] eqn:E; [|discriminate].
    intros _. exists [], [], g, len. auto.
  - destruct (section_at heading (c :: s0)) as [[g len]|] eqn:E.
    + intros _. exists [], (c :: s0), g, len. auto.
    + intros H. apply IH in H.
      destruct H as [a [s [g [len [-> [Hs Hn]]]]]].
      exists (c :: a), s, g, len. repeat split; auto.
      rewrite no_match_before_cons, Hn. cbn [app]. rewrite E. reflexivity.
Qed.

(** The search in a text whose first match is at the end of [pre]:
    group 1 is the text up to the next [\n##] after the end of the heading
    line. *)
Lemma search_at heading pre s1 r :
  no_match_before heading pre (heading ++ s1) = true ->
  ws_newline s1 = Some r ->
  exists m,
    re_search (section_regex heading) (pre ++ heading ++ s1) = Some m
    /\ group 1 m = until_boundary r
    /\ m_start m = length pre
    /\ m_end m = length pre + length heading
                 + (length s1 - length r) + length (until_boundary r).
Proof.
  intros Hpre Hr.
  destruct (ws_newline_suffix _ Hr) as [w [Ew Hw]].
  assert (Hat : section_at heading (heading ++ s1)
                = Some (until_boundary r,
                        length heading + length w
                        + length (until_boundary r))).
  { unfold section_at. rewrite strip_prefix_app, Hr. f_equal. f_equal.
    rewrite Ew, !length_app. lia. }
  unfold re_search.
  rewrite search_section, find_section_skip by exact Hpre.
  rewrite (@find_section_here _ _ _ _ (0 + length pre) Hat).
  eexists. split; [reflexivity|].
  cbn [group m_final caps assoc Nat.eqb m_start m_end pos Nat.add].
  repeat split. rewrite Ew at 1. rewrite length_app. lia.
Qed.

(** The merge into a note whose first match of the search is at the end
    of [pre]: the heading and the text up to the next [\n##] after the end
    of the heading line are replaced. *)
Lemma update_at pre s1 r section_content :
  no_match_before section_header pre (section_header ++ s1) = true ->
  ws_newline s1 = Some r ->
  update_existing (pre ++ section_header ++ s1) section_content
  = pre ++ full_section section_content
        ++ skipn (length (until_boundary r)) r.
Proof.
  intros Hpre Hr.
  destruct (@search_at _ _ _ _ Hpre Hr) as [m [Hm [_ [Hs He]]]].
  destruct (ws_newline_suffix _ Hr) as [w [Ew Hw]].
  unfold update_existing.
  change section_pattern with (section_regex section_header).
  rewrite Hm, Hs, He.
  rewrite firstn_app, Nat.sub_diag, firstn_all. cbn [firstn].
  rewrite app_nil_r. f_equal. f_equal.
  rewrite skipn_app. rewrite skipn_all2 by lia. cbn [app].
  replace (length pre + length section_header + (length s1 - length r)
           + length (until_boundary r) - length pre)
    with (length (until_boundary r) + length (section_header ++ w))
    by (rewrite Ew at 1; rewrite !length_app; lia).
  rewrite <- skipn_skipn. rewrite Ew at 1. rewrite app_assoc.
  rewrite skipn_app, Nat.sub_diag, skipn_all. reflexivity.
Qed.

(** A text without [\n##] in front of the end of the note or of a
    [\n##]: the search stops at its end. *)
Lemma until_boundary_exact b : forall t,
  has_boundary b = false ->
  t = [] \/ startswith boundary t = true ->
  until_boundary (b ++ t) = b.
Proof.
  induction b as [|c b IH]; intros t Hb Ht.
  - cbn [app]. destruct Ht as [->|Ht]; [reflexivity|].
    destruct t as [|c t]; [reflexivity|].
    cbn [until_boundary]. change (newline :: lit "##") with boundary.
    rewrite Ht. reflexivity.
  - cbn [has_boundary] in Hb. apply orb_false_iff in Hb.
    destruct Hb as [Hc Hb]. cbn [app until_boundary].
    change (newline :: lit "##") with boundary in *.
    rewrite (IH t Hb Ht).
    assert (Hs : startswith boundary (c :: b ++ t) = false).
    { destruct b as [|c1 [|c2 b]].
      - destruct Ht as [->|Ht]; [exact Hc|].
        destruct t as [|c1 t]; [discriminate|].
        cbn [startswith boundary lit list_ascii_of_string] in Ht.
        apply andb_true_iff in Ht. destruct Ht as [Ht _].
        apply Ascii.eqb_eq in Ht. subst c1.
        cbn. rewrite andb_false_r. reflexivity.
      - destruct Ht as [->|Ht]; [exact Hc|].
        destruct t as [|c2 t]; [discriminate|].
        cbn [startswith boundary lit list_ascii_of_string] in Ht.
        apply andb_true_iff in Ht. destruct Ht as [Ht _].
        apply Ascii.eqb_eq in Ht. subst c2.
        cbn. rewrite !andb_false_r. reflexivity.
      - exact Hc. }
    rewrite Hs. reflexivity.
Qed.

Lemma ws_newline_blank c b :
  is_space c = false ->
  ws_newline (newline :: newline :: c :: b) = Some (c :: b).
Proof. intros H. cbn [ws_newline]. rewrite H. reflexivity. Qed.

Lemma full_section_split body t :
  full_section body ++ t
  = section_header ++ (newline :: newline :: body ++ t).
Proof. unfold full_section. rewrite <- !app_assoc. reflexivity. Qed.

(** The merge into a note in which the first match of the search is a
    section a merge has written, followed by [post]. *)
Lemma update_written pre c b post section_content :
  no_match_before section_header pre
    (section_header ++ newline :: newline :: (c :: b) ++ post) = true ->
  is_space c = false ->
  update_existing (pre ++ full_section (c :: b) ++ post) section_content
  = pre ++ full_section section_content
        ++ skipn (length (until_boundary ((c :: b) ++ post)))
                 ((c :: b) ++ post).
Proof.
  intros Hpre Hc. rewrite full_section_split.
  apply update_at; [exact Hpre|]. apply ws_newline_blank. exact Hc.
Qed.

Lemma replace_written pre c b post section_content :
  contains section_header pre = false ->
  is_space c = false ->
  has_boundary (c :: b) = false ->
  post = [] \/ startswith boundary post = true ->
  update_existing (pre ++ full_section (c :: b) ++ post) section_content
  = pre ++ full_section section_content ++ post.
Proof.
  intros Hpre Hc Hb Hpost.
  rewrite update_written;
    [|apply (@no_heading_no_match_before _ header_unbordered_here); exact Hpre|exact Hc].
  rewrite (until_boundary_exact _ Hb Hpost).
  rewrite skipn_app, Nat.sub_diag, skipn_all. reflexivity.
Qed.

(** X7. What a merge has written the next merge replaces.  When the
    heading does not occur in front of the section, the body [old] of the
    section starts with a character that is no whitespace and holds no
    [\n##], and the note ends after it or goes on with [\n##], the merge
    of a new body replaces [old] by it and keeps the rest of the note. *)
Theorem rerun_replaces_written_section pre c b post section_content :
  contains section_header pre = false ->
  is_space c = false ->
  has_boundary (c :: b) = false ->
  post = [] \/ startswith boundary post = true ->
  update_existing (pre ++ full_section (c :: b) ++ post) section_content
  = pre ++ full_section section_content ++ post.
Proof. apply replace_written. Qed.

Lemma rerun_replaces_written_section_witness :
  update_existing
    (lit ("# 2025-01-15" ++ nl ++ nl)
     ++ full_section (lit ("### [[alpha]]" ++ nl ++ "- released v2"))
     ++ lit (nl ++ "## Meeting Notes" ++ nl))
    (lit "No development accomplishments logged today.")
  = lit ("# 2025-01-15" ++ nl ++ nl)
    ++ full_section (lit "No development accomplishments logged today.")
    ++ lit (nl ++ "## Meeting Notes" ++ nl).
Proof.
  apply (@rerun_replaces_written_section
           (lit ("# 2025-01-15" ++ nl ++ nl)) "#"%char
           (lit ("## [[alpha]]" ++ nl ++ "- released v2"))
           (lit (nl ++ "## Meeting Notes" ++ nl))
           (lit "No development accomplishments logged today."));
    try reflexivity.
  right. reflexivity.
Defined.

(** X8. A body with several project groups is replaced in part.  When
    the body of the section holds a [\n##], as the rendering of the
    records of two projects does in front of its second [### ] line, the
    merge replaces the body up to there and keeps what follows: the new
    body is followed by the old groups from the second on. *)
Theorem rerun_keeps_later_groups pre c b later post section_content :
  contains section_header pre = false ->
  is_space c = false ->
  has_boundary (c :: b) = false ->
  update_existing
    (pre ++ full_section ((c :: b) ++ boundary ++ later) ++ post)
    section_content
  = pre ++ full_section section_content ++ boundary ++ later ++ post.
Proof.
  intros Hpre Hc Hb.
  change ((c :: b) ++ boundary ++ later) with (c :: b ++ boundary ++ later).
  rewrite update_written;
    [|apply (@no_heading_no_match_before _ header_unbordered_here); exact Hpre|exact Hc].
  replace ((c :: b ++ boundary ++ later) ++ post)
    with ((c :: b) ++ boundary ++ later ++ post)
    by (cbn [app]; rewrite <- !app_assoc; reflexivity).
  rewrite (@until_boundary_exact (c :: b) (boundary ++ later ++ post) Hb)
    by (right; reflexivity).
  rewrite skipn_app, Nat.sub_diag, skipn_all. reflexivity.
Qed.

Lemma rerun_keeps_later_groups_witness :
  update_existing
    (lit ("# 2025-01-15" ++ nl ++ nl)
     ++ full_section
          (format_accomplishments_for_obsidian
             [Acc (lit "alpha") (lit "2025-01-15") (lit "released v2") [];
              Acc (lit "beta") (lit "2025-01-15") (lit "fixed parser") []])
     ++ lit (nl ++ nl ++ "## Meeting Notes" ++ nl))
    (format_accomplishments_for_obsidian
       [Acc (lit "alpha") (lit "2025-01-15") (lit "released v2") [];
        Acc (lit "beta") (lit "2025-01-15") (lit "fixed parser") []])
  = lit ("# 2025-01-15" ++ nl ++ nl ++ "## Development Work" ++ nl ++ nl
         ++ "### [[alpha]]" ++ nl ++ "- released v2" ++ nl ++ nl
         ++ "### [[beta]]" ++ nl ++ "- fixed parser" ++ nl
         ++ "### [[beta]]" ++ nl ++ "- fixed parser" ++ nl ++ nl
         ++ "## Meeting Notes" ++ nl).
Proof.
  exact (@rerun_keeps_later_groups
           (lit ("# 2025-01-15" ++ nl ++ nl)) "#"%char
           (lit ("## [[alpha]]" ++ nl ++ "- released v2" ++ nl))
           (lit ("# [[beta]]" ++ nl ++ "- fixed parser"))
           (lit (nl ++ nl ++ "## Meeting Notes" ++ nl))
           (format_accomplishments_for_obsidian
              [Acc (lit "alpha") (lit "2025-01-15") (lit "released v2") [];
               Acc (lit "beta") (lit "2025-01-15") (lit "fixed parser") []])
           eq_refl eq_refl eq_refl).
Defined.

Lemma startswith_snoc_newline h : forall s,
  no_newline h -> startswith h (s ++ [newline]) = true ->
  startswith h s = true.
Proof.
  induction h as [|a h IH]; intros s Hh H; [reflexivity|].
  apply no_newline_app with (a := [a]) in Hh. destruct Hh as [Ha Hh].
  destruct s as [|c s]; cbn [app startswith] in *.
  - apply andb_true_iff in H. destruct H as [H _].
    apply Ascii.eqb_eq in H. subst a. discriminate.
  - apply andb_true_iff in H. destruct H as [H1 H2]. rewrite H1.
    cbn [andb]. apply IH; assumption.
Qed.

Lemma contains_snoc_newline h s :
  no_newline h -> h <> [] ->
  contains h s = false -> contains h (s ++ [newline]) = false.
Proof.
  intros Hh Hne. induction s as [|c s IH]; intros H.
  - destruct h as [|a h]; [congruence|].
    apply no_newline_app with (a := [a]) in Hh. destruct Hh as [Ha _].
    cbn [app contains startswith].
    destruct (Ascii.eqb a newline) eqn:E; [|reflexivity].
    apply Ascii.eqb_eq in E. subst a. discriminate.
  - cbn [app contains] in *. apply orb_false_iff in H. destruct H as [H1 H2].
    rewrite (IH H2), orb_false_r.
    destruct (startswith h (c :: s ++ [newline])) eqn:E; [|reflexivity].
    apply (@startswith_snoc_newline h (c :: s) Hh) in E. congruence.
Qed.

(** X9. Merging the same body twice gives the note that merging it once
    gives, for a body that starts with a character that is no whitespace
    and holds no [\n##] (the rendering of no record, or of the records of
    one project), into a note in which the search finds a section or
    which does not hold the heading at all. *)
Theorem merge_twice_is_merge_once content c b :
  is_space c = false ->
  has_boundary (c :: b) = false ->
  (re_search section_pattern content = None ->
   contains section_header content = false) ->
  update_existing (update_existing content (c :: b)) (c :: b)
  = update_existing content (c :: b).
Proof.
  intros Hc Hb Hcontent.
  destruct (re_search section_pattern content) as [m|] eqn:Hm.
  - clear Hcontent. unfold re_search in Hm.
    change section_pattern with (section_regex section_header) in Hm.
    rewrite search_section in Hm. apply find_section_first in Hm.
    destruct Hm as [a [s [g [len [-> [Hs Hn]]]]]].
    apply section_at_inv in Hs. destruct Hs as [w [r [-> [Hw _]]]].
    rewrite (@update_at a (w ++ r) r (c :: b) Hn Hw).
    destruct (until_boundary_split r) as [_ Hafter].
    set (after := skipn (length (until_boundary r)) r) in *.
    rewrite update_written.
    + rewrite (until_boundary_exact _ Hb Hafter).
      rewrite skipn_app, Nat.sub_diag, skipn_all. reflexivity.
    + rewrite (@no_match_before_rest _ header_unbordered_here a _ (w ++ r)).
      exact Hn.
    + exact Hc.
  - specialize (Hcontent eq_refl).
    set (content' := if endswith [newline] content then content
                     else content ++ [newline]).
    assert (H' : contains section_header (content' ++ [newline]) = false).
    { apply contains_snoc_newline; [reflexivity|discriminate|].
      unfold content'. destruct (endswith [newline] content); [exact Hcontent|].
      apply contains_snoc_newline; [reflexivity|discriminate|exact Hcontent]. }
    assert (E1 : update_existing content (c :: b)
                 = (content' ++ [newline]) ++ full_section (c :: b) ++ []).
    { unfold update_existing. rewrite Hm. fold content'.
      rewrite app_nil_r, <- app_assoc. reflexivity. }
    rewrite E1. apply replace_written; auto.
Qed.

Lemma merge_twice_is_merge_once_witness :
  let note := lit ("# 2025-01-15" ++ nl ++ "notes") in
  let body := lit ("### [[alpha]]" ++ nl ++ "- released v2") in
  update_existing (update_existing note body) body
  = update_existing note body.
Proof.
  apply (@merge_twice_is_merge_once
           (lit ("# 2025-01-15" ++ nl ++ "notes")) "#"%char
           (lit ("## [[alpha]]" ++ nl ++ "- released v2")));
    reflexivity.
Defined.

End RerunFacts.

(** ** The two renderings and the order of the records *)
Module OrderFacts.
Import PyStr Re Parse Daily Collect Denote Terms PyStrFacts GroupFacts
       SortFacts RenderClaims.

Lemma by_key_irrefl x : ~ by_key x x.
Proof.
  unfold by_key, str_lt. rewrite str_ltb_irrefl. discriminate.
Qed.

Lemma by_key_asym x y : by_key x y -> by_key y x -> False.
Proof.
  unfold by_key, str_lt. intros H1 H2.
  pose proof (str_ltb_trans _ _ _ H1 H2) as H.
  rewrite str_ltb_irrefl in H. discriminate.
Qed.

(** A sorted list is given by its elements. *)
Lemma sorted_same_elements (l1 : list (str * list accomplishment)) :
  forall l2,
    StronglySorted by_key l1 -> StronglySorted by_key l2 ->
    (forall x, In x l1 <-> In x l2) -> l1 = l2.
Proof.
  induction l1 as [|x l1 IH]; intros [|y l2] H1 H2 Hin.
  - reflexivity.
  - destruct (proj2 (Hin y)). left. reflexivity.
  - destruct (proj1 (Hin x)). left. reflexivity.
  - apply StronglySorted_inv in H1. destruct H1 as [H1 Hx].
    apply StronglySorted_inv in H2. destruct H2 as [H2 Hy].
    rewrite Forall_forall in Hx, Hy.
    assert (E : x = y).
    { destruct (proj1 (Hin x) (or_introl eq_refl)) as [E|Hx2]; [auto|].
      destruct (proj2 (Hin y) (or_introl eq_refl)) as [E|Hy1]; [auto|].
      exfalso. eapply by_key_asym; [apply Hx|apply Hy]; eassumption. }
    subst y. f_equal. apply IH; auto.
    intros z. split; intros Hz.
    + destruct (proj1 (Hin z) (or_intror Hz)) as [E|H]; [|exact H].
      subst z. exfalso. apply (by_key_irrefl (Hx _ Hz)).
    + destruct (proj2 (Hin z) (or_intror Hz)) as [E|H]; [|exact H].
      subst z. exfalso. apply (by_key_irrefl (Hy _ Hz)).
Qed.

Lemma records_of_own accs a :
  In a accs -> In a (records_of accs (project a)).
Proof.
  intros H. apply filter_In. split; [exact H|apply str_eqb_refl].
Qed.

Lemma item_of_project accs p :
  records_of accs p <> [] ->
  In (p, records_of accs p) (sorted_items (group_by_project accs)).
Proof.
  intros Hne. destruct (sorted_groups accs) as [_ [Hkeys Hrec]].
  destruct (records_of accs p) as [|a r] eqn:E; [congruence|].
  assert (Ha : In a (records_of accs p)) by (rewrite E; left; reflexivity).
  apply filter_In in Ha. destruct Ha as [Ha Hp]. apply str_eqb_eq in Hp.
  assert (Hk : In p (map fst (sorted_items (group_by_project accs))))
    by (apply Hkeys; exists a; auto).
  apply in_map_iff in Hk. destruct Hk as [[q l] [Hq Hl]].
  cbn [fst] in Hq. subst q.
  destruct (Hrec _ _ Hl) as [-> _]. rewrite <- E. exact Hl.
Qed.

(** The sorted groups are given by the records of each project. *)
Lemma sorted_items_by_project accs1 accs2 :
  (forall p, records_of accs1 p = records_of accs2 p) ->
  sorted_items (group_by_project accs1) = sorted_items (group_by_project accs2).
Proof.
  intros H.
  apply sorted_same_elements.
  - apply sorted_items_sorted. apply group_by_project_grouped.
  - apply sorted_items_sorted. apply group_by_project_grouped.
  - intros [p l]. split; intros Hin.
    + destruct (sorted_groups accs1) as [_ [_ Hrec]].
      destruct (Hrec _ _ Hin) as [-> Hne]. rewrite H in *.
      apply item_of_project. exact Hne.
    + destruct (sorted_groups accs2) as [_ [_ Hrec]].
      destruct (Hrec _ _ Hin) as [-> Hne]. rewrite <- H in *.
      apply item_of_project. exact Hne.
Qed.

Lemma no_records_no_groups accs :
  (forall p, records_of accs p = []) -> accs = [].
Proof.
  intros H. destruct accs as [|a accs]; [reflexivity|].
  assert (Ha : In a (records_of (a :: accs) (project a)))
    by (apply records_of_own; left; reflexivity).
  rewrite H in Ha. destruct Ha.
Qed.

(** X10. The two renderings depend on the records of each project in
    their order, and on nothing else: two record lists that hold, for
    every project, the same records in the same order are rendered alike,
    in whatever order the files of the projects were found. *)
Theorem rendering_ignores_order_of_projects accs1 accs2 :
  (forall p, records_of accs1 p = records_of accs2 p) ->
  format_accomplishments_for_obsidian accs1
  = format_accomplishments_for_obsidian accs2
  /\ format_accomplishments accs1 = format_accomplishments accs2.
Proof.
  intros H.
  destruct accs1 as [|a1 l1].
  - rewrite (@no_records_no_groups accs2); [split; reflexivity|].
    intros p. rewrite <- H. reflexivity.
  - destruct accs2 as [|a2 l2].
    + exfalso. assert (E : a1 :: l1 = []); [|discriminate].
      apply no_records_no_groups. intros p. rewrite H. reflexivity.
    + unfold format_accomplishments_for_obsidian, format_accomplishments.
      rewrite (sorted_items_by_project _ _ H). split; reflexivity.
Qed.

Lemma rendering_ignores_order_of_projects_witness :
  let a1 := Acc (lit "alpha") (lit "2025-01-15") (lit "released v2") [] in
  let b1 := Acc (lit "beta") (lit "2025-01-15") (lit "fixed parser") [] in
  let b2 := Acc (lit "beta") (lit "2025-01-15") (lit "wrote docs") [] in
  format_accomplishments_for_obsidian [b1; a1; b2]
  = format_accomplishments_for_obsidian [a1; b1; b2]
  /\ format_accomplishments [b1; a1; b2] = format_accomplishments [a1; b1; b2].
Proof.
  cbv zeta. apply rendering_ignores_order_of_projects.
  intros p. unfold records_of. cbn [filter project].
  destruct (str_eqb (lit "beta") p) eqn:Hb, (str_eqb (lit "alpha") p) eqn:Ha;
    try reflexivity.
  apply str_eqb_eq in Hb, Ha. rewrite <- Ha in Hb. discriminate.
Defined.

Lemma display_of_items accs items :
  (forall p l, In (p, l) items -> l = records_of accs p) ->
  flat_map display_lines items
  = flat_map (display_block accs) (map fst items).
Proof.
  induction items as [|[p l] items IH]; intros H; [reflexivity|].
  cbn [flat_map map fst]. rewrite IH by (intros; apply H; right; assumption).
  f_equal. unfold display_lines, display_block. cbn [fst snd].
  rewrite (H p l) by (left; reflexivity). reflexivity.
Qed.

(** X11. The display text of some records is, for each project that has
    a record and in the order of the project names, an empty line, the
    line [## ] with the name, and then for each record of the project in
    turn its summary line and one line for each of its details. *)
Theorem display_groups_by_sorted_project accs :
  accs <> [] ->
  exists ps,
    StronglySorted str_lt ps
    /\ (forall p, In p ps <-> exists a, In a accs /\ project a = p)
    /\ format_accomplishments accs
       = join [newline] (flat_map (display_block accs) ps).
Proof.
  intros Hne.
  destruct (sorted_groups accs) as [Hs [Hkeys Hrec]].
  exists (map fst (sorted_items (group_by_project accs))).
  split; [exact Hs|]. split; [exact Hkeys|].
  destruct accs as [|a accs]; [congruence|].
  unfold format_accomplishments. f_equal.
  apply display_of_items. intros p l Hin. apply (Hrec _ _ Hin).
Qed.

Lemma display_groups_by_sorted_project_witness :
  let accs :=
    [Acc (lit "web") (lit "2025-01-15") (lit "Fixed login") [lit "see #12"];
     Acc (lit "api") (lit "2025-01-15") (lit "Released v2") [];
     Acc (lit "web") (lit "2025-01-15") (lit "Added tests") []] in
  accs <> []
  /\ exists ps,
       StronglySorted str_lt ps
       /\ (forall p, In p ps <-> exists a, In a accs /\ project a = p)
       /\ format_accomplishments accs
          = join [newline] (flat_map (display_block accs) ps).
Proof.
  intro accs. split; [discriminate|].
  apply (@display_groups_by_sorted_project accs). discriminate.
Defined.

(** X12. The body rendered for the note is never empty, starts with a
    character that is no whitespace and does not end in whitespace: the
    section written has its heading, one empty line and then text. *)
Theorem rendered_body_is_trimmed accs :
  exists c b,
    format_accomplishments_for_obsidian accs = c :: b
    /\ is_space c = false
    /\ rstripped (c :: b).
Proof.
  destruct accs as [|a accs].
  - eexists _, _. repeat split; reflexivity.
  - unfold format_accomplishments_for_obsidian.
    set (lines := flat_map project_lines
                    (sorted_items (group_by_project (a :: accs)))).
    assert (Hin : In "#"%char (strip (join [newline] lines))).
    { apply In_strip; [|reflexivity].
      destruct (sorted_groups (a :: accs)) as [_ [Hkeys _]].
      assert (Hk : In (project a)
                      (map fst (sorted_items (group_by_project (a :: accs)))))
        by (apply Hkeys; exists a; split; [left|]; reflexivity).
      unfold lines.
      destruct (sorted_items (group_by_project (a :: accs))) as [|it items];
        [destruct Hk|].
      cbn [flat_map project_lines app].
      destruct (join_head [newline] (lit "### [[" ++ fst it ++ lit "]]")
                  ((flat_map acc_lines (snd it) ++ [[]])
                   ++ flat_map project_lines items)) as [rest ->].
      left. reflexivity. }
    destruct (strip (join [newline] lines)) as [|c b] eqn:E; [destruct Hin|].
    exists c, b. split; [reflexivity|]. split.
    + eapply LoopFacts.strip_head. exact E.
    + rewrite <- E. apply strip_rstripped.
Qed.

End OrderFacts.

(** ** Dates as text, and the path of the daily note *)
Module DateFacts.
Import PyStr Re Parse Daily Run Denote Terms PyStrFacts RecordFacts.

Lemma code_digit_char n : code (digit_char n) = 48 + n mod 10.
Proof.
  unfold code, digit_char. apply nat_ascii_embedding.
  pose proof (Nat.mod_upper_bound n 10). lia.
Qed.

Lemma digit_char_digit n : is_digit (digit_char n) = true.
Proof.
  unfold is_digit. rewrite code_digit_char.
  pose proof (Nat.mod_upper_bound n 10).
  apply andb_true_iff. split; apply Nat.leb_le; lia.
Qed.

Lemma digit_val_char n : digit_val (digit_char n) = n mod 10.
Proof. unfold digit_val. rewrite code_digit_char. lia. Qed.

Lemma num_snoc s c : num (s ++ [c]) = 10 * num s + digit_val c.
Proof. unfold num. rewrite fold_left_app. reflexivity. Qed.

(** [str(n)] is the decimal writing of [n]. *)
Lemma decimal_fuel_spec fuel : forall n acc,
  n < fuel ->
  exists ds,
    decimal_fuel fuel n acc = ds ++ acc
    /\ forallb is_digit ds = true /\ num ds = n.
Proof.
  induction fuel as [|fuel IH]; intros n acc Hn; [lia|].
  cbn [decimal_fuel]. destruct (n <? 10) eqn:E.
  - apply Nat.ltb_lt in E. exists [digit_char n]. repeat split.
    + cbn [forallb]. rewrite digit_char_digit. reflexivity.
    + unfold num. cbn [fold_left]. rewrite digit_val_char.
      rewrite Nat.mod_small by exact E. lia.
  - apply Nat.ltb_ge in E.
    destruct (IH (n / 10) (digit_char n :: acc)) as [ds [E1 [E2 E3]]];
      [lia|].
    exists (ds ++ [digit_char n]). repeat split.
    + rewrite E1, <- app_assoc. reflexivity.
    + rewrite forallb_app, E2. cbn [forallb].
      rewrite digit_char_digit. reflexivity.
    + rewrite num_snoc, E3, digit_val_char. lia.
Qed.

Lemma decimal_spec n :
  forallb is_digit (decimal n) = true /\ num (decimal n) = n.
Proof.
  unfold decimal.
  destruct (@decimal_fuel_spec (S n) n [] (Nat.lt_succ_diag_r n))
    as [ds [E [H1 H2]]].
  rewrite E, app_nil_r. auto.
Qed.

Lemma pad2_spec n : forallb is_digit (pad2 n) = true /\ num (pad2 n) = n.
Proof.
  unfold pad2. destruct (decimal_spec n) as [H1 H2].
  destruct (n <? 10); [|auto].
  cbn [lit list_ascii_of_string app forallb]. split; [exact H1|].
  unfold num in *. cbn [fold_left]. exact H2.
Qed.

(** Two runs of digits, each in front of a character that is no digit. *)
Lemma digits_then_other a : forall b c c' r r',
  forallb is_digit a = true -> forallb is_digit b = true ->
  is_digit c = false -> is_digit c' = false ->
  a ++ c :: r = b ++ c' :: r' -> a = b /\ c :: r = c' :: r'.
Proof.
  induction a as [|x a IH]; intros [|y b] c c' r r' Ha Hb Hc Hc' E;
    cbn [app forallb] in *.
  - auto.
  - injection E as -> _. apply andb_true_iff in Hb. destruct Hb. congruence.
  - injection E as -> _. apply andb_true_iff in Ha. destruct Ha. congruence.
  - injection E as -> E. apply andb_true_iff in Ha, Hb.
    destruct Ha as [_ Ha], Hb as [_ Hb].
    destruct (IH _ _ _ _ _ Ha Hb Hc Hc' E) as [-> E']. auto.
Qed.

Lemma decimal_then_other n1 n2 c r r' :
  is_digit c = false ->
  decimal n1 ++ c :: r = decimal n2 ++ c :: r' -> n1 = n2 /\ r = r'.
Proof.
  intros Hc E.
  destruct (decimal_spec n1) as [H1 E1], (decimal_spec n2) as [H2 E2].
  destruct (@digits_then_other _ _ _ _ _ _ H1 H2 Hc Hc E) as [Ed Er].
  split; [congruence|]. injection Er as ->. reflexivity.
Qed.

Lemma pad2_then_other n1 n2 c r r' :
  is_digit c = false ->
  pad2 n1 ++ c :: r = pad2 n2 ++ c :: r' -> n1 = n2 /\ r = r'.
Proof.
  intros Hc E.
  destruct (pad2_spec n1) as [H1 E1], (pad2_spec n2) as [H2 E2].
  destruct (@digits_then_other _ _ _ _ _ _ H1 H2 Hc Hc E) as [Ed Er].
  split; [congruence|]. injection Er as ->. reflexivity.
Qed.

Lemma split_sep_last x : forall cur,
  no_slash x = true -> split_sep cur x = [rev cur ++ x].
Proof.
  induction x as [|c x IH]; intros cur H; cbn [split_sep].
  - rewrite app_nil_r. reflexivity.
  - cbn [no_slash forallb] in H. apply andb_true_iff in H.
    destruct H as [Hc Hx]. apply negb_true_iff in Hc. rewrite Hc.
    rewrite (IH (c :: cur) Hx). cbn [rev]. rewrite <- app_assoc.
    reflexivity.
Qed.

Lemma split_sep_piece x s : forall cur,
  no_slash x = true ->
  split_sep cur (x ++ "/"%char :: s) = (rev cur ++ x) :: split_sep [] s.
Proof.
  induction x as [|c x IH]; intros cur H; cbn [split_sep app].
  - rewrite app_nil_r. reflexivity.
  - cbn [no_slash forallb] in H. apply andb_true_iff in H.
    destruct H as [Hc Hx]. apply negb_true_iff in Hc. rewrite Hc.
    rewrite (IH (c :: cur) Hx). cbn [rev]. rewrite <- app_assoc.
    reflexivity.
Qed.

Lemma digits_no_slash s : forallb is_digit s = true -> no_slash s = true.
Proof.
  induction s as [|c s IH]; [reflexivity|].
  cbn [forallb no_slash]. intros H. apply andb_true_iff in H.
  destruct H as [Hc Hs]. apply andb_true_iff. split; [|apply IH, Hs].
  destruct c as [[] [] [] [] [] [] [] []]; (reflexivity || discriminate).
Qed.

Lemma no_slash_app a b :
  no_slash a = true -> no_slash b = true -> no_slash (a ++ b) = true.
Proof.
  intros Ha Hb. unfold no_slash in *. rewrite forallb_app, Ha, Hb.
  reflexivity.
Qed.

Lemma month_name_no_slash n : no_slash (nth n month_names []) = true.
Proof. do 12 (destruct n as [|n]; [reflexivity|]). destruct n; reflexivity. Qed.

Lemma decimal_fuel_nonempty fuel : forall n acc,
  acc <> [] \/ fuel <> 0 -> decimal_fuel fuel n acc <> [].
Proof.
  induction fuel as [|fuel IH]; intros n acc H; cbn [decimal_fuel].
  - destruct H as [H|H]; congruence.
  - destruct (n <? 10); [discriminate|].
    apply IH. left. discriminate.
Qed.

(** [str(n)] starts with a digit. *)
Lemma decimal_head n :
  exists c t, decimal n = c :: t /\ is_digit c = true.
Proof.
  destruct (decimal_spec n) as [H _].
  assert (Hne : decimal n <> [])
    by (apply decimal_fuel_nonempty; right; discriminate).
  destruct (decimal n) as [|c t]; [congruence|].
  exists c, t. split; [reflexivity|].
  cbn [forallb] in H. apply andb_true_iff in H. apply H.
Qed.

Lemma pad2_head n : exists c t, pad2 n = c :: t /\ is_digit c = true.
Proof.
  unfold pad2. destruct (n <? 10).
  - exists "0"%char, (decimal n). split; reflexivity.
  - apply decimal_head.
Qed.

Lemma digit_name c t : is_digit c = true -> is_name (c :: t) = true.
Proof.
  intros H. unfold is_name, str_eqb.
  destruct (list_eq_dec ascii_dec (c :: t) []) as [E|_]; [discriminate|].
  destruct (list_eq_dec ascii_dec (c :: t) (lit ".")) as [E|_];
    [|reflexivity].
  injection E as -> _. discriminate.
Qed.

Lemma daily_note_file_no_slash d : no_slash (daily_note_file d) = true.
Proof.
  unfold daily_note_file.
  destruct (decimal_spec (year d)) as [H1 _].
  destruct (pad2_spec (month d)) as [H2 _].
  destruct (pad2_spec (day d)) as [H3 _].
  repeat apply no_slash_app;
    try (apply digits_no_slash; assumption); reflexivity.
Qed.

(** The relative path of the format is its names with slashes between
    them. *)
Lemma note_names_text d :
  join (lit "/") (note_names d)
  = daily_note_dir d ++ lit "/" ++ daily_note_file d.
Proof.
  unfold note_names, daily_note_dir. cbn [join].
  rewrite <- ?app_assoc. reflexivity.
Qed.

Lemma note_folder_names_text d :
  join (lit "/") (removelast (note_names d)) = daily_note_dir d.
Proof.
  unfold note_names, daily_note_dir. cbn [removelast join].
  rewrite <- ?app_assoc. reflexivity.
Qed.

(** [Path] of the relative path of the format: no root, and the names. *)
Lemma path_of_note_names d :
  Path (daily_note_dir d ++ lit "/" ++ daily_note_file d)
  = PurePath [] (note_names d).
Proof.
  destruct (decimal_head (year d)) as [c1 [t1 [E1 D1]]].
  destruct (pad2_head (month d)) as [c2 [t2 [E2 D2]]].
  destruct (decimal_spec (year d)) as [H1 _].
  destruct (pad2_spec (month d)) as [H2 _].
  assert (Hfile : is_name (daily_note_file d) = true).
  { unfold daily_note_file. rewrite E1. cbn [app]. apply digit_name, D1. }
  assert (Hthird : no_slash (pad2 (month d) ++ lit "-"
                             ++ nth (month d - 1) month_names []) = true).
  { repeat apply no_slash_app;
      [apply digits_no_slash, H2|reflexivity|apply month_name_no_slash]. }
  unfold Path.
  replace (daily_note_dir d ++ lit "/" ++ daily_note_file d)
    with (lit "Daily Notes" ++ "/"%char
          :: decimal (year d) ++ "/"%char
          :: (pad2 (month d) ++ lit "-" ++ nth (month d - 1) month_names [])
          ++ "/"%char :: daily_note_file d)
    by (unfold daily_note_dir; rewrite <- !app_assoc; reflexivity).
  change (splitroot (lit "Daily Notes" ++ ?x))
    with (@nil ascii, lit "Daily Notes" ++ x).
  cbv beta iota.
  rewrite split_sep_piece by reflexivity.
  rewrite split_sep_piece by (apply digits_no_slash, H1).
  rewrite split_sep_piece by exact Hthird.
  rewrite split_sep_last by apply daily_note_file_no_slash.
  assert (Hy : is_name (decimal (year d)) = true)
    by (rewrite E1; apply digit_name, D1).
  assert (Hm : is_name (pad2 (month d) ++ lit "-"
                        ++ nth (month d - 1) month_names []) = true)
    by (rewrite E2; cbn [app]; apply digit_name, D2).
  cbn [rev app filter].
  change (is_name (lit "Daily Notes")) with true. cbv iota.
  rewrite Hy, Hm, Hfile. reflexivity.
Qed.

Lemma join_after (names l : list str) :
  l <> [] ->
  join (lit "/") (names ++ l) = slashed names ++ join (lit "/") l.
Proof.
  intros Hl. induction names as [|x [|y names] IH].
  - reflexivity.
  - destruct l as [|z l]; [congruence|].
    unfold slashed. cbn [app join]. rewrite <- app_assoc. reflexivity.
  - change ((x :: y :: names) ++ l) with (x :: (y :: names) ++ l).
    change (join (lit "/") (x :: (y :: names) ++ l))
      with (x ++ lit "/" ++ join (lit "/") ((y :: names) ++ l)).
    rewrite IH. unfold slashed. cbn [join].
    rewrite <- !app_assoc. reflexivity.
Qed.

Lemma get_daily_note_path_spec vault d :
  get_daily_note_path vault d
  = PurePath (path_root (Path vault))
             (path_names (Path vault) ++ note_names d).
Proof.
  unfold get_daily_note_path, joinpath. rewrite path_of_note_names.
  reflexivity.
Qed.

(** The text of the path of the note: what the vault gives, then the
    relative path of the format. *)
Lemma daily_note_path_text vault d :
  daily_note_path vault d
  = anchor vault ++ daily_note_dir d ++ lit "/" ++ daily_note_file d.
Proof.
  unfold daily_note_path. rewrite get_daily_note_path_spec.
  assert (E : path_root (Path vault)
              ++ join (lit "/") (path_names (Path vault) ++ note_names d)
              = anchor vault
                ++ daily_note_dir d ++ lit "/" ++ daily_note_file d).
  { rewrite join_after by discriminate.
    rewrite note_names_text, app_assoc. reflexivity. }
  unfold path_str. cbn [path_root path_names]. rewrite E.
  unfold daily_note_dir. destruct (anchor vault); reflexivity.
Qed.

Lemma parent_note_path vault d :
  parent (get_daily_note_path vault d)
  = PurePath (path_root (Path vault))
             (path_names (Path vault) ++ removelast (note_names d)).
Proof.
  rewrite get_daily_note_path_spec. unfold parent.
  cbn [path_root path_names].
  rewrite removelast_app by discriminate. reflexivity.
Qed.

Lemma note_folder_raw vault d :
  path_root (Path vault)
  ++ join (lit "/") (path_names (Path vault) ++ removelast (note_names d))
  = anchor vault ++ daily_note_dir d.
Proof.
  rewrite join_after by discriminate.
  rewrite note_folder_names_text, app_assoc. reflexivity.
Qed.

Lemma daily_note_folder_text vault d :
  daily_note_folder vault d = anchor vault ++ daily_note_dir d.
Proof.
  unfold daily_note_folder. rewrite parent_note_path.
  unfold path_str. cbn [path_root path_names]. rewrite note_folder_raw.
  unfold daily_note_dir. destruct (anchor vault); reflexivity.
Qed.






Lemma daily_note_path_injective vault d1 d2 :
  daily_note_path vault d1 = daily_note_path vault d2 -> d1 = d2.
Proof.
  rewrite !daily_note_path_text.
  unfold daily_note_dir, daily_note_file.
  destruct d1 as [y1 m1 a1], d2 as [y2 m2 a2]. cbn [year month day].
  rewrite <- !app_assoc. intros E.
  do 2 apply app_inv_head in E. cbn [lit list_ascii_of_string app] in E.
  apply decimal_then_other in E; [|reflexivity]. destruct E as [-> E].
  apply pad2_then_other in E; [|reflexivity]. destruct E as [-> E].
  apply app_inv_head in E. injection E as E.
  apply app_inv_head in E. injection E as E.
  apply app_inv_head in E. injection E as E.
  apply pad2_then_other in E; [|reflexivity]. destruct E as [-> _].
  reflexivity.
Qed.

(** X13. The notes of two dates are two files: in one vault, the paths
    of the daily notes of two different dates differ. *)
Theorem two_dates_two_notes vault d1 d2 :
  d1 <> d2 -> daily_note_path vault d1 <> daily_note_path vault d2.
Proof. intros H E. apply H. eapply daily_note_path_injective. exact E. Qed.

Lemma two_dates_two_notes_witness :
  daily_note_path (lit "/vault") (Date 2025 1 15)
  <> daily_note_path (lit "/vault") (Date 2025 11 5).
Proof. apply two_dates_two_notes. discriminate. Defined.

Lemma decimal_four y :
  1000 <= y < 10 * 1000 ->
  decimal y = [digit_char (y / 10 / 10 / 10); digit_char (y / 10 / 10);
               digit_char (y / 10); digit_char y].
Proof.
  intros Hy. unfold decimal.
  destruct y as [|[|[|y]]]; try lia.
  remember (S (S (S y))) as n.
  assert (E0 : (n <? 10) = false) by (apply Nat.ltb_ge; lia).
  assert (E1 : (n / 10 <? 10) = false) by (apply Nat.ltb_ge; lia).
  assert (E2 : (n / 10 / 10 <? 10) = false) by (apply Nat.ltb_ge; lia).
  assert (E3 : (n / 10 / 10 / 10 <? 10) = true) by (apply Nat.ltb_lt; lia).
  cbn [decimal_fuel]. rewrite E0. rewrite Heqn at 1.
  cbn [decimal_fuel]. rewrite E1, E2, E3. reflexivity.
Qed.

Lemma pad2_two n :
  n < 100 -> pad2 n = [digit_char (n / 10); digit_char n].
Proof.
  intros Hn. unfold pad2, decimal. destruct (n <? 10) eqn:E.
  - apply Nat.ltb_lt in E. cbn [decimal_fuel]. rewrite (proj2 (Nat.ltb_lt _ _) E).
    rewrite Nat.div_small by exact E. reflexivity.
  - apply Nat.ltb_ge in E. destruct n as [|n]; [lia|].
    remember (S n) as k.
    assert (E1 : (k <? 10) = false) by (apply Nat.ltb_ge; lia).
    assert (E2 : (k / 10 <? 10) = true) by (apply Nat.ltb_lt; lia).
    cbn [decimal_fuel]. rewrite E1. rewrite Heqk at 1.
    cbn [decimal_fuel]. rewrite E2. reflexivity.
Qed.

Lemma days_in_month_small y m : days_in_month y m <= 31.
Proof.
  unfold days_in_month.
  do 12 (destruct m as [|m]; [try destruct (is_leap y); lia|]). lia.
Qed.

Lemma strptime_of_strftime d :
  calendar_date d -> strptime_ymd (strftime_ymd d) = Some d.
Proof.
  unfold calendar_date, strftime_ymd. destruct d as [y m a].
  cbn [year month day]. intros [Hy [Hm Ha]].
  pose proof (days_in_month_small y m) as Hs.
  rewrite decimal_four by exact Hy.
  rewrite !pad2_two by lia.
  cbn [lit list_ascii_of_string app strptime_ymd forallb].
  rewrite !digit_char_digit. cbn [andb is_char Ascii.eqb Bool.eqb].
  rewrite !digit_val_char.
  replace (1000 * ((y / 10 / 10 / 10) mod 10) + 100 * ((y / 10 / 10) mod 10)
           + 10 * ((y / 10) mod 10) + y mod 10) with y by lia.
  replace (10 * ((m / 10) mod 10) + m mod 10) with m by lia.
  replace (10 * ((a / 10) mod 10) + a mod 10) with a by lia.
  replace (1 <=? y) with true by (symmetry; apply Nat.leb_le; lia).
  replace (1 <=? m) with true by (symmetry; apply Nat.leb_le; lia).
  replace (m <=? 12) with true by (symmetry; apply Nat.leb_le; lia).
  replace (1 <=? a) with true by (symmetry; apply Nat.leb_le; lia).
  replace (a <=? days_in_month y m) with true
    by (symmetry; apply Nat.leb_le; lia).
  reflexivity.
Qed.

(** The text of a calendar date is a date token. *)
Lemma strftime_token d :
  calendar_date d ->
  exists y1 y2 y3 y4 m1 m2 d1 d2,
    strftime_ymd d = token y1 y2 y3 y4 m1 m2 d1 d2
    /\ forallb is_digit [y1; y2; y3; y4; m1; m2; d1; d2] = true.
Proof.
  unfold calendar_date, strftime_ymd. destruct d as [y m a].
  cbn [year month day]. intros [Hy [Hm Ha]].
  pose proof (days_in_month_small y m) as Hs.
  rewrite decimal_four by exact Hy.
  rewrite !pad2_two by lia.
  do 8 eexists. split; [reflexivity|].
  cbn [forallb]. rewrite !digit_char_digit. reflexivity.
Qed.

(** X14. A date written with [strftime('%Y-%m-%d')] is read back by
    [strptime] as the same date: the text that one script writes for a
    date names that date for the script that reads it. *)
Theorem written_date_is_read_back d :
  calendar_date d -> strptime_ymd (strftime_ymd d) = Some d.
Proof. apply strptime_of_strftime. Qed.

Lemma written_date_is_read_back_witness :
  strptime_ymd (strftime_ymd (Date 2024 2 29)) = Some (Date 2024 2 29).
Proof.
  apply written_date_is_read_back. unfold calendar_date.
  cbn [year month day]. repeat split; try lia.
  vm_compute. lia.
Defined.

End DateFacts.

(** ** The run of update-obsidian-daily.py on the file tree *)
Module RunFacts.
Import PyStr Re Parse Daily Run Denote Terms GroupFacts RunClaims DateFacts.





Section Script.

Variable script_dir : path.
Variable json_vault_path : str -> option (option str).
Variable strptime_arg : str -> option date.
Variable today : date.
Variable run_accomplishment_parser : date -> M (list accomplishment).

Local Abbreviation get_config := (get_config script_dir json_vault_path).
Local Abbreviation update_daily_note :=
  (update_daily_note script_dir json_vault_path).
Local Abbreviation main :=
  (main script_dir json_vault_path strptime_arg today
        run_accomplishment_parser).
Local Abbreviation configured_vault :=
  (configured_vault script_dir json_vault_path).
Local Abbreviation config_result :=
  (config_result script_dir json_vault_path).
Local Abbreviation config_file := (config_file script_dir).
Local Abbreviation body := format_accomplishments_for_obsidian.

(** The text the note holds after an update. *)
Local Abbreviation note_text accs d old :=
  (match old with
   | Some (File content) => update_existing content (body accs)
   | _ => template d (body accs)
   end).

Lemma override_vault_spec a w :
  override_vault a w
  = (Ok tt,
     match truthy (arg_vault a) with
     | Some v => World (fs w) v ((lit "OBSIDIAN_VAULT_PATH", v) :: environ w)
                       (stdout w)
     | None => w
     end).
Proof using Type.
  unfold override_vault. destruct (truthy (arg_vault a)); reflexivity.
Qed.

Lemma configured_vault_spec a w :
  configured_vault a w
  = match config_result (fs w)
            (match truthy (arg_vault a) with
             | Some v => v
             | None => OBSIDIAN_VAULT_PATH w
             end) with
    | Ok v => Some v
    | Raise _ => None
    end.
Proof using Type.
  unfold Run.configured_vault, bind. rewrite override_vault_spec.
  rewrite get_config_spec.
  destruct (truthy (arg_vault a)); reflexivity.
Qed.

(** X15. The configuration file decides: when [config.json] holds the key
    [obsidian_vault_path], the vault of the run is the value of the key,
    whatever [--vault] argument was given and whatever the environment
    held. *)
Theorem config_file_beats_vault_argument a w text v :
  fs w config_file = Some (File text) ->
  json_vault_path text = Some (Some v) ->
  configured_vault a w = Some v.
Proof using Type.
  intros Hf Hj. rewrite configured_vault_spec.
  unfold Run.config_result. rewrite Hf, Hj. reflexivity.
Qed.

(** X16. Without the key in a configuration file, the vault of the run
    is the [--vault] argument when one is given and not empty, and else
    the module global, which the environment variable sets. *)
Theorem vault_argument_beats_environment a w :
  fs w config_file = None
  \/ (exists text, fs w config_file = Some (File text)
                   /\ json_vault_path text = Some None) ->
  configured_vault a w
  = Some (match truthy (arg_vault a) with
          | Some v => v
          | None => OBSIDIAN_VAULT_PATH w
          end).
Proof using Type.
  intros H. rewrite configured_vault_spec. unfold Run.config_result.
  destruct H as [->|[text [-> ->]]]; reflexivity.
Qed.

Lemma print_spec o w :
  print o w = (Ok tt, World (fs w) (OBSIDIAN_VAULT_PATH w) (environ w)
                            (stdout w ++ [o])).
Proof using Type. reflexivity. Qed.





(** The date of the run, as [main] takes it from the command line. *)
Lemma target_date_step a w :
  (match truthy (arg_date a) with
   | Some s =>
       match strptime_arg s with
       | Some d => ret d
       | None => raise ValueError
       end
   | None => ret today
   end) w
  = (match truthy (arg_date a) with
     | Some s =>
         match strptime_arg s with
         | Some d => Ok d
         | None => Raise ValueError
         end
     | None => Ok today
     end, w).
Proof using Type.
  destruct (truthy (arg_date a)) as [s|]; [destruct (strptime_arg s)|];
    reflexivity.
Qed.

(** X19. A [--date] argument that is no date ends the run with a
    ValueError before anything is printed, created or written. *)
Theorem malformed_date_aborts_the_run a w s :
  truthy (arg_date a) = Some s ->
  strptime_arg s = None ->
  exists w',
    main a w = (Raise ValueError, w')
    /\ fs w' = fs w /\ stdout w' = stdout w.
Proof using Type.
  intros Hs Hd. unfold Run.main, bind at 1. rewrite override_vault_spec.
  unfold bind at 1. rewrite target_date_step, Hs, Hd.
  eexists. split; [reflexivity|].
  destruct (truthy (arg_vault a)); split; reflexivity.
Qed.

(** X20. When the configuration cannot be read ([config.json] is no
    JSON text, or cannot be opened as a file), the run ends with exit
    status 1 and the file tree is as it was. *)
Theorem unreadable_configuration_aborts_the_run a w :
  configured_vault a w = None ->
  exists r w', main a w = (r, w') /\ exit_status r = 1 /\ fs w' = fs w.
Proof using Type.
  rewrite configured_vault_spec. intros Hc.
  unfold Run.main, bind at 1. rewrite override_vault_spec.
  set (w0 := match truthy (arg_vault a) with
             | Some v => World (fs w) v
                               ((lit "OBSIDIAN_VAULT_PATH", v) :: environ w)
                               (stdout w)
             | None => w
             end).
  assert (Hfs : fs w0 = fs w) by (unfold w0; destruct (truthy (arg_vault a)); reflexivity).
  assert (Hg : OBSIDIAN_VAULT_PATH w0
               = match truthy (arg_vault a) with
                 | Some v => v
                 | None => OBSIDIAN_VAULT_PATH w
                 end)
    by (unfold w0; destruct (truthy (arg_vault a)); reflexivity).
  unfold bind at 1. rewrite target_date_step.
  destruct (match truthy (arg_date a) with
            | Some s => match strptime_arg s with
                        | Some d => Ok d
                        | None => Raise ValueError
                        end
            | None => Ok today
            end) as [d|e].
  - unfold bind at 1. rewrite print_spec. unfold bind at 1.
    rewrite get_config_spec. cbn [fs OBSIDIAN_VAULT_PATH].
    rewrite Hfs, Hg.
    destruct (config_result (fs w)
                (match truthy (arg_vault a) with
                 | Some v => v
                 | None => OBSIDIAN_VAULT_PATH w
                 end)) as [v|e]; [discriminate|].
    eexists. eexists. split; [reflexivity|]. split; reflexivity.
  - eexists. eexists. split; [reflexivity|]. split; [reflexivity|exact Hfs].
Qed.

End Script.

Lemma config_file_beats_vault_argument_witness :
  let w :=
    World (fun q => if str_eqb q (lit "/scripts/config.json")
                    then Some (File (lit "{}")) else None)
          (lit "/home/jon/obsidian-vault") [] [] in
  configured_vault (lit "/scripts") (fun _ => Some (Some (lit "/from/file")))
                   (Args None (Some (lit "/from/argument"))) w
  = Some (lit "/from/file").
Proof.
  apply (@config_file_beats_vault_argument
           (lit "/scripts") (fun _ => Some (Some (lit "/from/file")))
           (Args None (Some (lit "/from/argument"))) _ (lit "{}"));
    reflexivity.
Defined.

Lemma vault_argument_beats_environment_witness :
  configured_vault (lit "/scripts") (fun _ => None)
                   (Args None (Some (lit "/from/argument")))
                   (World (fun _ => None) (lit "/from/environment") [] [])
  = Some (lit "/from/argument").
Proof.
  apply (@vault_argument_beats_environment
           (lit "/scripts") (fun _ => None)
           (Args None (Some (lit "/from/argument")))
           (World (fun _ => None) (lit "/from/environment") [] [])).
  left. reflexivity.
Defined.



Lemma malformed_date_aborts_the_run_witness :
  let a := Args (Some (lit "tomorrow")) None in
  let w := World (fun _ => None) (lit "/vault") [] [] in
  exists w',
    main (lit "/scripts") (fun _ => None) strptime_ymd (Date 2025 1 15)
         (fun _ => ret []) a w = (Raise ValueError, w')
    /\ fs w' = fs w /\ stdout w' = stdout w.
Proof.
  apply (@malformed_date_aborts_the_run
           (lit "/scripts") (fun _ => None) strptime_ymd (Date 2025 1 15)
           (fun _ => ret []) (Args (Some (lit "tomorrow")) None)
           (World (fun _ => None) (lit "/vault") [] []) (lit "tomorrow"));
    reflexivity.
Defined.

Lemma unreadable_configuration_aborts_the_run_witness :
  let w :=
    World (fun q => if str_eqb q (lit "/scripts/config.json")
                    then Some (File (lit "{")) else None)
          (lit "/vault") [] [] in
  exists r w',
    main (lit "/scripts") (fun _ => None) strptime_ymd (Date 2025 1 15)
         (fun _ => ret []) (Args None None) w = (r, w')
    /\ exit_status r = 1 /\ fs w' = fs w.
Proof.
  apply (@unreadable_configuration_aborts_the_run
           (lit "/scripts") (fun _ => None) strptime_ymd (Date 2025 1 15)
           (fun _ => ret []) (Args None None)).
  reflexivity.
Defined.

End RunFacts.

(** ** The log file that update-project-claudemd.py writes *)
Module ClaudemdFacts.
Import PyStr Re Parse Daily Run Claudemd Denote Terms PyStrFacts ReFacts
       SectionFacts LineFacts LoopFacts EntryFacts EntryClaims ReplaceFacts
       EmphasisClaims MergeClaims RenderClaims RecordFacts RerunFacts
       DateFacts.

Lemma some_eq {A} (x y : A) : Some x = Some y -> x = y.
Proof. congruence. Qed.

Lemma join_split_acc s : forall cur,
  join [newline] (split_acc cur s) = rev cur ++ s.
Proof.
  induction s as [|c s IH]; intros cur; cbn [split_acc].
  - cbn [join]. rewrite app_nil_r. reflexivity.
  - destruct (Ascii.eqb c newline) eqn:E.
    + apply Ascii.eqb_eq in E. subst c.
      rewrite join_cons by apply split_acc_nonempty.
      rewrite IH. reflexivity.
    + rewrite IH. cbn [rev]. rewrite <- app_assoc. reflexivity.
Qed.

(** Joining the lines of a text gives the text back. *)
Lemma join_split_lines s : join [newline] (split_lines s) = s.
Proof. apply join_split_acc. Qed.

Lemma join_app sep (l1 l2 : list str) :
  l1 <> [] -> l2 <> [] ->
  join sep (l1 ++ l2) = join sep l1 ++ sep ++ join sep l2.
Proof.
  intros H1 H2. induction l1 as [|x l1 IH]; [congruence|].
  destruct l1 as [|y l1].
  - cbn [app]. rewrite join_cons by exact H2. reflexivity.
  - cbn [app] in *. rewrite join_cons by discriminate.
    rewrite IH by discriminate.
    rewrite (@join_cons sep x (y :: l1)) by discriminate.
    rewrite <- !app_assoc. reflexivity.
Qed.

Lemma first_heading_spec lines : forall i k,
  first_heading i lines = Some k ->
  3 < k
  /\ exists l1 line l2,
       lines = l1 ++ line :: l2 /\ i + length l1 = k
       /\ startswith (lit "## ") line = true.
Proof.
  induction lines as [|line lines IH]; intros i k; cbn [first_heading];
    [discriminate|].
  destruct (startswith (lit "## ") line && (3 <? i)) eqn:E.
  - intros H. injection H as <-. apply andb_true_iff in E.
    destruct E as [E1 E2]. apply Nat.ltb_lt in E2. split; [exact E2|].
    exists [], line, lines. cbn [app length]. repeat split; [lia|exact E1].
  - intros H. apply IH in H. destruct H as [Hk [l1 [l [l2 [-> [Hl Hs]]]]]].
    split; [exact Hk|]. exists (line :: l1), l, l2. cbn [app length].
    repeat split; [lia|exact Hs].
Qed.

(** Where the section is put: after at least one line, and either at the
    end or in front of a line that starts with [## ]. *)
Lemma insert_index_spec lines :
  lines <> [] ->
  exists l1 l2,
    lines = l1 ++ l2 /\ length l1 = insert_index lines /\ l1 <> []
    /\ (l2 = []
        \/ (3 < length l1
            /\ exists line rest,
                 l2 = line :: rest /\ startswith (lit "## ") line = true)).
Proof.
  intros Hne. unfold insert_index.
  destruct (first_heading 0 lines) as [k|] eqn:E.
  - apply first_heading_spec in E.
    destruct E as [Hk [l1 [line [l2 [-> [Hl Hs]]]]]]. cbn [Nat.add] in Hl.
    exists l1, (line :: l2). repeat split; auto.
    + intros ->. cbn [length] in Hl. lia.
    + right. split; [lia|]. exists line, l2. auto.
  - exists lines, []. rewrite app_nil_r. repeat split; auto.
Qed.

(** The loop passes no line after the fourth that starts with [## ]. *)
Lemma first_heading_passes lines : forall i,
  match first_heading i lines with
  | Some k =>
      forall j x, nth_error lines j = Some x -> 3 < i + j -> i + j < k ->
                  startswith (lit "## ") x = false
  | None =>
      forall j x, nth_error lines j = Some x -> 3 < i + j ->
                  startswith (lit "## ") x = false
  end.
Proof.
  induction lines as [|line lines IH]; intros i; cbn [first_heading].
  - intros [|j] x H; discriminate.
  - destruct (startswith (lit "## ") line && (3 <? i)) eqn:E.
    + intros j x _ _ H. lia.
    + specialize (IH (S i)).
      assert (Hhere : 3 < i -> startswith (lit "## ") line = false).
      { intros Hi. apply andb_false_iff in E. destruct E as [E|E];
          [exact E|]. apply Nat.ltb_ge in E. lia. }
      destruct (first_heading (S i) lines) as [k|].
      * intros [|j] x Hx Hj Hk; cbn [nth_error] in Hx.
        -- injection Hx as <-. apply Hhere. lia.
        -- apply (IH j x Hx); lia.
      * intros [|j] x Hx Hj; cbn [nth_error] in Hx.
        -- injection Hx as <-. apply Hhere. lia.
        -- apply (IH j x Hx); lia.
Qed.

Lemma Forall_skipn_nth {A} (P : A -> Prop) (l : list A) : forall n,
  (forall j x, nth_error l j = Some x -> n <= j -> P x) ->
  Forall P (skipn n l).
Proof.
  induction l as [|a l IH]; intros n H.
  - rewrite skipn_nil. constructor.
  - destruct n as [|n]; cbn [skipn].
    + constructor.
      * apply (H 0 a); [reflexivity|lia].
      * apply (IH 0). intros j x Hx _. apply (H (S j) x); [exact Hx|lia].
    + apply IH. intros j x Hx Hj. apply (H (S j) x); [exact Hx|lia].
Qed.

(** No line in front of the place of the section, the first four apart,
    starts with [## ]. *)
Lemma insert_index_first lines :
  Forall (fun line => startswith (lit "## ") line = false)
         (skipn 4 (firstn (insert_index lines) lines)).
Proof.
  apply Forall_skipn_nth. intros j x Hx Hj.
  pose proof (first_heading_passes lines 0) as H. unfold insert_index in Hx.
  assert (Hlt : j < length (firstn (match first_heading 0 lines with
                                    | Some i => i
                                    | None => length lines
                                    end) lines)).
  { apply nth_error_Some. congruence. }
  rewrite nth_error_firstn in Hx.
  destruct (first_heading 0 lines) as [k|].
  - rewrite length_firstn in Hlt.
    destruct (j <? k) eqn:Ej; [|discriminate].
    apply Nat.ltb_lt in Ej. apply (H j x Hx); lia.
  - destruct (j <? length lines); [|discriminate].
    apply (H j x Hx). lia.
Qed.

Lemma startswith_app p s t : startswith p s = true -> startswith p (s ++ t) = true.
Proof.
  revert s. induction p as [|a p IH]; intros [|c s] H; cbn [app startswith] in *;
    try reflexivity; try discriminate.
  apply andb_true_iff in H. destruct H as [H1 H2]. rewrite H1. cbn [andb].
  apply IH. exact H2.
Qed.

Lemma join_starts sep (line : str) rest p :
  startswith p line = true -> startswith p (join sep (line :: rest)) = true.
Proof.
  intros H. destruct rest as [|x rest]; [exact H|].
  rewrite join_cons by discriminate. apply startswith_app. exact H.
Qed.

Lemma join_cons_any sep (x : str) l :
  join sep (x :: l) = x ++ joined_after sep l.
Proof. destruct l; cbn [join joined_after]; [rewrite app_nil_r|]; reflexivity. Qed.

Lemma joined_after_app sep (l1 l2 : list str) :
  joined_after sep (l1 ++ l2) = joined_after sep l1 ++ joined_after sep l2.
Proof.
  induction l1 as [|x l1 IH]; [reflexivity|].
  cbn [app]. unfold joined_after at 1 2. fold (joined_after sep).
  rewrite !join_cons_any, IH, <- !app_assoc. reflexivity.
Qed.

Lemma join_app_any sep (l1 l2 : list str) :
  l1 <> [] -> join sep (l1 ++ l2) = join sep l1 ++ joined_after sep l2.
Proof.
  destruct l1 as [|x l1]; [congruence|]. intros _. cbn [app].
  rewrite !join_cons_any, joined_after_app, <- app_assoc. reflexivity.
Qed.

(** The lines of a text made of lines are those lines. *)
Lemma split_join_lines (l : list str) :
  l <> [] -> Forall no_newline l -> split_lines (join [newline] l) = l.
Proof.
  intros Hne Hnl. induction l as [|x l IH]; [congruence|].
  inversion Hnl; subst. destruct l as [|y l].
  - apply split_lines_line. assumption.
  - rewrite join_cons by discriminate. cbn [app].
    rewrite split_lines_app, IH by (assumption || discriminate).
    rewrite split_lines_line by assumption. reflexivity.
Qed.

(** The text written, and where the section stands in it: the start of
    the old text, an empty line, the section, and the rest of the old text
    followed by the guidelines; the rest is empty or starts with a line
    [## ] that is not among the first four, and no line of the start
    after the fourth starts with [## ]. *)
Lemma update_text_placement today content :
  has_accomplishment_section content = false ->
  exists before after,
    content = before ++ after
    /\ update_text today content
       = Some (before ++ [newline; newline] ++ ACCOMPLISHMENT_SECTION today
               ++ after ++ guidelines_text content)
    /\ (after = []
        \/ (startswith (newline :: lit "## ") after = true
            /\ 3 < length (split_lines before)))
    /\ Forall (fun line => startswith (lit "## ") line = false)
              (skipn 4 (split_lines before)).
Proof.
  intros Hhas. unfold update_text. rewrite Hhas.
  pose proof (insert_index_first (split_lines content)) as Hfirst.
  destruct (insert_index_spec (@split_lines_nonempty content))
    as [l1 [l2 [El [Hl [Hne Hl2]]]]].
  rewrite <- Hl, El in Hfirst |- *.
  rewrite firstn_app, Nat.sub_diag, firstn_all in Hfirst |- *.
  cbn [firstn] in Hfirst |- *.
  rewrite app_nil_r in Hfirst |- *.
  rewrite skipn_app, Nat.sub_diag, skipn_all. cbn [skipn app].
  assert (Econtent : content = join [newline] (l1 ++ l2))
    by (rewrite <- El; symmetry; apply join_split_lines).
  assert (Hnl : Forall no_newline l1).
  { pose proof (split_lines_no_newline content) as H. rewrite El in H.
    apply Forall_app in H. tauto. }
  assert (Hsp : split_lines (join [newline] l1) = l1)
    by (apply split_join_lines; assumption).
  exists (join [newline] l1), (joined_after [newline] l2).
  split; [|split; [|split]].
  - rewrite Econtent at 1. apply join_app_any. exact Hne.
  - f_equal. unfold guidelines_text.
    destruct (negb (contains (lit "## Accomplishment Logging Guidelines")
                             content)).
    + rewrite <- app_assoc. rewrite join_app_any by exact Hne.
      rewrite !joined_after_app.
      change ([] :: ACCOMPLISHMENT_SECTION today :: l2)
        with ([[]; ACCOMPLISHMENT_SECTION today] ++ l2).
      rewrite joined_after_app.
      unfold joined_after at 1 3. cbn [join app].
      rewrite <- ?app_assoc. reflexivity.
    + rewrite app_nil_r. rewrite join_app_any by exact Hne.
      change ([] :: ACCOMPLISHMENT_SECTION today :: l2)
        with ([[]; ACCOMPLISHMENT_SECTION today] ++ l2).
      rewrite joined_after_app.
      unfold joined_after at 1. cbn [join app].
      rewrite <- ?app_assoc. reflexivity.
  - destruct Hl2 as [->|[H3 [line [rest [-> Hs]]]]]; [left; reflexivity|].
    right. split.
    + unfold joined_after. cbn [startswith app]. rewrite Ascii.eqb_refl.
      cbn [andb]. apply join_starts. exact Hs.
    + rewrite Hsp. exact H3.
  - rewrite Hsp. exact Hfirst.
Qed.

(** The shape of the text written: the start of the old text, an empty
    line, the section, and the rest of the old text followed by the
    guidelines. *)
Lemma update_text_shape today content :
  has_accomplishment_section content = false ->
  exists before after,
    content = before ++ after
    /\ update_text today content
       = Some (before ++ [newline; newline] ++ ACCOMPLISHMENT_SECTION today
               ++ after ++ guidelines_text content)
    /\ (after = []
        \/ (startswith (newline :: lit "## ") after = true
            /\ 3 < length (split_lines before))).
Proof.
  intros Hhas.
  destruct (@update_text_placement today content Hhas)
    as [before [after [E1 [E2 [E3 _]]]]].
  exists before, after. auto.
Qed.

Lemma section_split today t :
  ACCOMPLISHMENT_SECTION today ++ t
  = lit "## Recent Accomplishments"
    ++ (newline :: newline
        :: note_line
        ++ newline :: newline
        :: (lit "- " ++ today ++ lit ": " ++ entry_text) ++ newline :: t).
Proof.
  unfold ACCOMPLISHMENT_SECTION, note_line, entry_text.
  rewrite <- !app_assoc. cbn [lit list_ascii_of_string app].
  rewrite <- ?app_assoc. reflexivity.
Qed.

(** X22. The update keeps the text of the file and puts the section at
    one place.  The new text is the old text with an empty line and the
    section put in, and the guidelines at its end if the file had no
    guidelines section.  The place is in front of the first line that
    starts with [## ] and is not among the first four lines, and it is
    the end of the text when there is no such line: what follows the
    section is empty or starts with such a line, and no line in front of
    the section, the first four apart, starts with [## ]. *)
Theorem update_keeps_the_text today content new :
  update_text today content = Some new ->
  exists before after,
    content = before ++ after
    /\ new = before ++ [newline; newline] ++ ACCOMPLISHMENT_SECTION today
             ++ after ++ guidelines_text content
    /\ (after = []
        \/ (startswith (newline :: lit "## ") after = true
            /\ 3 < length (split_lines before)))
    /\ Forall (fun line => startswith (lit "## ") line = false)
              (skipn 4 (split_lines before)).
Proof.
  intros H.
  destruct (has_accomplishment_section content) eqn:Hhas;
    [unfold update_text in H; rewrite Hhas in H; discriminate|].
  destruct (@update_text_placement today content Hhas)
    as [before [after [E1 [E2 E3]]]].
  exists before, after. rewrite H in E2. apply some_eq in E2. auto.
Qed.

Lemma update_keeps_the_text_witness :
  let content :=
    lit ("# Project" ++ nl ++ nl ++ "Notes." ++ nl ++ nl ++ "More." ++ nl
         ++ "## Usage" ++ nl ++ "run it" ++ nl) in
  exists before after,
    content = before ++ after
    /\ lit ("# Project" ++ nl ++ nl ++ "Notes." ++ nl ++ nl ++ "More." ++ nl
            ++ nl)
       ++ ACCOMPLISHMENT_SECTION (lit "2025-01-15")
       ++ lit (nl ++ "## Usage" ++ nl ++ "run it" ++ nl ++ nl ++ nl)
       ++ GUIDELINES_SECTION
       = before ++ [newline; newline]
         ++ ACCOMPLISHMENT_SECTION (lit "2025-01-15")
         ++ after ++ guidelines_text content
    /\ (after = []
        \/ (startswith (newline :: lit "## ") after = true
            /\ 3 < length (split_lines before)))
    /\ Forall (fun line => startswith (lit "## ") line = false)
              (skipn 4 (split_lines before)).
Proof.
  apply (@update_keeps_the_text (lit "2025-01-15")). vm_compute. reflexivity.
Defined.

(** X23. An updated file is left as it is by the next update: the text
    written holds the heading that [has_accomplishment_section] looks
    for. *)
Theorem updated_file_is_not_updated_again today today' content new :
  update_text today content = Some new ->
  update_text today' new = None.
Proof.
  intros H.
  destruct (has_accomplishment_section content) eqn:Hhas;
    [unfold update_text in H; rewrite Hhas in H; discriminate|].
  destruct (@update_text_shape today content Hhas) as [before [after [_ [E2 _]]]].
  rewrite H in E2. apply some_eq in E2. subst new.
  unfold update_text.
  replace (has_accomplishment_section _) with true; [reflexivity|].
  symmetry. unfold has_accomplishment_section.
  rewrite section_split, app_assoc. apply contains_app.
Qed.

Lemma updated_file_is_not_updated_again_witness :
  update_text (lit "2025-01-16")
    (lit ("# Project" ++ nl ++ nl)
     ++ ACCOMPLISHMENT_SECTION (lit "2025-01-15")
     ++ [newline; newline] ++ GUIDELINES_SECTION)
  = None.
Proof.
  apply (@updated_file_is_not_updated_again
           (lit "2025-01-15") (lit "2025-01-16") (lit "# Project")).
  vm_compute. reflexivity.
Defined.

Lemma contains_prefix p a b : contains p (a ++ b) = false -> contains p a = false.
Proof.
  intros H. destruct (contains p a) eqn:E; [|reflexivity].
  rewrite <- H. clear H. symmetry.
  induction a as [|c a IH].
  - destruct p; [destruct b; reflexivity|discriminate].
  - cbn [app contains] in *. apply orb_true_iff in E. destruct E as [E|E].
    + change (c :: a ++ b) with ((c :: a) ++ b).
      rewrite (@startswith_app p (c :: a) b E). reflexivity.
    + rewrite (IH E). apply orb_true_r.
Qed.

Lemma startswith_split p s :
  startswith p s = true -> exists u, s = p ++ u.
Proof.
  rewrite startswith_strip_prefix.
  destruct (strip_prefix p s) as [u|] eqn:E; [|discriminate].
  intros _. exists u. apply strip_prefix_some. exact E.
Qed.

(** What can follow the section in the text written: nothing, or after
    one or two newlines a line that starts with [##]. *)
Lemma after_section_cases content after :
  after = [] \/ startswith (newline :: lit "## ") after = true ->
  let t := after ++ guidelines_text content in
  t = [] \/ (exists u, t = newline :: lit "##" ++ u)
  \/ (exists u, t = newline :: newline :: lit "##" ++ u).
Proof.
  intros [->|H]; cbv zeta.
  - unfold guidelines_text.
    destruct (negb (contains (lit "## Accomplishment Logging Guidelines")
                             content)); [|left; reflexivity].
    right. right. eexists. reflexivity.
  - apply startswith_split in H. destruct H as [u ->].
    right. left. eexists. cbn [app lit list_ascii_of_string]. reflexivity.
Qed.

(** Group 1 of the search on the section written: the note line, an
    empty line, the entry, and one or two line ends. *)
Lemma until_boundary_of_section e t :
  no_newline e ->
  t = [] \/ (exists u, t = newline :: lit "##" ++ u)
  \/ (exists u, t = newline :: newline :: lit "##" ++ u) ->
  exists blanks,
    (blanks = [] \/ blanks = [newline])
    /\ until_boundary
         (note_line ++ newline :: newline :: ("-"%char :: e) ++ newline :: t)
       = note_line ++ newline :: newline :: ("-"%char :: e)
         ++ newline :: blanks.
Proof.
  intros He Ht.
  rewrite until_boundary_no_newline by reflexivity.
  assert (E2 : forall X,
             until_boundary (newline :: newline :: ("-"%char :: e) ++ X)
             = newline :: newline :: until_boundary (("-"%char :: e) ++ X))
    by reflexivity.
  rewrite E2. rewrite until_boundary_no_newline by exact He.
  destruct Ht as [->|[[u ->]|[u ->]]].
  - exists []. split; [left; reflexivity|reflexivity].
  - exists []. split; [left; reflexivity|reflexivity].
  - exists [newline]. split; [right; reflexivity|reflexivity].
Qed.

Lemma process_blank_lines project_name target_date st blanks :
  blanks = [] \/ blanks = [newline] ->
  process_lines project_name target_date st (split_lines blanks) = st.
Proof.
  intros [->| ->]; apply process_quiet_lines; reflexivity.
Qed.

(** The records of the section written, for the date of its entry. *)
Lemma records_of_section project_name d blanks :
  calendar_date d ->
  blanks = [] \/ blanks = [newline] ->
  accomplishments
    (process_lines project_name d (Loop [] None)
       (split_lines
          (note_line ++ newline :: newline
           :: (lit "- " ++ strftime_ymd d ++ lit ": " ++ entry_text)
           ++ newline :: blanks)))
  = [Acc project_name (strftime_ymd d) entry_text []].
Proof.
  intros Hd Hb.
  destruct (strftime_token Hd)
    as [y1 [y2 [y3 [y4 [m1 [m2 [d1 [d2 [Etok Hdig]]]]]]]]].
  rewrite split_lines_app.
  change (newline :: ?x) with ([] ++ newline :: x) at 1.
  rewrite split_lines_app, split_lines_app.
  rewrite (@split_lines_line note_line) by reflexivity.
  assert (Hline : no_newline (lit "- " ++ strftime_ymd d ++ lit ": " ++ entry_text)).
  { rewrite Etok. apply no_newline_app. split; [reflexivity|].
    apply no_newline_app. split; [|reflexivity].
    unfold no_newline, token. cbn [forallb] in *.
    repeat match goal with
           | H : _ && _ = true |- _ => apply andb_true_iff in H; destruct H
           end.
    repeat (apply andb_true_iff; split);
      try reflexivity; apply digit_facts; assumption. }
  rewrite (split_lines_line Hline).
  change (split_lines []) with [@nil ascii].
  unfold process_lines. rewrite !fold_left_app. cbn [fold_left app].
  rewrite (@process_quiet_line project_name d (Loop [] None) note_line)
    by reflexivity.
  rewrite (@process_quiet_line project_name d (Loop [] None) [])
    by reflexivity.
  rewrite Etok.
  rewrite (@process_plain_entry y1 y2 y3 y4 m1 m2 d1 d2 Hdig entry_text
             eq_refl project_name d (Loop [] None) entry_text)
    by reflexivity.
  unfold date_step. rewrite <- Etok, (strptime_of_strftime Hd).
  rewrite date_eqb_refl. cbn [accomplishments app length].
  fold (process_lines project_name d
          (Loop [Acc project_name (strftime_ymd d) (strip entry_text) []]
                (Some 0))
          (split_lines blanks)).
  rewrite process_blank_lines by exact Hb. reflexivity.
Qed.

(** X24. The section that update-project-claudemd.py writes into a log
    file is read by parse-accomplishments.py: for the date of the update,
    the updated file gives exactly one record, with the date as written,
    the summary of the entry written and no details. *)
Theorem written_section_is_extracted project_name d content new :
  calendar_date d ->
  update_text (strftime_ymd d) content = Some new ->
  parse_accomplishments project_name (Some new) d
  = [Acc project_name (strftime_ymd d)
         (lit "Added accomplishment logging framework to CLAUDE.md") []].
Proof.
  intros Hd Hu.
  destruct (has_accomplishment_section content) eqn:Hhas;
    [unfold update_text in Hu; rewrite Hhas in Hu; discriminate|].
  destruct (@update_text_shape (strftime_ymd d) content Hhas)
    as [before [after [Ec [E2 Hafter]]]].
  rewrite Hu in E2. apply some_eq in E2. subst new.
  assert (Hafter' : after = [] \/ startswith (newline :: lit "## ") after = true)
    by tauto.
  pose proof (after_section_cases content Hafter') as Ht. cbv zeta in Ht.
  set (t := after ++ guidelines_text content) in *.
  destruct (strftime_token Hd)
    as [y1 [y2 [y3 [y4 [m1 [m2 [d1 [d2 [Etok Hdig]]]]]]]]].
  assert (He : no_newline (lit " " ++ strftime_ymd d ++ lit ": " ++ entry_text)).
  { rewrite Etok. apply no_newline_app. split; [reflexivity|].
    apply no_newline_app. split; [|reflexivity].
    unfold no_newline, token. cbn [forallb] in *.
    repeat match goal with
           | H : _ && _ = true |- _ => apply andb_true_iff in H; destruct H
           end.
    repeat (apply andb_true_iff; split);
      try reflexivity; apply digit_facts; assumption. }
  destruct (until_boundary_of_section He Ht) as [blanks [Hb Eub]].
  assert (Hpre : contains (lit "## Recent Accomplishments")
                          ((before ++ [newline]) ++ [newline]) = false).
  { apply contains_snoc_newline; [reflexivity|discriminate|].
    apply contains_snoc_newline; [reflexivity|discriminate|].
    apply (@contains_prefix _ before after). rewrite <- Ec. exact Hhas. }
  unfold parse_accomplishments, parse_text.
  change recent_section_pattern
    with (section_regex (lit "## Recent Accomplishments")).
  replace (before ++ [newline; newline] ++ ACCOMPLISHMENT_SECTION (strftime_ymd d)
           ++ t)
    with (((before ++ [newline]) ++ [newline])
          ++ lit "## Recent Accomplishments"
          ++ (newline :: newline
              :: note_line
              ++ newline :: newline
              :: (lit "- " ++ strftime_ymd d ++ lit ": " ++ entry_text)
              ++ newline :: t))
    by (rewrite <- section_split, <- !app_assoc; reflexivity).
  destruct (@search_at (lit "## Recent Accomplishments")
              ((before ++ [newline]) ++ [newline])
              (newline :: newline
               :: note_line
               ++ newline :: newline
               :: (lit "- " ++ strftime_ymd d ++ lit ": " ++ entry_text)
               ++ newline :: t)
              (note_line
               ++ newline :: newline
               :: (lit "- " ++ strftime_ymd d ++ lit ": " ++ entry_text)
               ++ newline :: t))
    as [m [Hm [Hg _]]].
  - apply (@no_heading_no_match_before (lit "# Recent Accomplishments")
             eq_refl).
    exact Hpre.
  - reflexivity.
  - rewrite Hm, Hg.
    change (lit "- " ++ strftime_ymd d ++ lit ": " ++ entry_text)
      with ("-"%char :: lit " " ++ strftime_ymd d ++ lit ": " ++ entry_text).
    rewrite Eub.
    change ("-"%char :: lit " " ++ strftime_ymd d ++ lit ": " ++ entry_text)
      with (lit "- " ++ strftime_ymd d ++ lit ": " ++ entry_text).
    apply records_of_section; assumption.
Qed.

Lemma written_section_is_extracted_witness :
  let d := Date 2025 1 15 in
  let content :=
    lit ("# Project" ++ nl ++ nl ++ "Notes." ++ nl ++ nl ++ "More." ++ nl
         ++ "## Usage" ++ nl ++ "- run it" ++ nl) in
  parse_accomplishments (lit "project")
                        (update_text (strftime_ymd d) content) d
  = [Acc (lit "project") (lit "2025-01-15")
         (lit "Added accomplishment logging framework to CLAUDE.md") []].
Proof.
  cbv zeta.
  destruct (update_text
              (strftime_ymd (Date 2025 1 15))
              (lit ("# Project" ++ nl ++ nl ++ "Notes." ++ nl ++ nl ++ "More."
                    ++ nl ++ "## Usage" ++ nl ++ "- run it" ++ nl)))
    as [new|] eqn:E; [|vm_compute in E; discriminate].
  apply (@written_section_is_extracted
           (lit "project") (Date 2025 1 15)
           (lit ("# Project" ++ nl ++ nl ++ "Notes." ++ nl ++ nl ++ "More."
                 ++ nl ++ "## Usage" ++ nl ++ "- run it" ++ nl)) new);
    [|exact E].
  unfold calendar_date. cbn [year month day]. repeat split; try lia.
  vm_compute. lia.
Defined.

End ClaudemdFacts.

(** * The records written for the other script *)
Module JsonFacts.
Import PyStr Parse Json JsonTerms.

(** An escaped character is read back as the character. *)
Lemma scanstring_escape (c : ascii) (out tail : str) :
  scanstring Plain out (escape c ++ tail) = scanstring Plain (c :: out) tail.
Proof.
  destruct c as [[] [] [] [] [] [] [] []]; reflexivity.
Qed.

Lemma scanstring_encoded (s out rest : str) :
  scanstring Plain out (flat_map escape s ++ Json.quote :: rest)
  = Done (rev out ++ s) rest.
Proof.
  revert out. induction s as [|c s IH]; intro out.
  - simpl. rewrite app_nil_r. reflexivity.
  - cbn [flat_map]. rewrite <- app_assoc, scanstring_escape, IH.
    simpl. rewrite <- app_assoc. reflexivity.
Qed.

Lemma scan_string (fuel : nat) (s rest : str) :
  scan_once (S fuel) (encode_string s ++ rest) = Done (String s) rest.
Proof.
  unfold encode_string. cbn [app scan_once].
  change (Ascii.eqb Json.quote Json.quote) with true. cbv iota.
  rewrite <- app_assoc. cbn [app].
  rewrite scanstring_encoded. reflexivity.
Qed.

Lemma skip_ws_spaces (n : nat) (c : ascii) (rest : str) :
  is_ws c = false ->
  skip_ws (repeat " "%char n ++ c :: rest) = c :: rest.
Proof.
  intro H. unfold skip_ws. induction n as [|n IH]; simpl.
  - rewrite H. reflexivity.
  - exact IH.
Qed.

Lemma skip_ws_indent (level : nat) (c : ascii) (rest : str) :
  is_ws c = false ->
  skip_ws (newline_indent level ++ c :: rest) = c :: rest.
Proof.
  intro H. unfold newline_indent. cbn [app].
  unfold skip_ws. cbn [drop_while].
  change (is_ws newline) with true. cbv iota.
  apply skip_ws_spaces. exact H.
Qed.

Lemma skip_ws_here (c : ascii) (rest : str) :
  is_ws c = false -> skip_ws (c :: rest) = c :: rest.
Proof.
  intro H. unfold skip_ws. simpl. rewrite H. reflexivity.
Qed.

Lemma string_reads (level : nat) (s : str) : reads level (String s) 1.
Proof.
  split.
  - intros [|fuel] rest H; [lia|]. apply scan_string.
  - exists Json.quote, (flat_map escape s ++ [Json.quote]).
    repeat split; reflexivity.
Qed.

Lemma join_starts_with (sep p : str) (ps : list str) (tail : str) :
  exists u, join sep (p :: ps) ++ tail = p ++ u.
Proof.
  destruct ps as [|q ps].
  - exists tail. reflexivity.
  - exists (sep ++ join sep (q :: ps) ++ tail).
    cbn [join]. rewrite <- !app_assoc. reflexivity.
Qed.

Lemma join_two (sep p q : str) (ps : list str) :
  join sep (p :: q :: ps) = p ++ sep ++ join sep (q :: ps).
Proof. reflexivity. Qed.

Lemma items_read (level level' : nat) (cost : value -> nat)
    (items : list value) :
  (forall v, In v items -> reads (S level) v (cost v)) ->
  forall seen fuel rest,
    items <> [] ->
    fuel_of cost items <= fuel ->
    array_items fuel
      (join (lit "," ++ newline_indent (S level))
            (map (encode (S level)) items)
       ++ newline_indent level' ++ "]"%char :: rest) seen
    = Done (Array (rev seen ++ items)) rest.
Proof.
  induction items as [|v vs IH]; intros Hall seen fuel rest Hne Hf;
    [congruence|].
  destruct (Hall v (or_introl eq_refl)) as [Hv _].
  unfold fuel_of in Hf. simpl in Hf.
  destruct fuel as [|fuel]; [lia|].
  destruct vs as [|v' vs].
  - cbn [map join array_items].
    rewrite Hv by lia.
    rewrite skip_ws_indent by reflexivity.
    simpl. reflexivity.
  - cbn [map]. rewrite join_two.
    change (encode (S level) v' :: map (encode (S level)) vs)
      with (map (encode (S level)) (v' :: vs)).
    rewrite <- !app_assoc. cbn [array_items].
    rewrite Hv by lia.
    change (lit "," ++ newline_indent (S level)
            ++ join (lit "," ++ newline_indent (S level))
                 (map (encode (S level)) (v' :: vs))
            ++ newline_indent level' ++ "]"%char :: rest)
      with (","%char :: newline_indent (S level)
            ++ join (lit "," ++ newline_indent (S level))
                 (map (encode (S level)) (v' :: vs))
            ++ newline_indent level' ++ "]"%char :: rest).
    rewrite skip_ws_here by reflexivity.
    change (Ascii.eqb "," "]") with false.
    change (Ascii.eqb "," ",") with true. cbv iota.
    assert (Hs : skip_ws (newline_indent (S level)
                 ++ join (lit "," ++ newline_indent (S level))
                      (map (encode (S level)) (v' :: vs))
                 ++ newline_indent level' ++ "]"%char :: rest)
            = join (lit "," ++ newline_indent (S level))
                      (map (encode (S level)) (v' :: vs))
                 ++ newline_indent level' ++ "]"%char :: rest).
    { destruct (Hall v' (or_intror (or_introl eq_refl)))
        as [_ (c & t & Ec & Hc & _)].
      cbn [map].
      destruct (join_starts_with (lit "," ++ newline_indent (S level))
                  (encode (S level) v') (map (encode (S level)) vs)
                  (newline_indent level' ++ "]"%char :: rest)) as [u Eu].
      rewrite Eu, Ec. cbn [app]. apply skip_ws_indent. exact Hc. }
    rewrite Hs.
    rewrite IH.
    + simpl. rewrite <- app_assoc. reflexivity.
    + intros x Hx. apply Hall. right. exact Hx.
    + discriminate.
    + unfold fuel_of. simpl in Hf |- *. lia.
Qed.

Lemma array_reads (level : nat) (cost : value -> nat) (items : list value) :
  (forall v, In v items -> reads (S level) v (cost v)) ->
  reads level (Array items) (S (fuel_of cost items)).
Proof.
  intro Hall. split.
  - intros fuel rest Hf. destruct fuel as [|fuel]; [lia|].
    destruct items as [|v vs]; [reflexivity|].
    change (encode level (Array (v :: vs)))
      with (lit "[" ++ newline_indent (S level)
            ++ join (lit "," ++ newline_indent (S level))
                 (map (encode (S level)) (v :: vs))
            ++ newline_indent level ++ lit "]").
    rewrite <- !app_assoc.
    change (lit "[" ++ ?x) with ("["%char :: x).
    cbn [scan_once].
    change (Ascii.eqb "[" Json.quote) with false.
    change (Ascii.eqb "[" "{") with false.
    change (Ascii.eqb "[" "[") with true. cbv iota.
    destruct (Hall v (or_introl eq_refl)) as [_ (c & t & Ec & Hc & Hb)].
    destruct (join_starts_with (lit "," ++ newline_indent (S level))
                (encode (S level) v) (map (encode (S level)) vs)
                (newline_indent level ++ lit "]" ++ rest)) as [u Eu].
    assert (Hs : skip_ws (newline_indent (S level)
                 ++ join (lit "," ++ newline_indent (S level))
                      (map (encode (S level)) (v :: vs))
                 ++ newline_indent level ++ lit "]" ++ rest)
            = c :: t ++ u).
    { cbn [map]. rewrite Eu, Ec. cbn [app]. apply skip_ws_indent. exact Hc. }
    rewrite Hs. rewrite Hb.
    change (c :: t ++ u) with ((c :: t) ++ u). rewrite <- Ec, <- Eu.
    apply (@items_read level level cost (v :: vs) Hall []);
      [discriminate|lia].
  - destruct items as [|v vs].
    + exists "["%char, (lit "]"). repeat split; reflexivity.
    + eexists "["%char, _. split; [reflexivity|]. split; reflexivity.
Qed.

Lemma encode_object (level : nat) (p : str * value)
    (ps : list (str * value)) :
  encode level (Object (p :: ps))
  = lit "{" ++ newline_indent (S level)
    ++ join (lit "," ++ newline_indent (S level))
            (map (pair_text level) (p :: ps))
    ++ newline_indent level ++ lit "}".
Proof. reflexivity. Qed.

Lemma pairs_read (level level' : nat) (cost : value -> nat)
    (pairs : list (str * value)) :
  (forall k v, In (k, v) pairs -> reads (S level) v (cost v)) ->
  forall seen fuel text rest,
    pairs <> [] ->
    fuel_of cost (map snd pairs) <= fuel ->
    Json.quote :: text
    = join (lit "," ++ newline_indent (S level))
           (map (pair_text level) pairs)
      ++ newline_indent level' ++ "}"%char :: rest ->
    object_pairs fuel text seen = Done (Object (rev seen ++ pairs)) rest.
Proof.
  induction pairs as [|[k v] ps IH];
    intros Hall seen fuel text rest Hne Hf Et; [congruence|].
  destruct (Hall k v (or_introl eq_refl)) as [Hv (c & t & Ec & Hc & _)].
  unfold fuel_of in Hf. simpl in Hf.
  destruct fuel as [|fuel]; [lia|].
  assert (Hstep : forall tail,
             Json.quote :: text = pair_text level (k, v) ++ tail ->
             object_pairs (S fuel) text seen
             = match skip_ws tail with
               | y :: rest3 =>
                   if Ascii.eqb y "}"
                   then Done (Object (rev ((k, v) :: seen))) rest3
                   else if Ascii.eqb y ","
                   then match skip_ws rest3 with
                        | z :: rest4 =>
                            if Ascii.eqb z Json.quote
                            then object_pairs fuel rest4 ((k, v) :: seen)
                            else Malformed
                        | [] => Malformed
                        end
                   else Malformed
               | [] => Malformed
               end).
  { intros tail E. unfold pair_text, encode_string in E.
    cbn [app] in E. injection E as ->.
    cbn [object_pairs]. rewrite <- !app_assoc. cbn [app].
    rewrite scanstring_encoded. cbn [rev app].
    rewrite skip_ws_here by reflexivity.
    change (Ascii.eqb ":" ":") with true. cbv iota.
    rewrite Ec. cbn [app].
    change (skip_ws (" "%char :: c :: t ++ tail))
      with (skip_ws (repeat " "%char 1 ++ c :: t ++ tail)).
    rewrite skip_ws_spaces by exact Hc.
    change (c :: t ++ tail) with ((c :: t) ++ tail). rewrite <- Ec.
    rewrite Hv by lia. reflexivity. }
  destruct ps as [|p' ps].
  - cbn [map join] in Et.
    rewrite (Hstep _ Et).
    rewrite skip_ws_indent by reflexivity.
    simpl. reflexivity.
  - cbn [map] in Et. rewrite join_two in Et.
    change (pair_text level p' :: map (pair_text level) ps)
      with (map (pair_text level) (p' :: ps)) in Et.
    rewrite <- !app_assoc in Et.
    rewrite (Hstep _ Et).
    change (lit "," ++ ?x) with (","%char :: x).
    rewrite skip_ws_here by reflexivity.
    change (Ascii.eqb "," "}") with false.
    change (Ascii.eqb "," ",") with true. cbv iota.
    destruct (join_starts_with (lit "," ++ newline_indent (S level))
                (pair_text level p') (map (pair_text level) ps)
                (newline_indent level' ++ "}"%char :: rest)) as [u Eu].
    assert (Ep : exists w, pair_text level p' = Json.quote :: w).
    { destruct p' as [k' v']. eexists. reflexivity. }
    destruct Ep as [w Ew].
    assert (Hs : skip_ws (newline_indent (S level)
                 ++ join (lit "," ++ newline_indent (S level))
                      (map (pair_text level) (p' :: ps))
                 ++ newline_indent level' ++ "}"%char :: rest)
            = Json.quote :: w ++ u).
    { cbn [map]. rewrite Eu, Ew. cbn [app].
      apply skip_ws_indent. reflexivity. }
    rewrite Hs. change (Ascii.eqb Json.quote Json.quote) with true.
    cbv iota.
    rewrite (IH (fun k0 v0 H => Hall k0 v0 (or_intror H))
               ((k, v) :: seen) fuel (w ++ u) rest).
    + simpl. rewrite <- app_assoc. reflexivity.
    + discriminate.
    + unfold fuel_of. simpl in Hf |- *. lia.
    + change (Json.quote :: w ++ u) with ((Json.quote :: w) ++ u).
      rewrite <- Ew, <- Eu. reflexivity.
Qed.

Lemma object_reads (level : nat) (cost : value -> nat)
    (pairs : list (str * value)) :
  (forall k v, In (k, v) pairs -> reads (S level) v (cost v)) ->
  reads level (Object pairs) (S (fuel_of cost (map snd pairs))).
Proof.
  intro Hall. split.
  - intros fuel rest Hf. destruct fuel as [|fuel]; [lia|].
    destruct pairs as [|p ps]; [reflexivity|].
    rewrite encode_object. rewrite <- !app_assoc.
    change (lit "{" ++ ?x) with ("{"%char :: x).
    cbn [scan_once].
    change (Ascii.eqb "{" Json.quote) with false.
    change (Ascii.eqb "{" "{") with true. cbv iota.
    destruct (join_starts_with (lit "," ++ newline_indent (S level))
                (pair_text level p) (map (pair_text level) ps)
                (newline_indent level ++ lit "}" ++ rest)) as [u Eu].
    assert (Ep : exists w, pair_text level p = Json.quote :: w).
    { destruct p as [k' v']. eexists. reflexivity. }
    destruct Ep as [w Ew].
    assert (Hs : skip_ws (newline_indent (S level)
                 ++ join (lit "," ++ newline_indent (S level))
                      (map (pair_text level) (p :: ps))
                 ++ newline_indent level ++ lit "}" ++ rest)
            = Json.quote :: w ++ u).
    { cbn [map]. rewrite Eu, Ew. cbn [app].
      apply skip_ws_indent. reflexivity. }
    rewrite Hs.
    change (Ascii.eqb Json.quote "}") with false.
    change (Ascii.eqb Json.quote Json.quote) with true. cbv iota.
    apply (@pairs_read level level cost (p :: ps) Hall []);
      [discriminate|lia|].
    change (Json.quote :: w ++ u) with ((Json.quote :: w) ++ u).
    rewrite <- Ew, <- Eu. reflexivity.
  - destruct pairs as [|p ps].
    + exists "{"%char, (lit "}"). repeat split; reflexivity.
    + eexists "{"%char, _. split; [reflexivity|]. split; reflexivity.
Qed.

Lemma reads_more (level : nat) (v : value) (n n' : nat) :
  n <= n' -> reads level v n -> reads level v n'.
Proof.
  intros Hn [H1 H2]. split; [|exact H2].
  intros fuel rest Hf. apply H1. lia.
Qed.

Lemma strings_read (level : nat) (ds : list str) :
  reads level (Array (map String ds)) (field_cost (Array (map String ds))).
Proof.
  apply reads_more
    with (n := S (fuel_of (fun _ => 1) (map String ds))).
  - unfold field_cost, fuel_of. rewrite !length_map.
    induction ds as [|d ds IH]; simpl in *; lia.
  - apply array_reads. intros v Hv.
    apply in_map_iff in Hv. destruct Hv as (d & <- & _).
    apply string_reads.
Qed.

Lemma record_reads (level : nat) (a : accomplishment) :
  reads level (to_json a) (record_cost (to_json a)).
Proof.
  unfold to_json, record_cost.
  apply object_reads. intros k v Hin.
  simpl in Hin.
  destruct Hin as [E|[E|[E|[E|[]]]]]; injection E as _ <-;
    try apply string_reads.
  apply strings_read.
Qed.

Lemma records_read (accs : list accomplishment) :
  reads 0 (Array (map to_json accs))
        (S (fuel_of record_cost (map to_json accs))).
Proof.
  apply array_reads. intros v Hv.
  apply in_map_iff in Hv. destruct Hv as (a & <- & _).
  apply record_reads.
Qed.

Lemma length_join (sep : str) (l : list str) :
  list_sum (map (@length ascii) l) <= length (join sep l).
Proof.
  induction l as [|p [|q l] IH].
  - simpl. lia.
  - simpl. lia.
  - rewrite join_two, !length_app.
    change (list_sum (map (@length ascii) (p :: q :: l)))
      with (length p + list_sum (map (@length ascii) (q :: l))).
    lia.
Qed.

Lemma length_strings (level : nat) (ds : list str) :
  length ds <= length (encode level (Array (map String ds))).
Proof.
  destruct ds as [|d ds]; [simpl; lia|].
  change (encode level (Array (map String (d :: ds))))
    with (lit "[" ++ newline_indent (S level)
          ++ join (lit "," ++ newline_indent (S level))
               (map (encode (S level)) (map String (d :: ds)))
          ++ newline_indent level ++ lit "]").
  rewrite !length_app.
  pose proof (length_join (lit "," ++ newline_indent (S level))
                (map (encode (S level)) (map String (d :: ds)))) as H.
  assert (Hl : forall l : list str,
             length l
             <= list_sum (map (@length ascii)
                            (map (encode (S level)) (map String l)))).
  { induction l as [|x l IH]; simpl in *; lia. }
  specialize (Hl (d :: ds)). lia.
Qed.

Lemma length_record (level : nat) (a : accomplishment) :
  5 + length (details a) <= length (encode level (to_json a)).
Proof.
  unfold to_json. rewrite encode_object.
  cbn [map join pair_text]. rewrite !length_app.
  pose proof (length_strings (S level) (details a)) as H.
  change (length (lit "{")) with 1.
  change (length (lit "}")) with 1.
  change (length (lit ": ")) with 2.
  lia.
Qed.

Lemma list_sum_cons (x : nat) (l : list nat) :
  list_sum (x :: l) = x + list_sum l.
Proof. reflexivity. Qed.

Lemma fuel_of_records (accs : list accomplishment) :
  fuel_of record_cost (map to_json accs)
  <= 2 * list_sum (map (@length ascii) (map (encode 1) (map to_json accs))).
Proof.
  unfold fuel_of.
  induction accs as [|a accs IH]; [simpl; lia|].
  cbn [map]. rewrite !list_sum_cons.
  pose proof (length_record 1 a) as H.
  assert (E : record_cost (to_json a) = 9 + 2 * length (details a)).
  { unfold record_cost, to_json, fuel_of, field_cost. simpl.
    rewrite length_map. lia. }
  lia.
Qed.

Lemma fuel_for_saved (accs : list accomplishment) :
  S (fuel_of record_cost (map to_json accs))
  <= 2 * length (save_to_json accs) + 2.
Proof.
  unfold save_to_json, dumps.
  destruct accs as [|a accs]; [unfold fuel_of; simpl; lia|].
  change (encode 0 (Array (map to_json (a :: accs))))
    with (lit "[" ++ newline_indent 1
          ++ join (lit "," ++ newline_indent 1)
               (map (encode 1) (map to_json (a :: accs)))
          ++ newline_indent 0 ++ lit "]").
  rewrite !length_app.
  pose proof (fuel_of_records (a :: accs)) as H1.
  pose proof (length_join (lit "," ++ newline_indent 1)
                (map (encode 1) (map to_json (a :: accs)))) as H2.
  lia.
Qed.

(** X25.  [parse_accomplishments_from_json] gives the daily-note script
    the list of dicts that [save_to_json] wrote, whatever characters the
    records hold: [json.load] succeeds on the file and returns the records
    in their order, each with its project, date, content and details. *)
Theorem saved_records_are_loaded (accs : list accomplishment) :
  parse_accomplishments_from_json (save_to_json accs)
  = Done (Array (map to_json accs)) [].
Proof.
  unfold parse_accomplishments_from_json, loads.
  destruct (records_read accs) as [Hread (c & t & Ec & Hc & _)].
  assert (Hs : skip_ws (save_to_json accs) = save_to_json accs).
  { unfold save_to_json, dumps. rewrite Ec.
    apply skip_ws_here. exact Hc. }
  rewrite Hs.
  pose proof (Hread (2 * length (save_to_json accs) + 2) []
                (fuel_for_saved accs)) as H.
  rewrite app_nil_r in H.
  unfold save_to_json at 2. unfold dumps. rewrite H. reflexivity.
Qed.

Lemma escape_plain (c : ascii) : forallb plain_ascii (escape c) = true.
Proof.
  destruct c as [[] [] [] [] [] [] [] []]; reflexivity.
Qed.

Lemma string_plain (s : str) : forallb plain_ascii (encode_string s) = true.
Proof.
  unfold encode_string. cbn [forallb].
  rewrite forallb_app. simpl.
  rewrite andb_true_r.
  induction s as [|c s IH]; [reflexivity|].
  cbn [flat_map]. rewrite forallb_app, escape_plain, IH. reflexivity.
Qed.

Lemma indent_plain (level : nat) :
  forallb plain_ascii (newline_indent level) = true.
Proof.
  unfold newline_indent. cbn [forallb].
  change (plain_ascii newline) with true. cbn [andb].
  induction (2 * level) as [|n IH]; [reflexivity|exact IH].
Qed.

Lemma join_plain (sep : str) (l : list str) :
  forallb plain_ascii sep = true ->
  (forall p, In p l -> forallb plain_ascii p = true) ->
  forallb plain_ascii (join sep l) = true.
Proof.
  intros Hsep.
  induction l as [|p [|q l] IH]; intro H.
  - reflexivity.
  - apply H. left. reflexivity.
  - rewrite join_two, !forallb_app, Hsep.
    rewrite (H p (or_introl eq_refl)).
    rewrite IH; [reflexivity|].
    intros x Hx. apply H. right. exact Hx.
Qed.

Lemma sep_plain (level : nat) :
  forallb plain_ascii (lit "," ++ newline_indent level) = true.
Proof.
  rewrite forallb_app, indent_plain. reflexivity.
Qed.

Lemma strings_plain (level : nat) (ds : list str) :
  forallb plain_ascii (encode level (Array (map String ds))) = true.
Proof.
  destruct ds as [|d ds]; [reflexivity|].
  change (encode level (Array (map String (d :: ds))))
    with (lit "[" ++ newline_indent (S level)
          ++ join (lit "," ++ newline_indent (S level))
               (map (encode (S level)) (map String (d :: ds)))
          ++ newline_indent level ++ lit "]").
  rewrite !forallb_app, !indent_plain.
  rewrite join_plain; [reflexivity|apply sep_plain|].
  intros p Hp. apply in_map_iff in Hp. destruct Hp as (v & <- & Hv).
  apply in_map_iff in Hv. destruct Hv as (x & <- & _).
  apply string_plain.
Qed.

Lemma record_plain (level : nat) (a : accomplishment) :
  forallb plain_ascii (encode level (to_json a)) = true.
Proof.
  unfold to_json. rewrite encode_object.
  rewrite !forallb_app, !indent_plain.
  rewrite join_plain; [reflexivity|apply sep_plain|].
  intros p Hp. cbn [map In] in Hp.
  destruct Hp as [<-|[<-|[<-|[<-|[]]]]];
    unfold pair_text; rewrite !forallb_app;
    change (encode (S level) (String ?s)) with (encode_string s);
    rewrite ?string_plain, ?strings_plain; reflexivity.
Qed.

(** X26.  The file [save_to_json] writes holds newlines and printable
    ASCII characters only, whatever characters the records hold: every
    other character is written as an escape. *)
Theorem saved_file_is_plain_ascii (accs : list accomplishment) :
  forallb plain_ascii (save_to_json accs) = true.
Proof.
  unfold save_to_json, dumps.
  destruct accs as [|a accs]; [reflexivity|].
  change (encode 0 (Array (map to_json (a :: accs))))
    with (lit "[" ++ newline_indent 1
          ++ join (lit "," ++ newline_indent 1)
               (map (encode 1) (map to_json (a :: accs)))
          ++ newline_indent 0 ++ lit "]").
  rewrite !forallb_app, !indent_plain.
  rewrite join_plain; [reflexivity|apply sep_plain|].
  intros p Hp. apply in_map_iff in Hp. destruct Hp as (v & <- & Hv).
  apply in_map_iff in Hv. destruct Hv as (x & <- & _).
  apply record_plain.
Qed.

End JsonFacts.
